(** * NEORV32 image generator and its SHA-256: a shallow embedding

    This development embeds two C sources of the repository,

    - [sw/lib/source/crypto.c]   (the function [sha256]), and
    - [sw/image_gen/image_gen.c] (the function [main]),

    as executable Rocq functions and states the properties of the
    integrity path over them: the additive checksum framing of the
    [-app_bin] operation, the SHA-256 digest, and the secure-boot
    information block of the [-bld_vhd] operation. *)

From Stdlib Require Import ZArith List Strings.String Strings.Ascii Strings.Byte.
From Stdlib Require Import Numbers.DecimalString Lia.
From stdpp Require Import base gmap strings list.

Local Open Scope Z_scope.

(** ** Machine integers

    [uint32_t], [uint64_t] and [unsigned char] values are integers in [Z];
    the wrap-around of C arithmetic is written out with [u32] and [u64]. *)

Module C.

Definition u32 (z : Z) : Z := z mod 2 ^ 32.
Definition u64 (z : Z) : Z := z mod 2 ^ 64.

(** The value of an [unsigned char]. *)
Definition uchar (b : byte) : Z := Z.of_N (Byte.to_N b).

(** The conversion of an integer to [unsigned char]. *)
Definition to_uchar (z : Z) : byte :=
  default x00 (Byte.of_N (Z.to_N (z mod 256))).

(** [~x] on a [uint32_t]. *)
Definition not32 (x : Z) : Z := u32 (Z.lnot x).

(** [memcpy(dst, src, n)]: the first [n] bytes of [dst] are replaced. *)
Definition memcpy (dst src : list byte) (n : nat) : list byte :=
  take n src ++ drop n dst.

End C.

Import C.

(** ** crypto.c *)

Module Crypto.

(** SHA256 constants, one list for each row of the table in the source. *)
Definition k : list Z :=
  [ 0x428a2f98; 0x71374491; 0xb5c0fbcf; 0xe9b5dba5; 0x3956c25b; 0x59f111f1; 0x923f82a4; 0xab1c5ed5 ] ++
  [ 0xd807aa98; 0x12835b01; 0x243185be; 0x550c7dc3; 0x72be5d74; 0x80deb1fe; 0x9bdc06a7; 0xc19bf174 ] ++
  [ 0xe49b69c1; 0xefbe4786; 0x0fc19dc6; 0x240ca1cc; 0x2de92c6f; 0x4a7484aa; 0x5cb0a9dc; 0x76f988da ] ++
  [ 0x983e5152; 0xa831c66d; 0xb00327c8; 0xbf597fc7; 0xc6e00bf3; 0xd5a79147; 0x06ca6351; 0x14292967 ] ++
  [ 0x27b70a85; 0x2e1b2138; 0x4d2c6dfc; 0x53380d13; 0x650a7354; 0x766a0abb; 0x81c2c92e; 0x92722c85 ] ++
  [ 0xa2bfe8a1; 0xa81a664b; 0xc24b8b70; 0xc76c51a3; 0xd192e819; 0xd6990624; 0xf40e3585; 0x106aa070 ] ++
  [ 0x19a4c116; 0x1e376c08; 0x2748774c; 0x34b0bcb5; 0x391c0cb3; 0x4ed8aa4a; 0x5b9cca4f; 0x682e6ff3 ] ++
  [ 0x748f82ee; 0x78a5636f; 0x84c87814; 0x8cc70208; 0x90befffa; 0xa4506ceb; 0xbef9a3f7; 0xc67178f2 ].

(** The macros, on [uint32_t] operands. *)
Definition ROTR (x n : Z) : Z := Z.lor (Z.shiftr x n) (u32 (Z.shiftl x (32 - n))).
Definition SHR (x n : Z) : Z := Z.shiftr x n.
Definition CH (x y z : Z) : Z := Z.lxor (Z.land x y) (Z.land (not32 x) z).
Definition MAJ (x y z : Z) : Z :=
  Z.lxor (Z.lxor (Z.land x y) (Z.land x z)) (Z.land y z).
Definition BSIG0 (x : Z) : Z := Z.lxor (Z.lxor (ROTR x 2) (ROTR x 13)) (ROTR x 22).
Definition BSIG1 (x : Z) : Z := Z.lxor (Z.lxor (ROTR x 6) (ROTR x 11)) (ROTR x 25).
Definition SSIG0 (x : Z) : Z := Z.lxor (Z.lxor (ROTR x 7) (ROTR x 18)) (SHR x 3).
Definition SSIG1 (x : Z) : Z := Z.lxor (Z.lxor (ROTR x 17) (ROTR x 19)) (SHR x 10).

(** [(p[i] << 24) | (p[i+1] << 16) | (p[i+2] << 8) | p[i+3]] stored into a
    [uint32_t].  The bytes are promoted to [int] before they are shifted;
    what is stored is the 32-bit pattern of the result. *)
Definition load_be32 (p : list byte) (i : nat) : Z :=
  u32 (Z.lor (Z.lor (Z.lor (Z.shiftl (uchar (nth i p x00)) 24)
                           (Z.shiftl (uchar (nth (i + 1) p x00)) 16))
                    (Z.shiftl (uchar (nth (i + 2) p x00)) 8))
             (uchar (nth (i + 3) p x00))).

(** [w[i] = SSIG1(w[i-2]) + w[i-7] + SSIG0(w[i-15]) + w[i-16]]; the array
    [w] is filled in index order, so the model appends.  The sum is reduced
    once: reducing after every addition gives the same word. *)
Definition expand (w : list Z) (i : nat) : list Z :=
  w ++ [u32 (SSIG1 (nth (i - 2) w 0) + nth (i - 7) w 0
             + SSIG0 (nth (i - 15) w 0) + nth (i - 16) w 0)].

(** The two loops that fill [w[64]] from the 64 bytes at [p + offset]. *)
Definition schedule (p : list byte) (offset : nat) : list Z :=
  fold_left expand (seq 16 48)
            (map (fun i => load_be32 p (offset + 4 * i)) (seq 0 16)).

(** The working variables [a, b, c, d, e, f, g, h_]. *)
Definition working : Type := Z * Z * Z * Z * Z * Z * Z * Z.

(** One iteration of the 64-round loop. *)
Definition round (w : list Z) (v : working) (i : nat) : working :=
  let '(a, b, c, d, e, f, g, h_) := v in
  let t1 := u32 (h_ + BSIG1 e + CH e f g + nth i k 0 + nth i w 0) in
  let t2 := u32 (BSIG0 a + MAJ a b c) in
  (u32 (t1 + t2), a, b, c, u32 (d + t1), e, f, g).

(** The block body, written three times in the source: schedule, rounds,
    and the addition into [h[0..7]]. *)
Definition process_block (h : list Z) (p : list byte) (offset : nat) : list Z :=
  let w := schedule p offset in
  let h0 := nth 0 h 0 in let h1 := nth 1 h 0 in
  let h2 := nth 2 h 0 in let h3 := nth 3 h 0 in
  let h4 := nth 4 h 0 in let h5 := nth 5 h 0 in
  let h6 := nth 6 h 0 in let h7 := nth 7 h 0 in
  let '(a, b, c, d, e, f, g, h_) :=
    fold_left (round w) (seq 0 64) (h0, h1, h2, h3, h4, h5, h6, h7) in
  [ u32 (h0 + a); u32 (h1 + b); u32 (h2 + c); u32 (h3 + d);
    u32 (h4 + e); u32 (h5 + f); u32 (h6 + g); u32 (h7 + h_) ].

(** Hash value initialization *)
Definition h_init : list Z :=
  [ 0x6a09e667; 0xbb67ae85; 0x3c6ef372; 0xa54ff53a;
    0x510e527f; 0x9b05688c; 0x1f83d9ab; 0x5be0cd19 ].

(** The control structure of [sha256], over the block body it runs.  The
    body is a parameter so that the same definition yields the digest (with
    [process_block]) and the sequence of blocks the body is run on. *)
Section Driver.

Context {St : Type} (body : St -> list byte -> nat -> St).

(** [while (offset + 64 <= len) { ...; offset += 64; }] *)
Fixpoint full_blocks (fuel : nat) (data : list byte) (offset : nat) (h : St)
  : St * nat :=
  match fuel with
  | O => (h, offset)
  | S fuel' =>
      if (offset + 64 <=? length data)%nat
      then full_blocks fuel' data (offset + 64)%nat (body h data offset)
      else (h, offset)
  end.

(** The first loop of the [rem >= 56] branch: every group of four bytes
    of [buf] is read as a word and stored back byte by byte. *)
Definition restore_words (buf : list byte) : list byte :=
  fold_left
    (fun buf i =>
       let w := load_be32 buf (4 * i) in
       let buf := <[(4 * i)%nat := to_uchar (Z.land (Z.shiftr w 24) 0xff)]> buf in
       let buf := <[(4 * i + 1)%nat := to_uchar (Z.land (Z.shiftr w 16) 0xff)]> buf in
       let buf := <[(4 * i + 2)%nat := to_uchar (Z.land (Z.shiftr w 8) 0xff)]> buf in
       <[(4 * i + 3)%nat := to_uchar (Z.land w 0xff)]> buf)
    (seq 0 16) buf.

(** [buf[56..63]] receive the bit length, most significant byte first. *)
Definition append_length (buf : list byte) (bits : Z) : list byte :=
  let buf := <[56%nat := to_uchar (Z.land (Z.shiftr bits 56) 0xff)]> buf in
  let buf := <[57%nat := to_uchar (Z.land (Z.shiftr bits 48) 0xff)]> buf in
  let buf := <[58%nat := to_uchar (Z.land (Z.shiftr bits 40) 0xff)]> buf in
  let buf := <[59%nat := to_uchar (Z.land (Z.shiftr bits 32) 0xff)]> buf in
  let buf := <[60%nat := to_uchar (Z.land (Z.shiftr bits 24) 0xff)]> buf in
  let buf := <[61%nat := to_uchar (Z.land (Z.shiftr bits 16) 0xff)]> buf in
  let buf := <[62%nat := to_uchar (Z.land (Z.shiftr bits 8) 0xff)]> buf in
  <[63%nat := to_uchar (Z.land bits 0xff)]> buf.

(** [sha256(data, len, out_digest)] with [len = length data].  Of
    [buf[128]] only the first 64 bytes are ever accessed ([rem < 64] when
    the first loop ends), and [memset(buf, 0, 64)] precedes every use:
    [buf] is modelled by these 64 bytes.  The variable [new_len] of the
    source is computed and never used. *)
Definition sha256_with (init : St) (data : list byte) : St :=
  let len := length data in
  let '(h, offset) := full_blocks (S len) data 0%nat init in
  let rem := (len - offset)%nat in
  let buf := replicate 64 x00 in
  let buf := if (rem =? 0)%nat then buf else memcpy buf (drop offset data) rem in
  let buf := <[rem := x80]> buf in
  let '(h, buf) :=
    if (56 <=? rem)%nat
    then (body h (restore_words buf) 0%nat, replicate 64 x00)
    else (h, buf) in
  let bits := u64 (Z.of_nat len * 8) in
  let buf := append_length buf bits in
  body h buf 0%nat.

End Driver.

(** The digest written to [out_digest[0..7]]. *)
Definition sha256 (data : list byte) : list Z :=
  sha256_with process_block h_init data.

(** A body that only records the 64 bytes at [p + offset] it is run on. *)
Definition record_block (blocks : list (list byte)) (p : list byte) (offset : nat)
  : list (list byte) :=
  blocks ++ [take 64 (drop offset p)].

(** The 64-byte blocks the block body of [sha256] is run on, in order. *)
Definition sha256_blocks (data : list byte) : list (list byte) :=
  sha256_with record_block [] data.

End Crypto.

(** ** image_gen.c *)

Module ImageGen.

Local Open Scope string_scope.
Local Open Scope Z_scope.

(** *** Text

    Rocq strings have no escape sequences: the newline and the double
    quote of the C format strings are built from their character codes. *)

Definition nl : string := String (ascii_of_nat 10) EmptyString.
Definition dq : string := String (ascii_of_nat 34) EmptyString.

(** [snprintf(dst, size, ...)] keeps at most [size - 1] characters. *)
Definition snprintf (size : nat) (s : string) : string :=
  substring 0 (size - 1) s.

Definition hex_digit (d : Z) : ascii :=
  if d <? 10 then ascii_of_nat (48 + Z.to_nat d)
  else ascii_of_nat (87 + Z.to_nat d).

(** [%08x] of an [unsigned int]. *)
Definition hex8 (x : Z) : string :=
  String (hex_digit (Z.land (Z.shiftr x 28) 15))
 (String (hex_digit (Z.land (Z.shiftr x 24) 15))
 (String (hex_digit (Z.land (Z.shiftr x 20) 15))
 (String (hex_digit (Z.land (Z.shiftr x 16) 15))
 (String (hex_digit (Z.land (Z.shiftr x 12) 15))
 (String (hex_digit (Z.land (Z.shiftr x 8) 15))
 (String (hex_digit (Z.land (Z.shiftr x 4) 15))
 (String (hex_digit (Z.land x 15)) EmptyString))))))).

(** [%lu] of an [unsigned long]. *)
Definition dec (x : Z) : string := NilZero.string_of_uint (N.to_uint (Z.to_N x)).

(** *** Streams

    An input stream is the content of the file when it was opened and a
    position; an output stream is the content written so far and a
    position.  The content of an output stream reaches the file system
    when the stream is closed. *)

Record istream := { in_data : list byte; in_pos : nat }.
Record ostream := { out_data : list byte; out_pos : nat }.

(** [fread(dst, 1, n, s)]: the bytes obtained (at most [n], fewer at the end
    of the file) and the advanced stream; the return value of [fread] is
    the number of bytes obtained. *)
Definition fread (n : nat) (s : istream) : list byte * istream :=
  let got := take n (drop (in_pos s) (in_data s)) in
  (got, {| in_data := in_data s; in_pos := (in_pos s + length got)%nat |}).

Definition rewind_in (s : istream) : istream :=
  {| in_data := in_data s; in_pos := 0 |}.

Definition rewind_out (s : ostream) : ostream :=
  {| out_data := out_data s; out_pos := 0 |}.

(** [fputc(c, s)]: overwrites inside the content, appends at its end. *)
Definition fputc (c : byte) (s : ostream) : ostream :=
  {| out_data :=
       if (out_pos s <? length (out_data s))%nat
       then <[out_pos s := c]> (out_data s)
       else out_data s ++ replicate (out_pos s - length (out_data s)) x00 ++ [c];
     out_pos := S (out_pos s) |}.

Definition fputs (str : string) (s : ostream) : ostream :=
  fold_left (fun s c => fputc c s) (list_byte_of_string str) s.

(** [fread(&buffer, sizeof(unsigned char), n, input)] into [buffer[4]]:
    only the bytes obtained are replaced. *)
Definition fread_buffer (n : nat) (buffer : list byte) (input : istream)
  : nat * list byte * istream :=
  let '(got, input) := fread n input in
  (length got, memcpy buffer got (length got), input).

(** The word assembled from [buffer[0..3]]:
    [tmp = (uint32_t)(buffer[0] << 0); tmp |= (uint32_t)(buffer[1] << 8); ...]
    (the bytes are promoted to [int] before they are shifted; the cast
    keeps the 32-bit pattern). *)
Definition buffer_word (buffer : list byte) : Z :=
  let tmp := u32 (Z.shiftl (uchar (nth 0 buffer x00)) 0) in
  let tmp := Z.lor tmp (u32 (Z.shiftl (uchar (nth 1 buffer x00)) 8)) in
  let tmp := Z.lor tmp (u32 (Z.shiftl (uchar (nth 2 buffer x00)) 16)) in
  Z.lor tmp (u32 (Z.shiftl (uchar (nth 3 buffer x00)) 24)).

(** Four [fputc((unsigned char)((x >> 8*j) & 0xFF), output)], [j = 0..3]. *)
Definition fputc_word (x : Z) (output : ostream) : ostream :=
  let output := fputc (to_uchar (Z.land (Z.shiftr x 0) 0xFF)) output in
  let output := fputc (to_uchar (Z.land (Z.shiftr x 8) 0xFF)) output in
  let output := fputc (to_uchar (Z.land (Z.shiftr x 16) 0xFF)) output in
  fputc (to_uchar (Z.land (Z.shiftr x 24) 0xFF)) output.

(** executable signature ("magic word") *)
Definition signature : Z := 0x4788CAFE.

(** output file types (operation select) *)
Inductive operation_enum :=
  | OP_APP_BIN | OP_APP_VHD | OP_BLD_VHD | OP_RAW_HEX
  | OP_RAW_BIN | OP_RAW_COE | OP_RAW_MEM | OP_RAW_MIF.

Definition PRIVATE_KEY_FILE : string := "rsa_private.pem".
Definition SIGNATURE_FILE : string := "sha256.sig".

(** *** [-app_bin]: binary executable for bootloader upload (with header) *)

Record app_bin_state := {
  ab_buffer : list byte;
  ab_checksum : Z;
  ab_size : Z;
  ab_input : istream;
  ab_output : ostream
}.

(** [while (fread(&buffer, sizeof(unsigned char), 4, input) != 0) { ... }] *)
Fixpoint app_bin_loop (fuel : nat) (s : app_bin_state) : app_bin_state :=
  match fuel with
  | O => s
  | S fuel' =>
      let '(n, buffer, input) := fread_buffer 4 (ab_buffer s) (ab_input s) in
      if (n =? 0)%nat
      then {| ab_buffer := buffer; ab_checksum := ab_checksum s;
              ab_size := ab_size s; ab_input := input;
              ab_output := ab_output s |}
      else
        let tmp := buffer_word buffer in
        let checksum := u32 (ab_checksum s + tmp) in
        let output := fputc (nth 0 buffer x00) (ab_output s) in
        let output := fputc (nth 1 buffer x00) output in
        let output := fputc (nth 2 buffer x00) output in
        let output := fputc (nth 3 buffer x00) output in
        app_bin_loop fuel'
          {| ab_buffer := buffer; ab_checksum := checksum;
             ab_size := u32 (ab_size s + 4); ab_input := input;
             ab_output := output |}
  end.

(** The whole [OP_APP_BIN] branch.  The loop consumes at least one byte
    per iteration, so the length of the input bounds the iterations. *)
Definition app_bin (buffer : list byte) (input : istream) (output : ostream)
  : app_bin_state :=
  (* reserve header space for signature, size and checksum *)
  let output := fold_left (fun o _ => fputc x00 o) (seq 0 12) output in
  let s := app_bin_loop (S (length (in_data input)))
             {| ab_buffer := buffer; ab_checksum := 0; ab_size := 0;
                ab_input := rewind_in input; ab_output := output |} in
  let output := rewind_out (ab_output s) in
  (* header: signature *)
  let output := fputc_word signature output in
  (* header: size *)
  let output := fputc_word (ab_size s) output in
  (* header: checksum (sum complement) *)
  let checksum := u32 (not32 (ab_checksum s) + 1) in
  let output := fputc_word checksum output in
  {| ab_buffer := ab_buffer s; ab_checksum := checksum; ab_size := ab_size s;
     ab_input := ab_input s; ab_output := output |}.

(** *** The text operations

    The locals of [main] that the remaining branches share: the four-byte
    [buffer], the two streams, and what has been printed on the standard
    output (one entry per [printf]). *)

Record io := {
  buffer : list byte;
  input : istream;
  output : ostream;
  stdout : list string
}.

(** [snprintf(tmp_string, sizeof(tmp_string), ...); fputs(tmp_string, output);] *)
Definition put (str : string) (s : io) : io :=
  {| buffer := buffer s; input := input s;
     output := fputs (snprintf 1024 str) (output s); stdout := stdout s |}.

Definition print (str : string) (s : io) : io :=
  {| buffer := buffer s; input := input s; output := output s;
     stdout := stdout s ++ [str] |}.

(** [fread(&buffer, sizeof(unsigned char), n, input)] and its return value. *)
Definition read (n : nat) (s : io) : nat * io :=
  let '(count, buffer, input) := fread_buffer n (buffer s) (input s) in
  (count, {| buffer := buffer; input := input; output := output s;
             stdout := stdout s |}).

(** A text of lines, each ended by a newline. *)
Definition unlines (l : list string) : string :=
  fold_right (fun line rest => line +:+ nl +:+ rest) "" l.

(** The image words of the two VHDL packages:
    [while (i < (input_words-1)) { if (fread(...) != 0) {...} else {...; break;} }] *)
Fixpoint vhd_image_loop (fuel : nat) (input_words i : Z) (s : io) : Z * io :=
  match fuel with
  | O => (i, s)
  | S fuel' =>
      if i <? u32 (input_words - 1)
      then
        let '(n, s) := read 4 s in
        if negb (n =? 0)%nat
        then
          let tmp := buffer_word (buffer s) in
          vhd_image_loop fuel' input_words (u32 (i + 1))
            (put ("x" +:+ dq +:+ hex8 tmp +:+ dq +:+ "," +:+ nl) s)
        else (i, print ("Unexpected input file end!" +:+ nl) s)
      else (i, s)
  end.

(** The loop above and the last word, written without a comma. *)
Definition vhd_image (input_words : Z) (s : io) : io :=
  let '(_, s) := vhd_image_loop (S (length (in_data (input s)))) input_words 0 s in
  let '(n, s) := read 4 s in
  if negb (n =? 0)%nat
  then put ("x" +:+ dq +:+ hex8 (buffer_word (buffer s)) +:+ dq +:+ nl) s
  else print ("Unexpected input file end!" +:+ nl) s.

(** [OP_APP_VHD] *)
Definition app_vhd (arg4 arg2 compile_time : string) (raw_exe_size input_words : Z)
    (s : io) : io :=
  let s := put (unlines
    [ "-- The NEORV32 RISC-V Processor - github.com/stnolting/neorv32";
      "-- Auto-generated memory initialization image (for internal IMEM)";
      "-- Source: " +:+ arg4 +:+ "/" +:+ arg2;
      "-- Built: " +:+ compile_time;
      "";
      "library ieee;";
      "use ieee.std_logic_1164.all;";
      "";
      "library neorv32;";
      "use neorv32.neorv32_package.all;";
      "";
      "package neorv32_application_image is";
      "";
      "constant application_init_size_c  : natural := " +:+ dec raw_exe_size +:+ "; -- bytes";
      "constant application_init_image_c : mem32_t := (" ]) s in
  let s := vhd_image input_words s in
  put (unlines [ ");"; ""; "end neorv32_application_image;" ]) s.

(** The loops of the raw text formats:
    [while (fread(&buffer, sizeof(unsigned char), 4, input) != 0) { ...; i++; }]
    with the line printed for the counter [i] and the word [tmp].
    ([OP_RAW_HEX] has no counter; its line does not depend on it.) *)
Fixpoint raw_words_loop (line : Z -> Z -> string) (fuel : nat) (i : Z) (s : io) : io :=
  match fuel with
  | O => s
  | S fuel' =>
      let '(n, s) := read 4 s in
      if (n =? 0)%nat then s
      else raw_words_loop line fuel' (u32 (i + 1))
             (put (line i (buffer_word (buffer s))) s)
  end.

Definition raw_words (line : Z -> Z -> string) (s : io) : io :=
  raw_words_loop line (S (length (in_data (input s)))) 0 s.

(** [OP_RAW_HEX] *)
Definition raw_hex (s : io) : io :=
  raw_words (fun _ tmp => hex8 tmp +:+ nl) s.

(** [OP_RAW_BIN]:
    [while (fread(&buffer, sizeof(unsigned char), 1, input) != 0) fputc(buffer[0], output);] *)
Fixpoint raw_bin_loop (fuel : nat) (s : io) : io :=
  match fuel with
  | O => s
  | S fuel' =>
      let '(n, s) := read 1 s in
      if (n =? 0)%nat then s
      else raw_bin_loop fuel'
             {| buffer := buffer s; input := input s;
                output := fputc (nth 0 (buffer s) x00) (output s);
                stdout := stdout s |}
  end.

Definition raw_bin (s : io) : io :=
  raw_bin_loop (S (length (in_data (input s)))) s.

(** [OP_RAW_COE] *)
Definition raw_coe (input_words : Z) (s : io) : io :=
  let s := put ("memory_initialization_radix=16;" +:+ nl) s in
  let s := put ("memory_initialization_vector=" +:+ nl) s in
  raw_words (fun i tmp =>
               if i =? u32 (input_words - 1)
               then hex8 tmp +:+ ";" +:+ nl
               else hex8 tmp +:+ "," +:+ nl) s.

(** [OP_RAW_MEM] *)
Definition raw_mem (s : io) : io :=
  raw_words (fun i tmp => "@" +:+ hex8 i +:+ " " +:+ hex8 tmp +:+ nl) s.

(** [OP_RAW_MIF] *)
Definition raw_mif (raw_exe_size : Z) (s : io) : io :=
  let s := put ("DEPTH = " +:+ dec (raw_exe_size / 4) +:+ ";" +:+ nl) s in
  let s := put ("WIDTH = 32;" +:+ nl) s in
  let s := put ("ADDRESS_RADIX = HEX;" +:+ nl) s in
  let s := put ("DATA_RADIX = HEX;" +:+ nl) s in
  let s := put ("CONTENT" +:+ nl) s in
  let s := put ("BEGIN" +:+ nl) s in
  let s := raw_words (fun i tmp => hex8 i +:+ " : " +:+ hex8 tmp +:+ ";" +:+ nl) s in
  put ("END;" +:+ nl) s.

(** *** [-bld_vhd]: the bootloader image and its secure-boot information *)

(** The inner loop of the signature output:
    [for (int b = 0; b < 4 && (k + b) < sig_len; b++)
       word |= ((uint32_t)signature[k + b]) << (8 * b);] *)
Fixpoint sig_word_loop (signature : list byte) (sig_len k : nat)
    (fuel b : nat) (word : Z) : Z :=
  match fuel with
  | O => word
  | S fuel' =>
      if ((b <? 4) && (k + b <? sig_len))%nat
      then sig_word_loop signature sig_len k fuel' (S b)
             (Z.lor word
                (u32 (Z.shiftl (uchar (nth (k + b) signature x00)) (8 * Z.of_nat b))))
      else word
  end.

(** The outer loop, [for (size_t k = 0; k < sig_len; k += 4)]: the value of
    [word] at each [snprintf], in order. *)
Fixpoint sig_words_loop (signature : list byte) (sig_len : nat)
    (fuel k : nat) : list Z :=
  match fuel with
  | O => []
  | S fuel' =>
      if (k <? sig_len)%nat
      then sig_word_loop signature sig_len k 5 0 0
             :: sig_words_loop signature sig_len fuel' (k + 4)
      else []
  end.

(** The words printed for the signature.  The loop ends within
    [sig_len + 1] tests of its condition. *)
Definition signature_words (signature : list byte) (sig_len : nat) : list Z :=
  sig_words_loop signature sig_len (S sig_len) 0.

(** The words of the secure-boot information block in output order: the
    signature words, and [input_words], printed by the statement under
    [Output 9th word: input size in words]. *)
Definition secure_boot_record (signature : list byte) (sig_len : nat)
    (input_words : Z) : list Z :=
  signature_words signature sig_len ++ [input_words].

Definition sig_line (word : Z) : string :=
  "x" +:+ dq +:+ hex8 word +:+ dq +:+ "," +:+ nl.

Definition size_line (input_words : Z) : string :=
  "x" +:+ dq +:+ hex8 input_words +:+ dq +:+ " -- Bootloader code size" +:+ nl.

(** The lines given to [fputs] by the statements that print the block. *)
Definition secure_boot_lines (signature : list byte) (sig_len : nat)
    (input_words : Z) : list string :=
  map sig_line (signature_words signature sig_len) ++ [size_line input_words].

(** How a branch of [main] ends: it falls through to the clean up at the
    end of [main], it returns a status itself, or the process is stopped
    by an access through a null [FILE *]. *)
Inductive flow :=
  | Continue
  | Return (status : Z)
  | Crash.

(** The outside world of one run.
    - [files]: the readable files, by path;
    - [writable]: whether [fopen(path, "wb")] succeeds;
    - [malloc_ok]: whether [malloc(input_size)] succeeds;
    - [system]: the effect of [system(cmd)], that is of the external
      signer: its exit status and the files it leaves;
    - [compile_time]: the text made from [localtime];
    - [buffer_init]: the indeterminate initial content of [buffer[4]]. *)
Record env := {
  argv : list string;
  files : gmap string (list byte);
  writable : string -> bool;
  malloc_ok : bool;
  system : string -> gmap string (list byte) -> Z * gmap string (list byte);
  compile_time : string;
  buffer_init : list byte
}.

(** The statements of [OP_BLD_VHD] that print the secure-boot information
    and close the package, once the signature has been read. *)
Definition emit_secure_boot_info (signature : list byte) (sig_len : nat)
    (input_words : Z) (s : io) : io :=
  let s := fold_left (fun s line => put line s)
             (secure_boot_lines signature sig_len input_words) s in
  let s := put (");" +:+ nl) s in
  put (nl +:+ "end neorv32_bootloader_image;" +:+ nl) s.

(** The statements of [OP_BLD_VHD] from [Write digest to a temp file] on.
    The digest words are written with
    [fwrite(&word, sizeof(uint32_t), 1, digest_file)], in the byte order
    of the host, taken to be little-endian.  Where the source only prints
    a message after a failed [fopen] ([// handle error...]), the next
    access through the null [FILE *] stops the process. *)
Definition sign_and_emit (e : env) (fs : gmap string (list byte))
    (sha256_digest : list Z) (input_words : Z) (s : io)
  : flow * gmap string (list byte) * io :=
  (* Write digest to a temp file *)
  if negb (writable e "sha256.bin")
  then (Crash, fs, print ("Failed to open temp digest file!" +:+ nl) s)
  else
    let fs := <["sha256.bin" := []]> fs in
    let digest_file :=
      fold_left (fun f j => fputc_word (nth j sha256_digest 0) f) (seq 0 8)
                {| out_data := []; out_pos := 0 |} in
    let fs := <["sha256.bin" := out_data digest_file]> fs in
    (* Sign the digest using openssl CLI *)
    let cmd := snprintf 256
      ("openssl dgst -sha256 -sign " +:+ PRIVATE_KEY_FILE +:+ " -out "
         +:+ SIGNATURE_FILE +:+ " sha256.bin") in
    let '(ret, fs) := system e cmd fs in
    let s := if negb (ret =? 0) then print ("OpenSSL signing failed!" +:+ nl) s else s in
    (* Read the signature back *)
    match fs !! SIGNATURE_FILE with
    | None => (Crash, fs, print ("Failed to open signature file!" +:+ nl) s)
    | Some sig_content =>
        let '(signature, _) :=
          fread 256 {| in_data := sig_content; in_pos := 0 |} in
        let sig_len := length signature in
        (* Clean up temp files *)
        let fs := delete "sha256.bin" fs in
        let fs := delete SIGNATURE_FILE fs in
        (Continue, fs, emit_secure_boot_info signature sig_len input_words s)
    end.

(** [OP_BLD_VHD].  [fs] holds the files at the time the branch is
    entered. *)
Definition bld_vhd (e : env) (fs : gmap string (list byte))
    (arg4 arg2 : string) (raw_exe_size input_size input_words : Z) (s : io)
  : flow * gmap string (list byte) * io :=
  let s := put (unlines
    [ "-- The NEORV32 RISC-V Processor - github.com/stnolting/neorv32";
      "-- Auto-generated memory initialization image (for internal BOOTROM)";
      "-- Source: " +:+ arg4 +:+ "/" +:+ arg2;
      "-- Built: " +:+ compile_time e;
      "";
      "library ieee;";
      "use ieee.std_logic_1164.all;";
      "";
      "library neorv32;";
      "use neorv32.neorv32_package.all;";
      "";
      "package neorv32_bootloader_image is";
      "";
      "constant bootloader_init_size_c  : natural := "
        +:+ dec (u64 (raw_exe_size + 260)) +:+ "; -- bytes";
      "constant bootloader_init_image_c : mem32_t := (" ]) s in
  let s := vhd_image input_words s in
  let s := put (");" +:+ nl) s in
  let s := put ("constant bootloader_init_secure_boot_info_c : mem32_t := (" +:+ nl) s in
  (* --- SHA256 calculation --- *)
  let s := {| buffer := buffer s; input := rewind_in (input s);
              output := output s; stdout := stdout s |} in
  if negb (malloc_ok e)
  then (Return (-5), fs, print ("Memory allocation failed!" +:+ nl) s)
  else
    let '(input_buf, input') := fread (Z.to_nat input_size) (input s) in
    let s := {| buffer := buffer s; input := input';
                output := output s; stdout := stdout s |} in
    if negb (Z.of_nat (length input_buf) =? input_size)
    then (Return (-6), fs, print ("Failed to read input file for SHA256!" +:+ nl) s)
    else sign_and_emit e fs (Crypto.sha256 input_buf) input_words s.

(** *** [main] *)

Inductive outcome :=
  | Exit (status : Z)
  | Fault.

Record result := {
  res_outcome : outcome;
  res_files : gmap string (list byte);
  res_stdout : list string
}.

Definition usage : string :=
  unlines
    [ "NEORV32 executable image generator";
      "Three arguments are required.";
      "1st: Operation";
      " -app_bin : Generate application executable binary (binary file, little-endian, with header) ";
      " -app_vhd : Generate application raw executable memory image (vhdl package body file, no header)";
      " -bld_vhd : Generate bootloader raw executable memory image (vhdl package body file, no header)";
      " -raw_hex : Generate application raw executable (ASCII hex file, no header)";
      " -raw_bin : Generate application raw executable (binary file, no header)";
      " -raw_coe : Generate application raw executable (COE file, no header)";
      " -raw_mem : Generate application raw executable (MEM file, no header)";
      " -raw_mif : Generate application raw executable (MIF file, no header)";
      "2nd: Input file (raw binary image)";
      "3rd: Output file";
      "4th: Project name or folder (optional)" ].

(** The chain of [strcmp(argv[1], ...)]. *)
Definition select_operation (arg1 : string) : option operation_enum :=
  if String.eqb arg1 "-app_bin" then Some OP_APP_BIN
  else if String.eqb arg1 "-app_vhd" then Some OP_APP_VHD
  else if String.eqb arg1 "-bld_vhd" then Some OP_BLD_VHD
  else if String.eqb arg1 "-raw_hex" then Some OP_RAW_HEX
  else if String.eqb arg1 "-raw_bin" then Some OP_RAW_BIN
  else if String.eqb arg1 "-raw_coe" then Some OP_RAW_COE
  else if String.eqb arg1 "-raw_mem" then Some OP_RAW_MEM
  else if String.eqb arg1 "-raw_mif" then Some OP_RAW_MIF
  else None.

(** [main(argc, argv)] with [argc = length argv].  [unsigned int] has 32
    bits and [unsigned long] 64.  With four arguments [argv[4]] is the
    null pointer, which [%s] prints as [(null)].  The final
    [Invalid operation!] branch of the source cannot be reached: the
    selection above yields one of the eight operations or returns.
    [fopen(argv[3], "wb")] creates the output file empty; what has been
    written reaches it at [fclose(output)], which a stopped process does
    not get to.

    A file is identified with its path, the input is read as it is when
    it is opened, and the output is stored under its path when it is
    closed.  This describes the runs whose output file is neither the
    input file (in the source, opening the output truncates an input of
    the same name before it is read) nor, with [-bld_vhd], one of the two
    temporary files (a name removed by [unlink] is not created again by
    [fclose]); the theorems about what such a run leaves in its output
    file assume so.  When the process is stopped, what [stdio] has
    already flushed is not modelled: nothing is stated about the output
    file of such a run. *)
Definition main (e : env) : result :=
  let argc := length (argv e) in
  let arg := fun n => nth n (argv e) "" in
  if negb ((argc =? 4)%nat || (argc =? 5)%nat)
  then {| res_outcome := Exit 0; res_files := files e; res_stdout := [usage] |}
  else
  match select_operation (arg 1%nat) with
  | None =>
      {| res_outcome := Exit (-1); res_files := files e;
         res_stdout := ["Invalid operation '" +:+ arg 1%nat +:+ "'!" +:+ nl] |}
  | Some operation =>
  (* open input file *)
  match files e !! arg 2%nat with
  | None =>
      {| res_outcome := Exit (-2); res_files := files e;
         res_stdout := ["Input file error (" +:+ arg 2%nat +:+ ")!" +:+ nl] |}
  | Some content =>
  (* get input file size *)
  let input_size := u32 (Z.of_nat (length content)) in
  let input_words := input_size / 4 in
  let out :=
    if negb (input_size mod 4 =? 0)
    then ["WARNING - image size is not a multiple of 4 bytes!" +:+ nl]
    else [] in
  (* input file empty? *)
  if input_size =? 0
  then {| res_outcome := Exit (-3); res_files := files e;
          res_stdout := out ++ ["Input file is empty (" +:+ arg 2%nat +:+ ")!" +:+ nl] |}
  else
  (* open output file *)
  if negb (writable e (arg 3%nat))
  then {| res_outcome := Exit (-4); res_files := files e;
          res_stdout := out ++ ["Output file error (" +:+ arg 3%nat +:+ ")!" +:+ nl] |}
  else
  let fs := <[arg 3%nat := []]> (files e) in
  let raw_exe_size := u64 (Z.of_nat (length content)) in
  let arg4 := if (argc =? 5)%nat then arg 4%nat else "(null)" in
  let s := {| buffer := buffer_init e;
              input := {| in_data := content; in_pos := 0 |};
              output := {| out_data := []; out_pos := 0 |}; stdout := out |} in
  let '(fl, fs, s) :=
    match operation with
    | OP_APP_BIN =>
        let r := app_bin (buffer s) (input s) (output s) in
        (Continue, fs,
         {| buffer := ab_buffer r; input := ab_input r; output := ab_output r;
            stdout := stdout s |})
    | OP_APP_VHD =>
        (Continue, fs,
         app_vhd arg4 (arg 2%nat) (compile_time e) raw_exe_size input_words s)
    | OP_BLD_VHD =>
        bld_vhd e fs arg4 (arg 2%nat) raw_exe_size input_size input_words s
    | OP_RAW_HEX => (Continue, fs, raw_hex s)
    | OP_RAW_BIN => (Continue, fs, raw_bin s)
    | OP_RAW_COE => (Continue, fs, raw_coe input_words s)
    | OP_RAW_MEM => (Continue, fs, raw_mem s)
    | OP_RAW_MIF => (Continue, fs, raw_mif raw_exe_size s)
    end in
  match fl with
  | Continue =>
      {| res_outcome := Exit 0;
         res_files := <[arg 3%nat := out_data (output s)]> fs;
         res_stdout := stdout s |}
  | Return status =>
      {| res_outcome := Exit status;
         res_files := <[arg 3%nat := out_data (output s)]> fs;
         res_stdout := stdout s |}
  | Crash =>
      {| res_outcome := Fault; res_files := fs; res_stdout := stdout s |}
  end
  end
  end.

End ImageGen.

(** ** Reference definitions

    What the specification compares the code with: the padding and the
    blocks of a SHA-256 message, the little-endian words of a byte
    sequence and their sum, and the serialization of a word. *)

Module Reference.

(** The 64-bit big-endian representation of [x]. *)
Definition be64 (x : Z) : list byte :=
  map (fun i => to_uchar (x / 2 ^ (8 * (7 - Z.of_nat i)))) (seq 0 8).

(** The number of zero bytes of the padding: the least [z] such that
    [len + 1 + z] is 56 modulo 64. *)
Definition zero_count (len : nat) : nat :=
  Z.to_nat ((55 - Z.of_nat len) mod 64).

(** The padded message: the byte 0x80, zero bytes, and the length of the
    message in bits. *)
Definition pad (msg : list byte) : list byte :=
  msg ++ [x80] ++ replicate (zero_count (length msg)) x00
      ++ be64 (8 * Z.of_nat (length msg)).

(** A padded message parsed into 64-byte blocks. *)
Definition blocks (m : list byte) : list (list byte) :=
  reshape (replicate (length m / 64)%nat 64%nat) m.

(** The 32-bit little-endian word of four bytes. *)
Definition le_word (b0 b1 b2 b3 : byte) : Z :=
  uchar b0 + 2 ^ 8 * uchar b1 + 2 ^ 16 * uchar b2 + 2 ^ 24 * uchar b3.

(** The 32-bit little-endian words of a byte sequence, one per complete
    group of four bytes. *)
Fixpoint words (b : list byte) : list Z :=
  match b with
  | b0 :: b1 :: b2 :: b3 :: rest => le_word b0 b1 b2 b3 :: words rest
  | _ => []
  end.

Definition sum (ws : list Z) : Z := fold_right Z.add 0 ws.

(** The checksum of a byte sequence: the two's-complement negation of the
    sum of its words, modulo [2^32]. *)
Definition checksum (b : list byte) : Z := (- sum (words b)) mod 2 ^ 32.

(** The four bytes of a 32-bit word, least significant first. *)
Definition le32 (x : Z) : list byte :=
  map (fun i => to_uchar (x / 2 ^ (8 * Z.of_nat i))) (seq 0 4).

(** The groups of four bytes of a sequence, the last one filled with zero
    bytes when it is partial. *)
Fixpoint groups_padded (fuel : nat) (b : list byte) : list (list byte) :=
  match fuel, b with
  | S fuel', _ :: _ => take 4 (b ++ replicate 3 x00) :: groups_padded fuel' (drop 4 b)
  | _, _ => []
  end.

(** The words of a sequence whose last group may be partial. *)
Definition words_padded (b : list byte) : list Z :=
  words (concat (groups_padded (length b) b)).

End Reference.

(** ** SHA-256 as published

    The secure hash standard (FIPS 180-4) in its own terms: words as
    numbers below [2^32] with addition modulo [2^32], rotation written with
    division and remainder, the constants derived from the primes, and the
    hash computation on the blocks of the padded message. *)

Module Fips.

(** Operations on 32-bit words (FIPS 180-4, 2.2.2 and 3.2). *)
Definition add32 (x y : Z) : Z := (x + y) mod 2 ^ 32.
Definition rotr (n x : Z) : Z := x / 2 ^ n + (x mod 2 ^ n) * 2 ^ (32 - n).
Definition shr (n x : Z) : Z := x / 2 ^ n.
Definition compl (x : Z) : Z := 2 ^ 32 - 1 - x.

(** The six logical functions (4.1.2). *)
Definition Ch (x y z : Z) : Z := Z.lxor (Z.land x y) (Z.land (compl x) z).
Definition Maj (x y z : Z) : Z :=
  Z.lxor (Z.lxor (Z.land x y) (Z.land x z)) (Z.land y z).
Definition Sigma0 (x : Z) : Z := Z.lxor (Z.lxor (rotr 2 x) (rotr 13 x)) (rotr 22 x).
Definition Sigma1 (x : Z) : Z := Z.lxor (Z.lxor (rotr 6 x) (rotr 11 x)) (rotr 25 x).
Definition sigma0 (x : Z) : Z := Z.lxor (Z.lxor (rotr 7 x) (rotr 18 x)) (shr 3 x).
Definition sigma1 (x : Z) : Z := Z.lxor (Z.lxor (rotr 17 x) (rotr 19 x)) (shr 10 x).

(** The first sixty-four primes, by trial division. *)
Definition is_prime (p : Z) : bool :=
  (1 <? p) && forallb (fun d => negb (p mod d =? 0))
                      (map Z.of_nat (seq 2 (Z.to_nat p - 2))).

Definition primes : list Z :=
  List.filter is_prime (map Z.of_nat (seq 2 310)).

(** The integer cube root, one bit at a time from bit [i - 1] down. *)
Fixpoint icbrt_from (i : nat) (n r : Z) : Z :=
  match i with
  | O => r
  | S i' =>
      let r' := r + 2 ^ Z.of_nat i' in
      icbrt_from i' n (if r' ^ 3 <=? n then r' else r)
  end.

Definition icbrt (n : Z) : Z := icbrt_from 40 n 0.

(** The constants (4.2.2): the first 32 bits of the fractional parts of
    the cube roots of the first sixty-four primes. *)
Definition K : list Z := map (fun p => icbrt (p * 2 ^ 96) mod 2 ^ 32) primes.

(** The initial hash value (5.3.3): the first 32 bits of the fractional
    parts of the square roots of the first eight primes. *)
Definition H0 : list Z := map (fun p => Z.sqrt (p * 2 ^ 64) mod 2 ^ 32) (take 8 primes).

(** The sixteen big-endian words of a block (5.2.1). *)
Fixpoint be_words (b : list byte) : list Z :=
  match b with
  | b0 :: b1 :: b2 :: b3 :: rest =>
      (2 ^ 24 * uchar b0 + 2 ^ 16 * uchar b1 + 2 ^ 8 * uchar b2 + uchar b3)
        :: be_words rest
  | _ => []
  end.

(** The message schedule (6.2.2, step 1). *)
Definition next_W (W : list Z) (t : nat) : list Z :=
  W ++ [add32 (add32 (add32 (sigma1 (nth (t - 2) W 0)) (nth (t - 7) W 0))
                     (sigma0 (nth (t - 15) W 0)))
              (nth (t - 16) W 0)].

Definition message_schedule (M : list Z) : list Z :=
  fold_left next_W (seq 16 48) M.

(** One round on the working variables (6.2.2, step 3). *)
Definition step (W : list Z) (v : Z * Z * Z * Z * Z * Z * Z * Z) (t : nat)
  : Z * Z * Z * Z * Z * Z * Z * Z :=
  let '(a, b, c, d, e, f, g, h) := v in
  let T1 := add32 (add32 (add32 (add32 h (Sigma1 e)) (Ch e f g)) (nth t K 0))
                  (nth t W 0) in
  let T2 := add32 (Sigma0 a) (Maj a b c) in
  (add32 T1 T2, a, b, c, add32 d T1, e, f, g).

(** The hash computation on one block (6.2.2, steps 1 to 4). *)
Definition compress (H : list Z) (M : list Z) : list Z :=
  let W := message_schedule M in
  let H_ := fun i => nth i H 0 in
  let '(a, b, c, d, e, f, g, h) :=
    fold_left (step W) (seq 0 64) (H_ 0, H_ 1, H_ 2, H_ 3, H_ 4, H_ 5, H_ 6, H_ 7)%nat in
  [ add32 a (H_ 0%nat); add32 b (H_ 1%nat); add32 c (H_ 2%nat); add32 d (H_ 3%nat);
    add32 e (H_ 4%nat); add32 f (H_ 5%nat); add32 g (H_ 6%nat); add32 h (H_ 7%nat) ].

Definition SHA256 (msg : list byte) : list Z :=
  fold_left (fun H block => compress H (be_words block))
            (Reference.blocks (Reference.pad msg)) H0.

End Fips.

(** ** Runs

    Concrete outside worlds, used to evaluate [main]. *)

Module Scenario.

Import ImageGen.
Local Open Scope string_scope.

(** A run [image_gen <op> main.bin main.out demo] in a directory that
    holds [main.bin]; [signer] is the effect of the [openssl] command. *)
Definition run (op : string) (image : list byte)
    (signer : gmap string (list byte) -> Z * gmap string (list byte)) : env :=
  {| argv := ["image_gen"; op; "main.bin"; "main.out"; "demo"];
     files := {[ "main.bin" := image ]};
     writable := fun _ => true;
     malloc_ok := true;
     system := fun _ => signer;
     compile_time := "01.01.2025 12:00:00";
     buffer_init := [x00; x00; x00; x00] |}.

(** A signer that fails and leaves nothing behind. *)
Definition signer_absent (fs : gmap string (list byte))
  : Z * gmap string (list byte) := (1, fs).

(** A signer that fails after it has created an empty signature file. *)
Definition signer_empty (fs : gmap string (list byte))
  : Z * gmap string (list byte) := (1, <[SIGNATURE_FILE := []]> fs).

(** A signer that succeeds with the signature [sig]. *)
Definition signer_ok (sig : list byte) (fs : gmap string (list byte))
  : Z * gmap string (list byte) := (0, <[SIGNATURE_FILE := sig]> fs).

(** The two-word image of the framing scenario. *)
Definition two_words : list byte := [x01; x00; x00; x00; x02; x00; x00; x00].

End Scenario.

(** ** Auxiliary definitions of the proofs *)

Import Crypto ImageGen.

(** The blocks [sha256] runs its body on after the complete blocks of the
    data: one block, or two when the rest of the data leaves no room for
    the length. *)
Definition final_blocks (data : list byte) : list (list byte) :=
  let len := length data in
  let rem := (len mod 64)%nat in
  let tail := drop (64 * (len / 64)) data in
  if (56 <=? rem)%nat
  then [ tail ++ x80 :: replicate (63 - rem) x00;
         replicate 56 x00 ++ Reference.be64 (8 * Z.of_nat len) ]
  else [ tail ++ x80 :: replicate (55 - rem) x00 ++ Reference.be64 (8 * Z.of_nat len) ].

(** An output stream positioned at the end of what it holds. *)
Definition at_end (o : ostream) : Prop := out_pos o = length (out_data o).

(** A state of the [-app_bin] loop whose output stream is at its end. *)
Definition ab (buffer : list byte) (cks size : Z) (data : list byte) (pos : nat)
    (od : list byte) : app_bin_state :=
  {| ab_buffer := buffer; ab_checksum := cks; ab_size := size;
     ab_input := {| in_data := data; in_pos := pos |};
     ab_output := {| out_data := od; out_pos := length od |} |}.

(** The four bytes the loop body reads from [buffer]. *)
Definition window (buffer : list byte) : list byte :=
  [nth 0 buffer x00; nth 1 buffer x00; nth 2 buffer x00; nth 3 buffer x00].

(** The group before a partial last group: the last complete group of
    the input, or the initial content of [buffer] when there is none. *)
Definition previous_group (buffer b : list byte) : list byte :=
  if (length b / 4 =? 0)%nat then window buffer
  else take 4 (drop (4 * (length b / 4 - 1)) b).

(** The bytes the loop writes after the header: the input, and for a
    partial last group the bytes that [buffer] still holds behind it. *)
Definition app_bin_payload (buffer b : list byte) : list byte :=
  if (length b mod 4 =? 0)%nat then b
  else b ++ drop (length b mod 4) (previous_group buffer b).

(** The stream of a file that has just been opened for reading. *)
Definition opened (b : list byte) : istream := {| in_data := b; in_pos := 0 |}.

(** The stream of a file that has just been opened for writing. *)
Definition created : ostream := {| out_data := []; out_pos := 0 |}.

(** A step of the text branches leaves the content of the input file
    alone and only appends to an output stream that is at its end. *)
Definition appends (s s' : io) : Prop :=
  in_data (input s') = in_data (input s)
  /\ at_end (output s')
  /\ exists t, out_data (output s') = out_data (output s) ++ t.

(** The bytes of a sequence of strings given to [fputs] one after the
    other. *)
Definition text (lines : list string) : list byte :=
  concat (map list_byte_of_string lines).

(** The two lines that end the bootloader package, after the secure-boot
    information. *)
Definition bld_closing : list string :=
  [ (");" +:+ nl)%string; (nl +:+ "end neorv32_bootloader_image;" +:+ nl)%string ].

(** The warning of [main] about the size of the input. *)
Definition size_warning : string :=
  ("WARNING - image size is not a multiple of 4 bytes!" +:+ nl)%string.

(** A 32-bit word. *)
Definition word (x : Z) : Prop := 0 <= x < 2 ^ 32.

(** Working variables that are 32-bit words. *)
Definition words8 (v : working) : Prop :=
  let '(a, b, c, d, e, f, g, h) := v in
  word a /\ word b /\ word c /\ word d /\ word e /\ word f /\ word g /\ word h.

(** ** Auxiliary definitions of the further properties *)

Section FurtherDefinitions.

Local Open Scope string_scope.
Local Open Scope list_scope.
Local Open Scope Z_scope.



(** The names [main] compares [argv[1]] with. *)
Definition operation_names : list string :=
  [ "-app_bin"; "-app_vhd"; "-bld_vhd"; "-raw_hex";
    "-raw_bin"; "-raw_coe"; "-raw_mem"; "-raw_mif" ]%string.

(** A state of the text branches whose output stream is at its end. *)
Definition tx (buf data : list byte) (pos : nat) (od : list byte)
    (so : list string) : io :=
  {| buffer := buf; input := {| in_data := data; in_pos := pos |};
     output := {| out_data := od; out_pos := length od |}; stdout := so |}.

(** The lines a loop with the counter [i] prints for the words [ws]; the
    counter is an [unsigned int] incremented after every line. *)
Fixpoint numbered (line : Z -> Z -> string) (i : Z) (ws : list Z) : list string :=
  match ws with
  | [] => []
  | w :: ws' => line i w :: numbered line (u32 (i + 1)) ws'
  end.

(** What [main] has printed when it enters a branch: the warning about a
    size that is not a multiple of 4, or nothing. *)
Definition warned (b : list byte) : list string :=
  if Z.of_nat (length b) mod 4 =? 0 then [] else [size_warning].

(** The line of a word of a VHDL image that is followed by another word,
    and the line of the last word. *)
Definition comma_line (w : Z) : string := "x" +:+ dq +:+ hex8 w +:+ dq +:+ "," +:+ nl.
Definition last_line (w : Z) : string := "x" +:+ dq +:+ hex8 w +:+ dq +:+ nl.

(** The lines of the image of a VHDL package. *)
Fixpoint vhd_lines (ws : list Z) : list string :=
  match ws with
  | [] => []
  | w :: ws' =>
      match ws' with
      | [] => [last_line w]
      | _ :: _ => comma_line w :: vhd_lines ws'
      end
  end.

(** The text [-app_vhd] gives to its first [snprintf]. *)
Definition app_vhd_header (arg4 arg2 compile_time : string) (raw_exe_size : Z) : string :=
  unlines
    [ "-- The NEORV32 RISC-V Processor - github.com/stnolting/neorv32";
      "-- Auto-generated memory initialization image (for internal IMEM)";
      "-- Source: " +:+ arg4 +:+ "/" +:+ arg2;
      "-- Built: " +:+ compile_time;
      "";
      "library ieee;";
      "use ieee.std_logic_1164.all;";
      "";
      "library neorv32;";
      "use neorv32.neorv32_package.all;";
      "";
      "package neorv32_application_image is";
      "";
      "constant application_init_size_c  : natural := " +:+ dec raw_exe_size +:+ "; -- bytes";
      "constant application_init_image_c : mem32_t := (" ].

(** The text that closes the package of [-app_vhd]. *)
Definition app_vhd_footer : string :=
  unlines [ ");"; ""; "end neorv32_application_image;" ].

(** [argv[4]] as [%s] prints it. *)
Definition project (e : env) : string :=
  if (length (argv e) =? 5)%nat then nth 4 (argv e) "" else "(null)".

(** The message of the VHDL branches at a failed [fread]. *)
Definition unexpected_end : string := "Unexpected input file end!" +:+ nl.

(** The text [-bld_vhd] gives to its first [snprintf]. *)
Definition bld_vhd_header (arg4 arg2 compile_time : string) (size : Z) : string :=
  unlines
    [ "-- The NEORV32 RISC-V Processor - github.com/stnolting/neorv32";
      "-- Auto-generated memory initialization image (for internal BOOTROM)";
      "-- Source: " +:+ arg4 +:+ "/" +:+ arg2;
      "-- Built: " +:+ compile_time;
      "";
      "library ieee;";
      "use ieee.std_logic_1164.all;";
      "";
      "library neorv32;";
      "use neorv32.neorv32_package.all;";
      "";
      "package neorv32_bootloader_image is";
      "";
      "constant bootloader_init_size_c  : natural := " +:+ dec size +:+ "; -- bytes";
      "constant bootloader_init_image_c : mem32_t := (" ].

(** The two lines between the image and the secure-boot information. *)
Definition bld_vhd_middle : list string :=
  [ ");" +:+ nl;
    "constant bootloader_init_secure_boot_info_c : mem32_t := (" +:+ nl ].

(** What [-bld_vhd] has written when it reaches the SHA-256 calculation,
    for an input [b] of at least four bytes. *)
Definition bld_vhd_prefix (e : env) (b : list byte) : list string :=
  [ snprintf 1024
      (bld_vhd_header (project e) (nth 2 (argv e) "") (compile_time e)
                      (Z.of_nat (length b) + 260)) ]
  ++ vhd_lines (Reference.words (take (4 * (length b / 4)) b))
  ++ bld_vhd_middle.

(** The run [e] with a signer that leaves the same files but ends with
    [status]. *)
Definition with_status (e : env) (status : Z) : env :=
  {| argv := argv e; files := files e; writable := writable e;
     malloc_ok := malloc_ok e;
     system := fun cmd fs => (status, (system e cmd fs).2);
     compile_time := compile_time e; buffer_init := buffer_init e |}.

(** The ways a run that has opened both files can end: status 0, the two
    statuses of [-bld_vhd], or a stopped process. *)
Definition late_outcome (o : outcome) : Prop :=
  o = Exit 0 \/ o = Exit (-5) \/ o = Exit (-6) \/ o = Fault.

(** Two results of a branch that end the same way, leave the same files
    and, unless the process is stopped, the same output stream. *)
Definition same_effect (r r' : flow * gmap string (list byte) * io) : Prop :=
  r.1.1 = r'.1.1 /\ r.1.2 = r'.1.2 /\ (r.1.1 <> Crash -> output r.2 = output r'.2).

(** The value of a hexadecimal digit as [%x] prints it, and the value of
    a string of such digits. *)
Definition hex_value (c : ascii) : Z :=
  let n := Z.of_nat (nat_of_ascii c) in
  if n <? 58 then n - 48 else n - 87.

Definition unhex (s : string) : Z :=
  fold_left (fun acc c => 16 * acc + hex_value c) (list_ascii_of_string s) 0.

(** The lines of the image as [-bld_vhd] writes them for an input [b] of
    any size: the words of the complete groups or, for an input of fewer
    than four bytes, its only word followed by a comma. *)
Definition bld_vhd_image (e : env) (b : list byte) : list string :=
  if Z.of_nat (length b) <? 4
  then [ comma_line (buffer_word (memcpy (buffer_init e) b (length b))) ]
  else vhd_lines (Reference.words (take (4 * (length b / 4)) b)).

(** What [-bld_vhd] has written when it reaches the SHA-256 calculation. *)
Definition bld_vhd_opening (e : env) (b : list byte) : list string :=
  [ snprintf 1024
      (bld_vhd_header (project e) (nth 2 (argv e) "") (compile_time e)
                      (Z.of_nat (length b) + 260)) ]
  ++ bld_vhd_image e b
  ++ bld_vhd_middle.

End FurtherDefinitions.
Lemma uchar_range b : 0 <= uchar b < 256.
Proof. unfold uchar. pose proof (Byte.to_N_bounded b). lia. Qed.

Lemma to_uchar_uchar b : to_uchar (uchar b) = b.
Proof.
  unfold to_uchar. rewrite Z.mod_small by apply uchar_range.
  unfold uchar. rewrite N2Z.id, Byte.of_to_N. reflexivity.
Qed.

Lemma uchar_to_uchar z : uchar (to_uchar z) = z mod 256.
Proof.
  unfold to_uchar, uchar.
  assert (H : 0 <= z mod 256 < 256) by (apply Z.mod_pos_bound; lia).
  destruct (Byte.of_N (Z.to_N (z mod 256))) as [b|] eqn:E.
  - apply Byte.to_of_N in E. simpl. rewrite E. lia.
  - apply Byte.of_N_None_iff in E. lia.
Qed.

Lemma to_uchar_mod z : to_uchar (z mod 256) = to_uchar z.
Proof. unfold to_uchar. rewrite Z.mod_mod by lia. reflexivity. Qed.


Lemma lor_shiftl_add hi lo n : 0 <= n -> 0 <= lo < 2 ^ n ->
  Z.lor (Z.shiftl hi n) lo = hi * 2 ^ n + lo.
Proof.
  intros Hn Hlo. rewrite <- Z.shiftl_mul_pow2 by lia.
  symmetry. apply Z.add_nocarry_lor.
  apply Z.bits_inj'. intros i Hi. rewrite Z.land_spec, Z.bits_0.
  destruct (Z.lt_ge_cases i n).
  - rewrite Z.shiftl_spec_low by lia. reflexivity.
  - assert (Z.testbit lo i = false) as ->; [|apply andb_false_r].
    destruct (Z.eq_dec lo 0) as [->|]; [apply Z.bits_0|].
    apply Z.bits_above_log2; [lia|].
    apply Z.log2_lt_pow2; [lia|].
    eapply Z.lt_le_trans; [apply Hlo|]. apply Z.pow_le_mono_r; lia.
Qed.

Lemma be_bytes_arith b0 b1 b2 b3 :
  0 <= b0 < 256 -> 0 <= b1 < 256 -> 0 <= b2 < 256 -> 0 <= b3 < 256 ->
  Z.lor (Z.lor (Z.lor (Z.shiftl b0 24) (Z.shiftl b1 16)) (Z.shiftl b2 8)) b3
  = b0 * 2^24 + b1 * 2^16 + b2 * 2^8 + b3.
Proof.
  intros.
  replace (Z.shiftl b0 24) with (Z.shiftl (Z.shiftl b0 8) 16)
    by (rewrite Z.shiftl_shiftl by lia; reflexivity).
  rewrite <- Z.shiftl_lor, (lor_shiftl_add b0 b1 8) by lia.
  replace (Z.shiftl (b0 * 2^8 + b1) 16) with (Z.shiftl (Z.shiftl (b0 * 2^8 + b1) 8) 8)
    by (rewrite Z.shiftl_shiftl by lia; reflexivity).
  rewrite <- Z.shiftl_lor, (lor_shiftl_add _ b2 8) by lia.
  rewrite lor_shiftl_add by lia. lia.
Qed.

Lemma load_be32_arith p i :
  load_be32 p i = uchar (nth i p x00) * 2^24 + uchar (nth (i+1) p x00) * 2^16
                  + uchar (nth (i+2) p x00) * 2^8 + uchar (nth (i+3) p x00).
Proof.
  unfold load_be32.
  pose proof (uchar_range (nth i p x00)). pose proof (uchar_range (nth (i+1) p x00)).
  pose proof (uchar_range (nth (i+2) p x00)). pose proof (uchar_range (nth (i+3) p x00)).
  rewrite be_bytes_arith by assumption. unfold u32. apply Z.mod_small. lia.
Qed.

Lemma byte_of_shift w s : 0 <= s -> to_uchar (Z.land (Z.shiftr w s) 255) = to_uchar (w / 2 ^ s).
Proof.
  intros. change 255 with (Z.ones 8). rewrite Z.land_ones by lia.
  rewrite Z.shiftr_div_pow2 by lia. apply to_uchar_mod.
Qed.

Lemma byte_of_low w : to_uchar (Z.land w 255) = to_uchar w.
Proof. change 255 with (Z.ones 8). rewrite Z.land_ones by lia. apply to_uchar_mod. Qed.

Lemma to_uchar_eq z b : z mod 256 = uchar b -> to_uchar z = b.
Proof. intros H. rewrite <- to_uchar_mod, H. apply to_uchar_uchar. Qed.

Lemma restore_step (buf : list byte) (i : nat) :
  let w := load_be32 buf (4 * i) in
  <[(4 * i + 3)%nat := to_uchar (Z.land w 0xff)]>
   (<[(4 * i + 2)%nat := to_uchar (Z.land (Z.shiftr w 8) 0xff)]>
    (<[(4 * i + 1)%nat := to_uchar (Z.land (Z.shiftr w 16) 0xff)]>
     (<[(4 * i)%nat := to_uchar (Z.land (Z.shiftr w 24) 0xff)]> buf))) = buf.
Proof.
  intros w. subst w. rewrite load_be32_arith.
  set (j := (4 * i)%nat).
  pose proof (uchar_range (nth j buf x00)). pose proof (uchar_range (nth (j+1) buf x00)).
  pose proof (uchar_range (nth (j+2) buf x00)). pose proof (uchar_range (nth (j+3) buf x00)).
  assert (Hid : forall (l : list byte) n x, x = nth n l x00 -> <[n := x]> l = l).
  { intros l n x ->. apply list_insert_id'. intros Hn.
    apply lookup_lt_is_Some_2 in Hn as [x Hx]. rewrite Hx. f_equal. symmetry.
    by apply nth_lookup_Some. }
  rewrite !byte_of_shift, byte_of_low by lia.
  rewrite (Hid buf j); [rewrite (Hid buf (j+1)%nat); [rewrite (Hid buf (j+2)%nat); [apply Hid|]|]|];
    apply to_uchar_eq; try rewrite Z.pow_0_r, Z.div_1_r; Z.div_mod_to_equations; lia.
Qed.

Lemma restore_words_id buf : restore_words buf = buf.
Proof.
  unfold restore_words. generalize (seq 0 16). intros l. induction l as [|i l IH]; [done|].
  cbn [fold_left]. rewrite restore_step. apply IH.
Qed.

Section DriverFacts.
Context {St : Type} (body : St -> list byte -> nat -> St).
Context (step : St -> list byte -> St).
Hypothesis body_local : forall h p o, body h p o = step h (take 64 (drop o p)).

Lemma full_blocks_sim data init : forall fuel offset tr,
  full_blocks body fuel data offset (fold_left step tr init)
  = (fold_left step (full_blocks record_block fuel data offset tr).1 init,
     (full_blocks record_block fuel data offset tr).2).
Proof.
  induction fuel as [|fuel IH]; intros offset tr; simpl; [done|].
  destruct (offset + 64 <=? length data)%nat; [|done].
  rewrite body_local.
  rewrite <- IH. unfold record_block. by rewrite fold_left_app.
Qed.

Lemma sha256_with_sim data init :
  sha256_with body init data = fold_left step (sha256_blocks data) init.
Proof.
  unfold sha256_blocks, sha256_with.
  pose proof (full_blocks_sim data init (S (length data)) 0%nat []) as H.
  change (fold_left step [] init) with init in H. rewrite H.
  destruct (full_blocks record_block (S (length data)) data 0%nat []) as [tr off].
  cbn [fst snd].
  destruct (56 <=? length data - off)%nat; unfold record_block;
    rewrite !body_local, ?fold_left_app; reflexivity.
Qed.
End DriverFacts.

Lemma full_blocks_trace data : forall fuel offset tr,
  (offset <= length data)%nat -> (length data < offset + 64 * fuel)%nat ->
  full_blocks record_block fuel data offset tr
  = (tr ++ map (fun j => take 64 (drop (offset + 64 * j) data))
               (seq 0 ((length data - offset) / 64)),
     (offset + 64 * ((length data - offset) / 64))%nat).
Proof.
  induction fuel as [|fuel IH]; intros offset tr Hle Hlt; [lia|].
  cbn [full_blocks]. destruct (Nat.leb_spec (offset + 64) (length data)) as [Hc|Hc].
  - rewrite IH by lia. unfold record_block.
    replace ((length data - offset) / 64)%nat with (S ((length data - (offset + 64)) / 64)).
    2:{ replace (length data - offset)%nat with (length data - (offset + 64) + 1 * 64)%nat by lia.
        rewrite Nat.div_add by lia. lia. }
    rewrite <- cons_seq, <- seq_shift. cbn [map]. rewrite <- app_assoc. cbn [app].
    rewrite Nat.mul_0_r, Nat.add_0_r.
    f_equal; [|lia]. f_equal. f_equal. rewrite map_map.
    apply map_ext. intros j. do 2 f_equal. lia.
  - rewrite Nat.div_small by lia. cbn [seq map]. rewrite app_nil_r. f_equal. lia.
Qed.

Lemma concat_full_blocks (data : list byte) n : (64 * n <= length data)%nat ->
  concat (map (fun j => take 64 (drop (64 * j) data)) (seq 0 n)) = take (64 * n) data.
Proof.
  induction n as [|n IH]; intros Hn; [reflexivity|].
  rewrite seq_S, map_app, concat_app, IH by lia. cbn [map concat Nat.add].
  rewrite app_nil_r, take_take_drop. f_equal. lia.
Qed.

Lemma append_length_spec buf bits : length buf = 64%nat ->
  append_length buf (u64 bits) = take 56 buf ++ Reference.be64 bits.
Proof.
  intros Hlen. rewrite <- (take_drop 56 buf) at 1.
  assert (Hp : length (take 56 buf) = 56%nat) by (rewrite length_take; lia).
  assert (Hd : length (drop 56 buf) = 8%nat) by (rewrite length_drop; lia).
  destruct (drop 56 buf) as [|c0 [|c1 [|c2 [|c3 [|c4 [|c5 [|c6 [|c7 [|]]]]]]]]]; try discriminate.
  unfold append_length.
  rewrite !insert_app_r_alt by (rewrite ?length_app, ?length_insert, Hp; simpl; lia).
  rewrite Hp. cbn -[Z.shiftr Z.land to_uchar u64 Z.div Z.pow Z.mul Z.sub].
  change 255 with (Z.ones 8).
  rewrite !Z.land_ones, !Z.shiftr_div_pow2 by lia.
  unfold Reference.be64. cbn [map seq]. unfold u64.
  apply (f_equal (app (take 56 buf))).
  repeat (apply (f_equal2 (@cons byte))); try reflexivity;
    cbn [Z.of_nat Pos.of_succ_nat Pos.succ Z.sub Z.add Z.opp Z.pos_sub Z.mul Pos.mul
         Pos.add Z.succ_double Z.pred_double Z.double Pos.pred_double];
    rewrite <- to_uchar_mod; symmetry; rewrite <- to_uchar_mod; f_equal;
    try rewrite Z.pow_0_r, Z.div_1_r; Z.div_mod_to_equations; lia.
Qed.


Lemma sha256_blocks_spec data :
  sha256_blocks data
  = map (fun j => take 64 (drop (64 * j) data)) (seq 0 (length data / 64))
    ++ final_blocks data.
Proof.
  unfold sha256_blocks, sha256_with, final_blocks.
  rewrite full_blocks_trace by lia.
  rewrite Nat.sub_0_r, Nat.add_0_l. cbn [app].
  set (len := length data). set (n := (len / 64)%nat).
  assert (Hrem : (len - 64 * n)%nat = (len mod 64)%nat).
  { subst n. pose proof (Nat.div_mod_eq len 64). lia. }
  rewrite Hrem. set (rem := (len mod 64)%nat).
  assert (Hr : (rem < 64)%nat) by (apply Nat.mod_upper_bound; lia).
  set (tail := drop (64 * n) data).
  assert (Ht : length tail = rem) by (subst tail; rewrite length_drop; fold len; lia).
  (* the buffer after the copy and the marker *)
  assert (Hbuf : <[rem := x80]>
                   (if (rem =? 0)%nat then replicate 64 x00
                    else memcpy (replicate 64 x00) tail rem)
                 = tail ++ x80 :: replicate (63 - rem) x00).
  { assert (Hc : (if (rem =? 0)%nat then replicate 64 x00
                  else memcpy (replicate 64 x00) tail rem)
                 = tail ++ replicate (64 - rem) x00).
    { destruct (Nat.eqb_spec rem 0) as [E|E].
      - destruct tail; [|simpl in Ht; lia]. rewrite E. reflexivity.
      - unfold memcpy. rewrite take_ge by lia. rewrite drop_replicate. reflexivity. }
    rewrite Hc, insert_app_r_alt by lia. rewrite Ht, Nat.sub_diag.
    replace (64 - rem)%nat with (S (63 - rem)) by lia. reflexivity. }
  rewrite Hbuf.
  assert (Hlen : length (tail ++ x80 :: replicate (63 - rem) x00) = 64%nat).
  { rewrite length_app. cbn [length]. rewrite length_replicate. lia. }
  replace (map (fun j => take 64 (drop (0 + 64 * j) data)) (seq 0 n))
    with (map (fun j => take 64 (drop (64 * j) data)) (seq 0 n)) by reflexivity.
  destruct (Nat.leb_spec 56 rem) as [Hc|Hc].
  - rewrite restore_words_id. unfold record_block.
    rewrite append_length_spec by apply length_replicate.
    rewrite <- !app_assoc. cbn [app]. rewrite !drop_0.
    rewrite take_ge by lia.
    rewrite (take_ge _ 64) by (rewrite length_app, length_take, length_replicate; simpl; lia).
    rewrite take_replicate, (Z.mul_comm (Z.of_nat len)). reflexivity.
  - unfold record_block. rewrite append_length_spec by exact Hlen.
    rewrite drop_0.
    rewrite (take_ge _ 64) by (rewrite length_app, length_take, Hlen; simpl; lia).
    assert (Hk : take 56 (tail ++ x80 :: replicate (63 - rem) x00)
                 = tail ++ x80 :: replicate (55 - rem) x00).
    { rewrite take_app_ge by lia. rewrite Ht.
      replace (56 - rem)%nat with (S (55 - rem)) by lia. cbn [take].
      rewrite take_replicate. do 3 f_equal. lia. }
    rewrite Hk, (Z.mul_comm (Z.of_nat len)), <- app_assoc. reflexivity.
Qed.

Lemma zero_count_spec len :
  Reference.zero_count len
  = if (56 <=? len mod 64)%nat then (119 - len mod 64)%nat else (55 - len mod 64)%nat.
Proof.
  unfold Reference.zero_count.
  pose proof (Nat.div_mod_eq len 64) as Hd.
  pose proof (Nat.mod_upper_bound len 64 ltac:(lia)) as Hu.
  set (r := (len mod 64)%nat) in *. set (q := (len / 64)%nat) in *.
  destruct (Nat.leb_spec 56 r).
  - replace ((55 - Z.of_nat len) mod 64) with (Z.of_nat (119 - r)); [lia|].
    apply (Z.mod_unique_pos _ _ (- Z.of_nat q - 1)); lia.
  - replace ((55 - Z.of_nat len) mod 64) with (Z.of_nat (55 - r)); [lia|].
    apply (Z.mod_unique_pos _ _ (- Z.of_nat q)); lia.
Qed.

Lemma final_blocks_concat data :
  concat (final_blocks data)
  = drop (64 * (length data / 64)) data
    ++ [x80] ++ replicate (Reference.zero_count (length data)) x00
    ++ Reference.be64 (8 * Z.of_nat (length data)).
Proof.
  rewrite zero_count_spec. unfold final_blocks.
  pose proof (Nat.mod_upper_bound (length data) 64 ltac:(lia)) as Hu.
  destruct (Nat.leb_spec 56 (length data mod 64)); cbn [concat app].
  - rewrite app_nil_r, <- app_assoc. cbn [app]. do 2 f_equal.
    rewrite app_assoc, <- replicate_add. do 2 f_equal. lia.
  - rewrite app_nil_r. reflexivity.
Qed.

Lemma sha256_blocks_concat data : concat (sha256_blocks data) = Reference.pad data.
Proof.
  rewrite sha256_blocks_spec, concat_app, concat_full_blocks
    by (pose proof (Nat.div_mod_eq (length data) 64); lia).
  rewrite final_blocks_concat, app_assoc, take_drop. reflexivity.
Qed.

Lemma be64_length x : length (Reference.be64 x) = 8%nat.
Proof. reflexivity. Qed.

Lemma sha256_blocks_length64 data : Forall (fun b => length b = 64%nat) (sha256_blocks data).
Proof.
  rewrite sha256_blocks_spec. apply Forall_app. split.
  - apply Forall_forall. intros b Hb. apply list_elem_of_In, in_map_iff in Hb as (j & <- & Hj).
    apply in_seq in Hj. rewrite length_take, length_drop.
    pose proof (Nat.div_mod_eq (length data) 64).
    assert (64 * S j <= 64 * (length data / 64))%nat by (apply Nat.mul_le_mono_l; lia). lia.
  - unfold final_blocks.
    pose proof (Nat.div_mod_eq (length data) 64).
    assert (Ht : length (drop (64 * (length data / 64)) data) = (length data mod 64)%nat)
      by (rewrite length_drop; lia).
    pose proof (Nat.mod_upper_bound (length data) 64 ltac:(lia)) as Hu.
    destruct (Nat.leb_spec 56 (length data mod 64)); repeat constructor;
      rewrite ?length_app; cbn [length]; rewrite ?length_app, ?length_replicate, ?be64_length, ?Ht; lia.
Qed.

Lemma sha256_blocks_count data :
  length (sha256_blocks data)
  = (length data / 64 + if (length data mod 64 <? 56)%nat then 1 else 2)%nat.
Proof.
  rewrite sha256_blocks_spec, length_app, length_map, length_seq. f_equal.
  unfold final_blocks. rewrite Nat.leb_antisym.
  destruct (length data mod 64 <? 56)%nat; reflexivity.
Qed.

Lemma blocks_concat (bs : list (list byte)) :
  Forall (fun b => length b = 64%nat) bs -> Reference.blocks (concat bs) = bs.
Proof.
  unfold Reference.blocks. intros H.
  assert (Hl : length (concat bs) = (length bs * 64)%nat).
  { induction H as [|b bs Hb _ IH]; [reflexivity|].
    cbn [concat length]. rewrite length_app, IH, Hb. lia. }
  rewrite Hl, Nat.div_mul by lia. clear Hl.
  induction H as [|b bs Hb _ IH]; [reflexivity|].
  cbn [length replicate concat reshape].
  rewrite take_app_length', drop_app_length', IH by (symmetry; exact Hb). reflexivity.
Qed.

Lemma nth_window (p : list byte) o j : (j < 64)%nat ->
  nth j (take 64 (drop o p)) x00 = nth (o + j) p x00.
Proof.
  intros Hj. rewrite nth_firstn, nth_skipn.
  destruct (Nat.ltb_spec j 64); [reflexivity|lia].
Qed.

Lemma schedule_local p o : schedule p o = schedule (take 64 (drop o p)) 0.
Proof.
  unfold schedule. f_equal. apply map_ext_in. intros i Hi. apply in_seq in Hi.
  unfold load_be32. rewrite !nth_window by lia.
  rewrite !Nat.add_0_l, !Nat.add_assoc. reflexivity.
Qed.

Lemma process_block_local h p o :
  process_block h p o = process_block h (take 64 (drop o p)) 0.
Proof. unfold process_block. rewrite schedule_local. reflexivity. Qed.

Lemma sha256_chain data :
  sha256 data
  = fold_left (fun h block => process_block h block 0)
              (Reference.blocks (Reference.pad data)) h_init.
Proof.
  unfold sha256.
  rewrite (sha256_with_sim process_block (fun h b => process_block h b 0) process_block_local).
  rewrite <- sha256_blocks_concat, blocks_concat by apply sha256_blocks_length64.
  reflexivity.
Qed.

(** *** The code against the standard *)

Lemma K_eq : Fips.K = Crypto.k.
Proof. vm_compute. reflexivity. Qed.

Lemma H0_eq : Fips.H0 = Crypto.h_init.
Proof. vm_compute. reflexivity. Qed.

Lemma icbrt_from_spec : forall i n r,
  0 <= r -> r ^ 3 <= n < (r + 2 ^ Z.of_nat i) ^ 3 ->
  (Fips.icbrt_from i n r) ^ 3 <= n < (Fips.icbrt_from i n r + 1) ^ 3.
Proof.
  induction i as [|i IH]; intros n r Hr H.
  - exact H.
  - cbn [Fips.icbrt_from].
    assert (E : 2 ^ Z.of_nat (S i) = 2 ^ Z.of_nat i + 2 ^ Z.of_nat i).
    { rewrite Nat2Z.inj_succ, Z.pow_succ_r by lia. lia. }
    rewrite E in H.
    assert (0 < 2 ^ Z.of_nat i) by (apply Z.pow_pos_nonneg; lia).
    destruct (Z.leb_spec ((r + 2 ^ Z.of_nat i) ^ 3) n).
    + apply IH; [lia|]. rewrite <- Z.add_assoc. lia.
    + apply IH; [lia|]. lia.
Qed.

Lemma icbrt_spec n : 0 <= n < 2 ^ 120 ->
  (Fips.icbrt n) ^ 3 <= n < (Fips.icbrt n + 1) ^ 3.
Proof.
  intros H. unfold Fips.icbrt.
  assert (E : (0 + 2 ^ Z.of_nat 40) ^ 3 = 2 ^ 120) by (vm_compute; reflexivity).
  apply (icbrt_from_spec 40 n 0); [lia|].
  rewrite E. change (0 ^ 3) with 0. lia.
Qed.

Lemma u32_word x : word (u32 x).
Proof. unfold word, u32. apply Z.mod_pos_bound. lia. Qed.

Lemma ROTR_rotr x n : word x -> 0 < n < 32 -> ROTR x n = Fips.rotr n x.
Proof.
  intros Hx Hn. unfold ROTR, Fips.rotr, word in *.
  assert (Hp : 2 ^ 32 = 2 ^ n * 2 ^ (32 - n)).
  { rewrite <- Z.pow_add_r by lia. f_equal. lia. }
  assert (0 < 2 ^ n) by (apply Z.pow_pos_nonneg; lia).
  assert (0 < 2 ^ (32 - n)) by (apply Z.pow_pos_nonneg; lia).
  rewrite Z.shiftr_div_pow2, Z.shiftl_mul_pow2 by lia.
  unfold u32. rewrite Hp, Zmult_mod_distr_r.
  rewrite Z.lor_comm, <- Z.shiftl_mul_pow2 by lia.
  rewrite lor_shiftl_add; [rewrite Z.shiftl_mul_pow2 by lia; lia|lia|].
  split; [apply Z.div_pos; lia|].
  apply Z.div_lt_upper_bound; lia.
Qed.

Lemma not32_compl x : word x -> not32 x = Fips.compl x.
Proof.
  unfold word, not32, Fips.compl, u32, Z.lnot. intros H.
  symmetry. apply (Z.mod_unique_pos _ _ (-1)); lia.
Qed.

Lemma BSIG0_eq x : word x -> BSIG0 x = Fips.Sigma0 x.
Proof. intros H. unfold BSIG0, Fips.Sigma0. rewrite !ROTR_rotr by (assumption || lia). reflexivity. Qed.

Lemma BSIG1_eq x : word x -> BSIG1 x = Fips.Sigma1 x.
Proof. intros H. unfold BSIG1, Fips.Sigma1. rewrite !ROTR_rotr by (assumption || lia). reflexivity. Qed.

Lemma SSIG0_eq x : word x -> SSIG0 x = Fips.sigma0 x.
Proof.
  intros H. unfold SSIG0, Fips.sigma0, SHR, Fips.shr. rewrite !ROTR_rotr by (assumption || lia).
  rewrite Z.shiftr_div_pow2 by lia. reflexivity.
Qed.

Lemma SSIG1_eq x : word x -> SSIG1 x = Fips.sigma1 x.
Proof.
  intros H. unfold SSIG1, Fips.sigma1, SHR, Fips.shr. rewrite !ROTR_rotr by (assumption || lia).
  rewrite Z.shiftr_div_pow2 by lia. reflexivity.
Qed.

Lemma CH_eq x y z : word x -> CH x y z = Fips.Ch x y z.
Proof. intros H. unfold CH, Fips.Ch. rewrite not32_compl by assumption. reflexivity. Qed.

Lemma nth_word (l : list Z) i : Forall word l -> word (nth i l 0).
Proof.
  intros H. destruct (Nat.lt_ge_cases i (length l)) as [Hi|Hi].
  - apply Forall_nth; assumption.
  - rewrite nth_overflow by lia. unfold word. lia.
Qed.

Lemma add32_sum3 a b c : Fips.add32 (Fips.add32 a b) c = u32 (a + b + c).
Proof. unfold Fips.add32, u32. apply Zplus_mod_idemp_l. Qed.

Lemma add32_u32 a b : Fips.add32 (u32 a) b = u32 (a + b).
Proof. unfold Fips.add32, u32. apply Zplus_mod_idemp_l. Qed.

Lemma add32_sum4 a b c d : Fips.add32 (Fips.add32 (Fips.add32 a b) c) d = u32 (a + b + c + d).
Proof. rewrite (add32_sum3 a b c). apply add32_u32. Qed.

Lemma add32_sum5 a b c d e :
  Fips.add32 (Fips.add32 (Fips.add32 (Fips.add32 a b) c) d) e = u32 (a + b + c + d + e).
Proof. rewrite (add32_sum4 a b c d). apply add32_u32. Qed.

Lemma expand_next_W W t : Forall word W -> expand W t = Fips.next_W W t.
Proof.
  intros H. unfold expand, Fips.next_W.
  rewrite add32_sum4, SSIG1_eq, SSIG0_eq by (apply nth_word, H). reflexivity.
Qed.

Lemma expand_word W t : Forall word W -> Forall word (expand W t).
Proof.
  intros H. unfold expand. apply Forall_app. split; [exact H|].
  repeat constructor; apply u32_word.
Qed.

Lemma schedule_fold l : forall W, Forall word W ->
  fold_left expand l W = fold_left Fips.next_W l W /\ Forall word (fold_left expand l W).
Proof.
  induction l as [|t l IH]; intros W H; cbn [fold_left]; [done|].
  rewrite <- expand_next_W by exact H. apply IH, expand_word, H.
Qed.

Lemma be_words_load : forall k (b : list byte), length b = (4 * k)%nat ->
  Fips.be_words b = map (fun i => load_be32 b (0 + 4 * i)) (seq 0 k).
Proof.
  intros k. induction k as [|k IH]; intros b Hb.
  - destruct b; [reflexivity|simpl in Hb; lia].
  - destruct b as [|b0 [|b1 [|b2 [|b3 b']]]]; try (simpl in Hb; lia).
    cbn [Fips.be_words]. rewrite <- cons_seq, <- seq_shift. cbn [map]. rewrite map_map.
    f_equal.
    + rewrite load_be32_arith. cbn [nth Nat.add Nat.mul]. lia.
    + rewrite IH by (simpl in Hb; lia). apply map_ext. intros i.
      rewrite !load_be32_arith.
      replace (0 + 4 * S i)%nat with (S (S (S (S (0 + 4 * i))))) by lia.
      reflexivity.
Qed.

Lemma schedule_eq (block : list byte) : length block = 64%nat ->
  schedule block 0 = Fips.message_schedule (Fips.be_words block).
Proof.
  intros H. unfold schedule, Fips.message_schedule.
  rewrite (be_words_load 16) by exact H.
  apply schedule_fold. apply Forall_forall. intros x Hx.
  apply list_elem_of_In, in_map_iff in Hx as (i & <- & _). apply u32_word.
Qed.

Lemma round_step W v t : words8 v -> round W v t = Fips.step W v t /\ words8 (round W v t).
Proof.
  destruct v as [[[[[[[a b] c] d] e] f] g] h].
  intros (Ha & Hb & Hc & Hd & He & Hf & Hg & Hh).
  unfold round, Fips.step.
  rewrite BSIG1_eq, CH_eq, BSIG0_eq, K_eq by assumption.
  rewrite <- (add32_sum5 h (Fips.Sigma1 e) (Fips.Ch e f g) (nth t k 0) (nth t W 0)).
  split; [reflexivity|]. cbn [words8].
  repeat match goal with |- _ /\ _ => split end;
    first [assumption | apply u32_word].
Qed.

Lemma rounds_fold W l : forall v, words8 v ->
  fold_left (round W) l v = fold_left (Fips.step W) l v.
Proof.
  induction l as [|t l IH]; intros v H; cbn [fold_left]; [done|].
  destruct (round_step W v t H) as [E Hw]. rewrite <- E. apply IH, Hw.
Qed.

Lemma process_block_compress h block :
  Forall word h -> length block = 64%nat ->
  process_block h block 0 = Fips.compress h (Fips.be_words block).
Proof.
  intros Hh Hb. unfold process_block, Fips.compress.
  rewrite <- (schedule_eq block Hb).
  rewrite rounds_fold by (cbn [words8]; repeat split; apply nth_word, Hh).
  destruct (fold_left _ _ _) as [[[[[[[a b] c] d] e] f] g] h'].
  unfold Fips.add32, u32. rewrite !(Z.add_comm (nth _ h 0)). reflexivity.
Qed.

Lemma process_block_word h p o : Forall word (process_block h p o).
Proof.
  unfold process_block.
  destruct (fold_left _ _ _) as [[[[[[[a b] c] d] e] f] g] h'].
  repeat constructor; apply u32_word.
Qed.

Lemma fold_left_agree {A B} (f g : A -> B -> A) (P : A -> Prop) (Q : B -> Prop) :
  (forall a b, P a -> Q b -> f a b = g a b) ->
  (forall a b, P (f a b)) ->
  forall l a, Forall Q l -> P a -> fold_left f l a = fold_left g l a.
Proof.
  intros Hfg Hf l. induction l as [|b l IH]; intros a Hl Ha; [reflexivity|].
  apply Forall_cons in Hl as [Hb Hl]. cbn [fold_left].
  rewrite <- (Hfg a b Ha Hb). apply (IH (f a b) Hl (Hf a b)).
Qed.

Lemma iterate_blocks_eq (bs : list (list byte)) h :
  Forall (fun b => length b = 64%nat) bs -> Forall word h ->
  fold_left (fun h block => process_block h block 0) bs h
  = fold_left (fun H block => Fips.compress H (Fips.be_words block)) bs h.
Proof.
  apply (fold_left_agree (fun h block => process_block h block 0)
           (fun H block => Fips.compress H (Fips.be_words block))
           (Forall word) (fun b => length b = 64%nat)).
  - intros a b Ha Hb. apply (process_block_compress a b Ha Hb).
  - intros a b. apply (process_block_word a b 0).
Qed.

Lemma h_init_word : Forall word h_init.
Proof. unfold word. repeat constructor; cbv; congruence. Qed.

Theorem sha256_fips data : sha256 data = Fips.SHA256 data.
Proof.
  rewrite sha256_chain. unfold Fips.SHA256.
  rewrite H0_eq. apply iterate_blocks_eq; [|apply h_init_word].
  rewrite <- sha256_blocks_concat, blocks_concat by apply sha256_blocks_length64.
  apply sha256_blocks_length64.
Qed.

Lemma fputc_at_end c o : at_end o ->
  fputc c o = {| out_data := out_data o ++ [c]; out_pos := S (length (out_data o)) |}.
Proof.
  unfold at_end, fputc. intros ->. rewrite Nat.ltb_irrefl, Nat.sub_diag. reflexivity.
Qed.

Lemma fputc_at_end_data c o : at_end o -> out_data (fputc c o) = out_data o ++ [c].
Proof. intros H. by rewrite fputc_at_end. Qed.

Lemma fputc_at_end_keep c o : at_end o -> at_end (fputc c o).
Proof. intros H. rewrite fputc_at_end by done. unfold at_end. simpl. rewrite length_app. simpl. lia. Qed.

Lemma fputc_list_at_end (l : list byte) : forall o, at_end o ->
  fold_left (fun s c => fputc c s) l o
  = {| out_data := out_data o ++ l; out_pos := length (out_data o ++ l) |}.
Proof.
  induction l as [|c l IH]; intros o H.
  - cbn [fold_left]. rewrite app_nil_r. destruct o; unfold at_end in H; simpl in *. by subst.
  - cbn [fold_left]. rewrite IH by by apply fputc_at_end_keep.
    rewrite fputc_at_end_data by done. by rewrite <- app_assoc.
Qed.

Lemma buffer_word_spec buffer :
  buffer_word buffer
  = Reference.le_word (nth 0 buffer x00) (nth 1 buffer x00) (nth 2 buffer x00) (nth 3 buffer x00).
Proof.
  unfold buffer_word, Reference.le_word.
  pose proof (uchar_range (nth 0 buffer x00)). pose proof (uchar_range (nth 1 buffer x00)).
  pose proof (uchar_range (nth 2 buffer x00)). pose proof (uchar_range (nth 3 buffer x00)).
  rewrite Z.shiftl_0_r.
  rewrite !Z.shiftl_mul_pow2 by lia. unfold u32.
  rewrite !Z.mod_small by lia.
  rewrite <- !Z.shiftl_mul_pow2 by lia.
  rewrite (Z.lor_comm _ (Z.shiftl _ 8)), lor_shiftl_add by lia.
  rewrite (Z.lor_comm _ (Z.shiftl _ 16)), lor_shiftl_add by lia.
  rewrite (Z.lor_comm _ (Z.shiftl _ 24)), lor_shiftl_add by lia.
  lia.
Qed.

Lemma fputc_word_spec x o : at_end o ->
  fputc_word x o = {| out_data := out_data o ++ Reference.le32 x;
                      out_pos := length (out_data o ++ Reference.le32 x) |}.
Proof.
  intros H. unfold fputc_word. rewrite !byte_of_shift by lia.
  change (fputc ?a3 (fputc ?a2 (fputc ?a1 (fputc ?a0 o))))
    with (fold_left (fun s c => fputc c s) [a0; a1; a2; a3] o).
  rewrite fputc_list_at_end by done. reflexivity.
Qed.



Lemma u32_add_l a b : u32 (u32 a + b) = u32 (a + b).
Proof. unfold u32. apply Zplus_mod_idemp_l. Qed.

(** One iteration on a non-empty remaining input. *)
Lemma app_bin_loop_step fuel buffer cks size data pos od got :
  got = take 4 (drop pos data) -> got <> [] ->
  let buffer' := memcpy buffer got (length got) in
  app_bin_loop (S fuel) (ab buffer cks size data pos od)
  = app_bin_loop fuel
      (ab buffer' (u32 (cks + Reference.sum (Reference.words (window buffer'))))
          (u32 (size + 4)) data (pos + length got) (od ++ window buffer')).
Proof.
  intros Hgot Hne buffer'. unfold ab at 1. cbn [app_bin_loop].
  unfold fread_buffer, fread. cbn [ab_buffer ab_input in_data in_pos].
  rewrite <- Hgot. fold buffer'.
  destruct (Nat.eqb_spec (length got) 0) as [E|_].
  { destruct got; [done|discriminate]. }
  cbn [ab_checksum ab_size ab_output].
  change (fputc ?a3 (fputc ?a2 (fputc ?a1 (fputc ?a0 ?o))))
    with (fold_left (fun s c => fputc c s) [a0; a1; a2; a3] o).
  rewrite fputc_list_at_end by reflexivity. cbn [out_data].
  rewrite buffer_word_spec. unfold ab, window. cbn [Reference.words Reference.sum fold_right].
  rewrite Z.add_0_r. reflexivity.
Qed.

(** The loop stops when nothing is left. *)
Lemma app_bin_loop_stop fuel buffer cks size data pos od :
  drop pos data = [] ->
  app_bin_loop (S fuel) (ab buffer cks size data pos od) = ab buffer cks size data pos od.
Proof.
  intros H. unfold ab. cbn [app_bin_loop]. unfold fread_buffer, fread.
  cbn [ab_buffer ab_input in_data in_pos]. rewrite H. cbn [take length memcpy Nat.eqb].
  unfold memcpy. cbn [take drop app]. rewrite Nat.add_0_r. reflexivity.
Qed.

Lemma window_full g buffer : length g = 4%nat -> window (memcpy buffer g (length g)) = g.
Proof.
  intros H. destruct g as [|b0 [|b1 [|b2 [|b3 [|]]]]]; try discriminate. reflexivity.
Qed.

(** The iterations over complete groups. *)
Lemma app_bin_loop_groups : forall k b rest fuel buffer cks size data pos od,
  length b = (4 * k)%nat -> drop pos data = b ++ rest ->
  u32 cks = cks -> u32 size = size ->
  exists buffer',
    app_bin_loop (k + fuel) (ab buffer cks size data pos od)
    = app_bin_loop fuel
        (ab buffer' (u32 (cks + Reference.sum (Reference.words b)))
            (u32 (size + Z.of_nat (length b))) data (pos + length b) (od ++ b))
    /\ (k = 0%nat -> buffer' = buffer)
    /\ ((0 < k)%nat -> window buffer' = drop (length b - 4) b).
Proof.
  intros k. induction k as [|k IH]; intros b rest fuel buffer cks size data pos od Hb Hd Hc Hs.
  - destruct b; [|simpl in Hb; lia]. exists buffer.
    cbn [Reference.words Reference.sum fold_right length Z.of_nat].
    rewrite !Z.add_0_r, Hc, Hs, Nat.add_0_r, app_nil_r. split; [reflexivity|]. split; [done|lia].
  - destruct b as [|b0 [|b1 [|b2 [|b3 b']]]]; try (simpl in Hb; lia).
    assert (Hb' : length b' = (4 * k)%nat) by (simpl in Hb; lia).
    set (g := [b0; b1; b2; b3]).
    assert (Hgot : g = take 4 (drop pos data)) by (rewrite Hd; reflexivity).
    cbn [Nat.add]. rewrite (app_bin_loop_step _ _ _ _ _ _ _ g Hgot) by done.
    rewrite (window_full g) by reflexivity.
    destruct (IH b' rest fuel (memcpy buffer g (length g))
                (u32 (cks + Reference.sum (Reference.words g))) (u32 (size + 4))
                data (pos + length g)%nat (od ++ g)) as (buffer' & E & Hz & Hw).
    + exact Hb'.
    + rewrite <- drop_drop, Hd. reflexivity.
    + unfold u32. apply Z.mod_mod. lia.
    + unfold u32. apply Z.mod_mod. lia.
    + exists buffer'. split; [|split; [lia|]].
      * rewrite E. f_equal. unfold ab. f_equal.
        -- rewrite u32_add_l. f_equal.
           change (Reference.words (b0 :: b1 :: b2 :: b3 :: b'))
             with (Reference.le_word b0 b1 b2 b3 :: Reference.words b').
           subst g. unfold Reference.sum. cbn [Reference.words fold_right]. lia.
        -- rewrite u32_add_l. f_equal. subst g. cbn [length]. lia.
        -- f_equal. subst g. cbn [length]. lia.
        -- rewrite <- app_assoc. reflexivity.
      * intros _. destruct k as [|k].
        -- destruct b'; [|simpl in Hb'; lia]. rewrite Hz by reflexivity.
           apply window_full. reflexivity.
        -- rewrite Hw by lia. cbn [length]. 
           replace (S (S (S (S (length b')))) - 4)%nat with (length b') by lia.
           change (b0 :: b1 :: b2 :: b3 :: b') with (g ++ b').
           rewrite drop_app_ge by (subst g; simpl; lia).
           reflexivity.
Qed.

Lemma window_partial tail buffer : (length tail <= 4)%nat ->
  window (memcpy buffer tail (length tail)) = tail ++ drop (length tail) (window buffer).
Proof.
  intros H. unfold memcpy. rewrite take_ge by lia.
  destruct tail as [|t0 [|t1 [|t2 [|t3 [|]]]]]; try (simpl in H; lia);
    unfold window; cbn [length app nth]; rewrite ?nth_skipn; reflexivity.
Qed.


Lemma app_bin_payload_length buffer b :
  Z.of_nat (length (app_bin_payload buffer b)) = 4 * ((Z.of_nat (length b) + 3) / 4).
Proof.
  unfold app_bin_payload, previous_group.
  pose proof (Nat.div_mod_eq (length b) 4) as Hd.
  pose proof (Nat.mod_upper_bound (length b) 4 ltac:(lia)) as Hu.
  set (r := (length b mod 4)%nat) in *. set (q := (length b / 4)%nat) in *.
  destruct (Nat.eqb_spec r 0) as [E|E].
  - Z.div_mod_to_equations. lia.
  - rewrite length_app, length_drop.
    assert (Hl : length (if (q =? 0)%nat then window buffer
                         else take 4 (drop (4 * (q - 1)) b)) = 4%nat).
    { destruct (Nat.eqb_spec q 0); [reflexivity|].
      rewrite length_take, length_drop. lia. }
    rewrite Hl. Z.div_mod_to_equations. lia.
Qed.

Lemma words_app : forall k a c, length a = (4 * k)%nat ->
  Reference.words (a ++ c) = Reference.words a ++ Reference.words c.
Proof.
  intros k. induction k as [|k IH]; intros a c Ha.
  - destruct a; [reflexivity|simpl in Ha; lia].
  - destruct a as [|a0 [|a1 [|a2 [|a3 a']]]]; try (simpl in Ha; lia).
    cbn [app Reference.words]. rewrite IH by (simpl in Ha; lia). reflexivity.
Qed.

Lemma sum_app a c : Reference.sum (a ++ c) = Reference.sum a + Reference.sum c.
Proof.
  unfold Reference.sum. induction a as [|x a IH]; cbn [app fold_right]; lia.
Qed.

Lemma app_bin_loop_spec buffer b od :
  exists buffer',
    app_bin_loop (S (length b)) (ab buffer 0 0 b 0 od)
    = ab buffer' (u32 (Reference.sum (Reference.words (app_bin_payload buffer b))))
         (u32 (Z.of_nat (length (app_bin_payload buffer b)))) b (length b)
         (od ++ app_bin_payload buffer b)
    /\ ((length b mod 4)%nat <> 0%nat ->
        window buffer' = drop (4 * (length b / 4)) b
                         ++ drop (length b mod 4) (previous_group buffer b)).
Proof.
  pose proof (Nat.div_mod_eq (length b) 4) as Hd.
  pose proof (Nat.mod_upper_bound (length b) 4 ltac:(lia)) as Hu.
  unfold app_bin_payload, previous_group.
  set (r := (length b mod 4)%nat) in *. set (q := (length b / 4)%nat) in *.
  set (full := take (4 * q) b). set (tail := drop (4 * q) b).
  assert (Hfull : length full = (4 * q)%nat) by (subst full; rewrite length_take; lia).
  assert (Htail : length tail = r) by (subst tail; rewrite length_drop; lia).
  destruct (app_bin_loop_groups q full tail (S (length b) - q) buffer 0 0 b 0 od)
    as (buffer' & E & Hz & Hw); [done|by rewrite drop_0; subst full tail; rewrite take_drop|done|done|].
  replace (q + (S (length b) - q))%nat with (S (length b)) in E by lia.
  rewrite E, !Z.add_0_l, Nat.add_0_l, Hfull. clear E.
  destruct (Nat.eqb_spec r 0) as [Hr|Hr].
  - (* no partial group *)
    assert (tail = []) as Ht by (destruct tail; [done|simpl in Htail; lia]).
    assert (full = b) as -> by (subst full tail; rewrite <- (take_drop (4 * q) b) at 2; rewrite Ht; by rewrite app_nil_r).
    exists buffer'. split; [|done].
    replace (S (length b) - q)%nat with (S (length b - q)) by lia.
    rewrite app_bin_loop_stop; [|subst tail; exact Ht].
    rewrite <- Hfull. reflexivity.
  - (* one more iteration on the partial group *)
    replace (S (length b) - q)%nat with (S (S (length b - q - 1))) by lia.
    assert (Hgot : tail = take 4 (drop (4 * q) b)) by (subst tail; rewrite take_ge; [done|rewrite length_drop; lia]).
    rewrite (app_bin_loop_step _ _ _ _ _ _ _ tail Hgot) by (destruct tail; [simpl in Htail; lia|done]).
    rewrite app_bin_loop_stop by (rewrite Htail; apply drop_ge; lia).
    exists (memcpy buffer' tail (length tail)).
    rewrite window_partial by lia. rewrite Htail.
    assert (Hwin : window buffer' = if (q =? 0)%nat then window buffer
                                    else take 4 (drop (4 * (q - 1)) b)).
    { destruct (Nat.eqb_spec q 0) as [Hq|Hq]; [by rewrite Hz|].
      rewrite Hw by lia. rewrite Hfull. subst full.
      rewrite take_drop_commute. do 2 f_equal; lia. }
    rewrite Hwin. set (W := if (q =? 0)%nat then _ else _).
    split; [|reflexivity].
    assert (Hpay : b ++ drop r W = full ++ tail ++ drop r W).
    { rewrite app_assoc. f_equal. subst full tail. symmetry. apply take_drop. }
    rewrite Hpay. unfold ab. f_equal.
    + rewrite u32_add_l, (words_app q full) by exact Hfull. rewrite sum_app. reflexivity.
    + rewrite u32_add_l. f_equal.
      assert (length W = 4%nat).
      { subst W. destruct (Nat.eqb_spec q 0); [reflexivity|].
        rewrite length_take, length_drop. lia. }
      rewrite !length_app, length_drop, Hfull. lia.
    + f_equal. lia.
    + by rewrite <- !app_assoc.
Qed.

Lemma header_overwrite (c0 c1 c2 c3 c4 c5 c6 c7 c8 c9 c10 c11 : byte) (P : list byte) :
  fold_left (fun s c => fputc c s) [c0; c1; c2; c3; c4; c5; c6; c7; c8; c9; c10; c11]
    {| out_data := replicate 12 x00 ++ P; out_pos := 0 |}
  = {| out_data := [c0; c1; c2; c3; c4; c5; c6; c7; c8; c9; c10; c11] ++ P; out_pos := 12 |}.
Proof. reflexivity. Qed.

Lemma fputc_word_fold x o :
  fputc_word x o = fold_left (fun s c => fputc c s) (Reference.le32 x) o.
Proof. unfold fputc_word. rewrite !byte_of_shift by lia. reflexivity. Qed.

Lemma app_bin_spec buffer b :
  let s := app_bin buffer (opened b) created in
  let P := app_bin_payload buffer b in
  ab_checksum s = u32 (not32 (u32 (Reference.sum (Reference.words P))) + 1)
  /\ ab_size s = u32 (Z.of_nat (length P))
  /\ out_data (ab_output s)
     = Reference.le32 signature ++ Reference.le32 (ab_size s)
       ++ Reference.le32 (ab_checksum s) ++ P
  /\ ((length b mod 4)%nat <> 0%nat ->
      window (ab_buffer s) = drop (4 * (length b / 4)) b
                             ++ drop (length b mod 4) (previous_group buffer b)).
Proof.
  intros s P. subst s. unfold app_bin, opened, created.
  change (fold_left (fun o _ => fputc x00 o) (seq 0 12) {| out_data := []; out_pos := 0 |})
    with {| out_data := replicate 12 x00; out_pos := length (replicate 12 x00) |}.
  change (rewind_in {| in_data := b; in_pos := 0 |}) with {| in_data := b; in_pos := 0 |}.
  cbn [in_data].
  destruct (app_bin_loop_spec buffer b (replicate 12 x00)) as (buffer' & E & Hw).
  unfold ab in E at 1. rewrite E. clear E. fold P.
  cbn [ab ab_checksum ab_size ab_output ab_buffer ab_input rewind_out out_data].
  split; [reflexivity|]. split; [reflexivity|]. split; [|exact Hw].
  rewrite !fputc_word_fold, <- !fold_left_app.
  apply (f_equal out_data (header_overwrite _ _ _ _ _ _ _ _ _ _ _ _ P)).
Qed.
Lemma le_or_spec b0 b1 b2 b3 :
  Z.lor (Z.lor (Z.lor (Z.lor 0 (u32 (Z.shiftl (uchar b0) 0))) (u32 (Z.shiftl (uchar b1) 8)))
               (u32 (Z.shiftl (uchar b2) 16)))
        (u32 (Z.shiftl (uchar b3) 24))
  = Reference.le_word b0 b1 b2 b3.
Proof.
  rewrite Z.lor_0_l.
  exact (buffer_word_spec [b0; b1; b2; b3]).
Qed.

(** Decides the bound tests [k + j <? length signature] of the inner loop
    from the facts at hand. *)
Ltac decide_bounds :=
  repeat match goal with
    | |- context [(?a <? ?n)%nat] =>
        first [ replace (a <? n)%nat with true by (symmetry; apply Nat.ltb_lt; lia)
              | replace (a <? n)%nat with false by (symmetry; apply Nat.ltb_ge; lia) ]
    end.

(** Brings a partial word to the form of a complete one: the shifts of
    the missing bytes are 0. *)
Ltac complete_word b0 b1 b2 b3 :=
  cbn -[Z.lor Z.shiftl u32 uchar Z.mul Z.of_nat]; rewrite <- (le_or_spec b0 b1 b2 b3);
  change (8 * Z.of_nat 0) with 0; change (8 * Z.of_nat 1) with 8;
  change (8 * Z.of_nat 2) with 16; change (8 * Z.of_nat 3) with 24;
  change (u32 (Z.shiftl (uchar x00) 8)) with 0;
  change (u32 (Z.shiftl (uchar x00) 16)) with 0;
  change (u32 (Z.shiftl (uchar x00) 24)) with 0;
  rewrite ?Z.lor_0_r; reflexivity.

Lemma sig_word_loop_spec signature k :
  (k < length signature)%nat ->
  [sig_word_loop signature (length signature) k 5 0 0]
  = Reference.words (take 4 (drop k signature ++ replicate 3 x00)).
Proof.
  intros Hk.
  assert (Hn : forall j, nth (k + j) signature x00 = nth j (drop k signature) x00)
    by (intros; by rewrite nth_skipn).
  assert (Hl : length (drop k signature) = (length signature - k)%nat) by apply length_drop.
  cbn [sig_word_loop]. rewrite !Hn.
  destruct (drop k signature) as [|b0 [|b1 [|b2 [|b3 rest]]]]; cbn [length] in Hl.
  - lia.
  - decide_bounds. complete_word b0 x00 x00 x00.
  - decide_bounds. complete_word b0 b1 x00 x00.
  - decide_bounds. complete_word b0 b1 b2 x00.
  - decide_bounds. complete_word b0 b1 b2 b3.
Qed.

(** ** Text output *)

Local Open Scope string_scope.
Local Open Scope list_scope.
Local Open Scope Z_scope.

Lemma list_byte_of_string_app s1 s2 :
  list_byte_of_string (s1 +:+ s2) = list_byte_of_string s1 ++ list_byte_of_string s2.
Proof.
  induction s1 as [|c s1 IH]; [reflexivity|].
  change (String c s1 +:+ s2) with (String c (s1 +:+ s2)).
  change (list_byte_of_string (String c (s1 +:+ s2)))
    with (byte_of_ascii c :: list_byte_of_string (s1 +:+ s2)).
  by rewrite IH.
Qed.

Lemma fputs_at_end str o : at_end o ->
  fputs str o = {| out_data := out_data o ++ list_byte_of_string str;
                   out_pos := length (out_data o ++ list_byte_of_string str) |}.
Proof. intros H. unfold fputs. by apply fputc_list_at_end. Qed.

Lemma put_at_end str s : at_end (output s) ->
  at_end (output (put str s))
  /\ out_data (output (put str s))
     = out_data (output s) ++ list_byte_of_string (snprintf 1024 str).
Proof.
  intros H. unfold put. cbn [output]. rewrite fputs_at_end by done. split; reflexivity.
Qed.

Lemma put_input str s : input (put str s) = input s.
Proof. reflexivity. Qed.

Lemma read_output n s : output (read n s).2 = output s.
Proof. unfold read. destruct (fread_buffer n (buffer s) (input s)) as [[? ?] ?]. reflexivity. Qed.

Lemma read_in_data n s : in_data (input (read n s).2) = in_data (input s).
Proof.
  unfold read, fread_buffer, fread. reflexivity.
Qed.


Lemma appends_refl s : at_end (output s) -> appends s s.
Proof. intros H. split; [done|]. split; [done|]. exists []. by rewrite app_nil_r. Qed.

Lemma appends_trans s1 s2 s3 : appends s1 s2 -> appends s2 s3 -> appends s1 s3.
Proof.
  intros (Hi1 & _ & t1 & H1) (Hi2 & He & t2 & H2).
  split; [congruence|]. split; [done|]. exists (t1 ++ t2). by rewrite H2, H1, app_assoc.
Qed.

Lemma appends_put str s : at_end (output s) -> appends s (put str s).
Proof.
  intros H. destruct (put_at_end str s H) as [He Hd].
  split; [reflexivity|]. split; [done|]. eauto.
Qed.

Lemma appends_print str s : at_end (output s) -> appends s (print str s).
Proof. intros H. unfold print. split; [done|]. split; [done|]. exists []. cbn. by rewrite app_nil_r. Qed.

Lemma appends_read n s : at_end (output s) -> appends s (read n s).2.
Proof.
  intros H. split; [apply read_in_data|]. rewrite read_output. split; [done|].
  exists []. by rewrite app_nil_r.
Qed.

Lemma vhd_image_loop_appends input_words : forall fuel i s,
  at_end (output s) -> appends s (vhd_image_loop fuel input_words i s).2.
Proof.
  induction fuel as [|fuel IH]; intros i s H; cbn [vhd_image_loop]; [by apply appends_refl|].
  destruct (i <? u32 (input_words - 1)); [|by apply appends_refl].
  pose proof (appends_read 4 s H) as Hr.
  destruct (read 4 s) as [n s1]. cbn [snd] in Hr.
  destruct (negb (n =? 0)%nat).
  - eapply appends_trans; [exact Hr|].
    eapply appends_trans; [apply appends_put, Hr|]. apply IH. apply appends_put, Hr.
  - cbn [snd]. eapply appends_trans; [exact Hr|]. apply appends_print, Hr.
Qed.

Lemma vhd_image_appends input_words s :
  at_end (output s) -> appends s (vhd_image input_words s).
Proof.
  intros H. unfold vhd_image.
  pose proof (vhd_image_loop_appends input_words (S (length (in_data (input s)))) 0 s H) as H1.
  destruct (vhd_image_loop _ _ _ _) as [i s1]. cbn [snd] in H1.
  pose proof (appends_read 4 s1 (proj1 (proj2 H1))) as H2.
  destruct (read 4 s1) as [n s2]. cbn [snd] in H2.
  eapply appends_trans; [exact H1|]. eapply appends_trans; [exact H2|].
  destruct (negb (n =? 0)%nat); [apply appends_put|apply appends_print]; apply H2.
Qed.

(** ** The [-bld_vhd] branch when the signer leaves a signature *)


Lemma snprintf_sig_line w : snprintf 1024 (sig_line w) = sig_line w.
Proof. reflexivity. Qed.

Lemma snprintf_size_line w : snprintf 1024 (size_line w) = size_line w.
Proof. reflexivity. Qed.

Lemma snprintf_closing1 : snprintf 1024 (");" +:+ nl) = ");" +:+ nl.
Proof. vm_compute. reflexivity. Qed.

Lemma snprintf_closing2 :
  snprintf 1024 (nl +:+ "end neorv32_bootloader_image;" +:+ nl)
  = nl +:+ "end neorv32_bootloader_image;" +:+ nl.
Proof. vm_compute. reflexivity. Qed.

Lemma text_bld_closing :
  text bld_closing
  = list_byte_of_string (");" +:+ nl)
    ++ list_byte_of_string (nl +:+ "end neorv32_bootloader_image;" +:+ nl).
Proof. vm_compute. reflexivity. Qed.

Lemma put_lines_short (lines : list string) :
  Forall (fun l => snprintf 1024 l = l) lines ->
  forall s, at_end (output s) ->
  at_end (output (fold_left (fun s line => put line s) lines s))
  /\ out_data (output (fold_left (fun s line => put line s) lines s))
     = out_data (output s) ++ text lines.
Proof.
  induction 1 as [|l lines Hl _ IH]; intros s H.
  - split; [done|]. unfold text. cbn. by rewrite app_nil_r.
  - cbn [fold_left]. destruct (put_at_end l s H) as [He Hd].
    destruct (IH _ He) as [He' Hd']. split; [done|].
    rewrite Hd', Hd, Hl. unfold text. cbn [map concat]. by rewrite app_assoc.
Qed.

Lemma secure_boot_lines_short signature n w :
  Forall (fun l => snprintf 1024 l = l) (secure_boot_lines signature n w).
Proof.
  unfold secure_boot_lines. apply Forall_app. split.
  - apply Forall_forall. intros l Hl. apply list_elem_of_In, in_map_iff in Hl as (x & <- & _).
    apply snprintf_sig_line.
  - repeat constructor.
Qed.

Lemma emit_secure_boot_info_spec signature n input_words s :
  at_end (output s) ->
  out_data (output (emit_secure_boot_info signature n input_words s))
  = out_data (output s) ++ text (secure_boot_lines signature n input_words)
    ++ text bld_closing.
Proof.
  intros He. unfold emit_secure_boot_info.
  destruct (put_lines_short _ (secure_boot_lines_short signature n input_words) s He)
    as [He6 Hd6].
  destruct (put_at_end (");" +:+ nl) _ He6) as [He7 Hd7].
  destruct (put_at_end (nl +:+ "end neorv32_bootloader_image;" +:+ nl) _ He7) as [He8 Hd8].
  rewrite Hd8, Hd7, Hd6, snprintf_closing1, snprintf_closing2, text_bld_closing.
  rewrite <- !app_assoc. reflexivity.
Qed.

Lemma sign_and_emit_signed (e : env) fs digest input_words (s : io) (sg : list byte) :
  at_end (output s) ->
  writable e "sha256.bin" = true ->
  (forall cmd fs0, (system e cmd fs0).2 !! SIGNATURE_FILE = Some sg) ->
  exists fs' s',
    sign_and_emit e fs digest input_words s = (Continue, fs', s')
    /\ fs' !! "sha256.bin" = None
    /\ fs' !! SIGNATURE_FILE = None
    /\ out_data (output s')
       = out_data (output s)
         ++ text (secure_boot_lines (take 256 sg) (length (take 256 sg)) input_words)
         ++ text bld_closing.
Proof.
  intros He Hw Hsys. unfold sign_and_emit. rewrite Hw. cbn [negb].
  match goal with |- context [system e ?c ?f] =>
    pose proof (Hsys c f) as Hs; destruct (system e c f) as [ret fs2] end.
  cbn [snd] in Hs. rewrite Hs.
  unfold fread. cbn [in_data in_pos]. rewrite drop_0.
  eexists _, _. split; [reflexivity|]. split; [|split].
  - rewrite lookup_delete_ne by done. apply lookup_delete_eq.
  - apply lookup_delete_eq.
  - rewrite emit_secure_boot_info_spec.
    + destruct (negb (ret =? 0)); reflexivity.
    + destruct (negb (ret =? 0)); exact He.
Qed.

Lemma fread_rewind n (i : istream) :
  fread n (rewind_in i)
  = (take n (in_data i),
     {| in_data := in_data i; in_pos := length (take n (in_data i)) |}).
Proof. reflexivity. Qed.

Lemma output_mk a b c d :
  output {| buffer := a; input := b; output := c; stdout := d |} = c.
Proof. reflexivity. Qed.

Lemma input_mk a b c d :
  input {| buffer := a; input := b; output := c; stdout := d |} = b.
Proof. reflexivity. Qed.

Lemma bld_vhd_signed (e : env) fs arg4 arg2 raw_exe_size (s : io) (b sg : list byte) :
  at_end (output s) ->
  in_data (input s) = b ->
  malloc_ok e = true ->
  writable e "sha256.bin" = true ->
  (forall cmd fs0, (system e cmd fs0).2 !! SIGNATURE_FILE = Some sg) ->
  let input_size := u32 (Z.of_nat (length b)) in
  let input_words := input_size / 4 in
  exists fs' s' pre,
    bld_vhd e fs arg4 arg2 raw_exe_size input_size input_words s = (Continue, fs', s')
    /\ fs' !! "sha256.bin" = None
    /\ fs' !! SIGNATURE_FILE = None
    /\ out_data (output s')
       = out_data (output s) ++ pre
         ++ text (secure_boot_lines (take 256 sg) (length (take 256 sg)) input_words)
         ++ text bld_closing.
Proof.
  intros Hend Hdata Hmalloc Hw Hsys input_size input_words. unfold bld_vhd.
  set (s1 := put _ s).
  assert (H1 : appends s s1) by (apply appends_put, Hend).
  set (s2 := vhd_image input_words s1).
  assert (H2 : appends s s2).
  { eapply appends_trans; [exact H1|]. apply vhd_image_appends, H1. }
  set (s3 := put _ s2).
  assert (H3 : appends s s3).
  { eapply appends_trans; [exact H2|]. apply appends_put, H2. }
  set (s4 := put _ s3).
  assert (H4 : appends s s4).
  { eapply appends_trans; [exact H3|]. apply appends_put, H3. }
  clearbody s4. clear s1 s2 s3 H1 H2 H3.
  destruct H4 as (Hin & He4 & pre & Hd4).
  rewrite Hmalloc. cbn [negb].
  rewrite input_mk, fread_rewind, Hin, Hdata.
  assert (Hlen : Z.of_nat (length (take (Z.to_nat input_size) b)) = input_size).
  { rewrite length_take. subst input_size. unfold u32.
    pose proof (Z.mod_pos_bound (Z.of_nat (length b)) (2 ^ 32) ltac:(lia)).
    pose proof (Z.mod_le (Z.of_nat (length b)) (2 ^ 32) ltac:(lia) ltac:(lia)). lia. }
  rewrite Hlen, Z.eqb_refl. cbn [negb].
  match goal with |- context [sign_and_emit e fs ?d input_words ?s5] =>
    assert (Ho5 : output s5 = output s4) by (rewrite !output_mk; reflexivity);
    set (ss := s5) in *; set (dd := d) in *
  end.
  clearbody ss dd.
  assert (He5 : at_end (output ss)) by (rewrite Ho5; exact He4).
  destruct (sign_and_emit_signed e fs dd input_words ss sg He5 Hw Hsys)
    as (fs' & s' & E & Hb & Hsig & Hout).
  exists fs', s', pre. split; [exact E|]. split; [exact Hb|]. split; [exact Hsig|].
  rewrite Hout, Ho5, Hd4, <- !app_assoc. reflexivity.
Qed.

(** [main] with [-bld_vhd] when the signer leaves a signature file, whatever
    its exit status: the run ends with status 0, the two temporary files
    are gone, and the output file ends with the secure-boot information. *)
Lemma main_bld_vhd_signed (e : env) (b sg : list byte) :
  (length (argv e) = 4 \/ length (argv e) = 5)%nat ->
  nth 1 (argv e) "" = "-bld_vhd" ->
  files e !! nth 2 (argv e) "" = Some b ->
  u32 (Z.of_nat (length b)) <> 0 ->
  writable e (nth 3 (argv e) "") = true ->
  malloc_ok e = true ->
  writable e "sha256.bin" = true ->
  (forall cmd fs0, (system e cmd fs0).2 !! SIGNATURE_FILE = Some sg) ->
  res_outcome (main e) = Exit 0
  /\ (nth 3 (argv e) "" <> "sha256.bin" -> res_files (main e) !! "sha256.bin" = None)
  /\ (nth 3 (argv e) "" <> SIGNATURE_FILE -> res_files (main e) !! SIGNATURE_FILE = None)
  /\ exists pre,
       res_files (main e) !! nth 3 (argv e) ""
       = Some (pre
               ++ text (secure_boot_lines (take 256 sg) (length (take 256 sg))
                          (u32 (Z.of_nat (length b)) / 4))
               ++ text bld_closing).
Proof.
  intros Hargc Hop Hin Hsize Hw Hmalloc Hwd Hsys. unfold main.
  assert ((length (argv e) =? 4)%nat || (length (argv e) =? 5)%nat = true) as ->.
  { destruct Hargc as [-> | ->]; reflexivity. }
  cbn [negb]. rewrite Hop.
  change (select_operation "-bld_vhd") with (Some OP_BLD_VHD). cbv iota.
  rewrite Hin.
  destruct (Z.eqb_spec (u32 (Z.of_nat (length b))) 0) as [E|_]; [contradiction|].
  rewrite Hw. cbn [negb].
  match goal with |- context [bld_vhd e ?fs ?a4 ?a2 ?r _ _ ?s] =>
    destruct (bld_vhd_signed e fs a4 a2 r s b sg eq_refl eq_refl Hmalloc Hwd Hsys)
      as (fs' & s' & pre & E & Hbin & Hsig & Hout)
  end.
  rewrite E. cbn [res_outcome res_files].
  split; [reflexivity|]. split; [|split].
  - intros Hne. rewrite lookup_insert_ne by exact Hne. exact Hbin.
  - intros Hne. rewrite lookup_insert_ne by exact Hne. exact Hsig.
  - exists pre. rewrite lookup_insert_eq, Hout. reflexivity.
Qed.

(** ** The words of the secure-boot information *)

Lemma sig_words_loop_spec signature : forall n k fuel1 fuel2,
  (length signature - k <= n)%nat ->
  (length signature - k < fuel1)%nat ->
  (length signature - k <= fuel2)%nat ->
  sig_words_loop signature (length signature) fuel1 k
  = Reference.words (concat (Reference.groups_padded fuel2 (drop k signature))).
Proof.
  intros n. induction n as [|n IH]; intros k fuel1 fuel2 Hn H1 H2.
  - destruct fuel1 as [|fuel1]; [lia|]. cbn [sig_words_loop].
    destruct (Nat.ltb_spec k (length signature)); [lia|].
    rewrite drop_ge by lia. destruct fuel2; reflexivity.
  - destruct fuel1 as [|fuel1]; [lia|]. cbn [sig_words_loop].
    destruct (Nat.ltb_spec k (length signature)) as [Hk|Hk].
    + destruct fuel2 as [|fuel2]; [lia|].
      pose proof (length_drop signature k) as Hl.
      destruct (drop k signature) as [|c rest] eqn:Ed; [simpl in Hl; lia|].
      cbn [Reference.groups_padded concat].
      rewrite (words_app 1)
        by (rewrite length_take, length_app, length_replicate; cbn [length]; lia).
      rewrite <- Ed, <- sig_word_loop_spec by exact Hk. cbn [app].
      f_equal. rewrite drop_drop.
      rewrite (IH (k + 4)%nat fuel1 fuel2) by lia. reflexivity.
    + rewrite drop_ge by lia. destruct fuel2; reflexivity.
Qed.

Lemma groups_padded_length : forall fuel (b : list byte), (length b <= fuel)%nat ->
  Z.of_nat (length (concat (Reference.groups_padded fuel b)))
  = 4 * ((Z.of_nat (length b) + 3) / 4).
Proof.
  induction fuel as [|fuel IH]; intros b Hb.
  - destruct b; [reflexivity|simpl in Hb; lia].
  - destruct b as [|c rest]; [reflexivity|].
    cbn [Reference.groups_padded concat].
    rewrite length_app, Nat2Z.inj_add, IH by (rewrite length_drop; simpl in *; lia).
    rewrite length_take, length_app, length_replicate, length_drop.
    cbn [length] in *. Z.div_mod_to_equations. lia.
Qed.

Lemma words_length : forall k (b : list byte), length b = (4 * k)%nat ->
  length (Reference.words b) = k.
Proof.
  intros k. induction k as [|k IH]; intros b Hb.
  - destruct b; [reflexivity|simpl in Hb; lia].
  - destruct b as [|b0 [|b1 [|b2 [|b3 b']]]]; try (simpl in Hb; lia).
    cbn [Reference.words length]. rewrite IH; [reflexivity|simpl in Hb; lia].
Qed.

Lemma words_padded_length (b : list byte) :
  Z.of_nat (length (Reference.words_padded b)) = (Z.of_nat (length b) + 3) / 4.
Proof.
  unfold Reference.words_padded.
  pose proof (groups_padded_length (length b) b ltac:(lia)) as H.
  rewrite (words_length (Z.to_nat ((Z.of_nat (length b) + 3) / 4))); lia.
Qed.

Lemma secure_boot_record_spec signature input_words :
  secure_boot_record signature (length signature) input_words
  = Reference.words_padded signature ++ [input_words].
Proof.
  unfold secure_boot_record, signature_words, Reference.words_padded.
  rewrite (sig_words_loop_spec signature (length signature) 0 _ (length signature)) by lia.
  rewrite drop_0. reflexivity.
Qed.

Lemma secure_boot_lines_spec signature input_words :
  secure_boot_lines signature (length signature) input_words
  = map sig_line (Reference.words_padded signature) ++ [size_line input_words].
Proof.
  unfold secure_boot_lines, signature_words, Reference.words_padded.
  rewrite (sig_words_loop_spec signature (length signature) 0 _ (length signature)) by lia.
  rewrite drop_0. reflexivity.
Qed.

(** ** [main] on the [-app_bin] operation *)

Local Open Scope string_scope.
Local Open Scope list_scope.
Local Open Scope Z_scope.

Lemma u32_mod4 n : u32 n mod 4 = n mod 4.
Proof. unfold u32. Z.div_mod_to_equations. lia. Qed.

Lemma main_app_bin (e : env) (b : list byte) :
  (length (argv e) = 4 \/ length (argv e) = 5)%nat ->
  nth 1 (argv e) "" = "-app_bin" ->
  files e !! nth 2 (argv e) "" = Some b ->
  u32 (Z.of_nat (length b)) <> 0 ->
  writable e (nth 3 (argv e) "") = true ->
  main e
  = {| res_outcome := Exit 0;
       res_files := <[nth 3 (argv e) "" :=
                        out_data (ab_output (app_bin (buffer_init e) (opened b) created))]>
                      (files e);
       res_stdout := if negb (Z.of_nat (length b) mod 4 =? 0) then [size_warning] else [] |}.
Proof.
  intros Hargc Hop Hin Hsize Hw. unfold main.
  assert ((length (argv e) =? 4)%nat || (length (argv e) =? 5)%nat = true) as ->.
  { destruct Hargc as [-> | ->]; reflexivity. }
  cbn [negb]. rewrite Hop. cbn [select_operation String.eqb Ascii.eqb Bool.eqb].
  change (select_operation "-app_bin") with (Some OP_APP_BIN). cbv iota.
  rewrite Hin.
  destruct (Z.eqb_spec (u32 (Z.of_nat (length b))) 0) as [E|_]; [contradiction|].
  rewrite Hw. cbn [negb buffer input output stdout].
  rewrite insert_insert_eq, u32_mod4. reflexivity.
Qed.

(** ** Arithmetic of the checksum *)

Lemma neg32_spec s : u32 (not32 (u32 s) + 1) = (- s) mod 2 ^ 32.
Proof.
  unfold not32, u32, Z.lnot. rewrite Zplus_mod_idemp_l.
  replace (Z.pred (- (s mod 2 ^ 32)) + 1) with (- (s mod 2 ^ 32)) by lia.
  Z.div_mod_to_equations. lia.
Qed.

Lemma app_bin_payload_aligned buffer b :
  (length b mod 4 = 0)%nat -> app_bin_payload buffer b = b.
Proof. unfold app_bin_payload. intros ->. reflexivity. Qed.

Lemma le32_u32 x : Reference.le32 (u32 x) = Reference.le32 x.
Proof.
  unfold Reference.le32, u32. cbn [map seq].
  repeat (apply (f_equal2 (@cons byte))); try reflexivity;
    cbn [Z.of_nat Pos.of_succ_nat Pos.succ Z.mul Pos.mul Pos.add];
    rewrite <- to_uchar_mod; symmetry; rewrite <- to_uchar_mod; f_equal;
    try rewrite Z.pow_0_r, !Z.div_1_r; Z.div_mod_to_equations; lia.
Qed.

(** * Further properties: auxiliary lemmas *)

Local Open Scope string_scope.
Local Open Scope list_scope.
Local Open Scope Z_scope.

Lemma put_tx str buf data pos od so :
  put str (tx buf data pos od so)
  = tx buf data pos (od ++ list_byte_of_string (snprintf 1024 str)) so.
Proof. unfold put, tx. cbn [ImageGen.buffer input output stdout]. rewrite fputs_at_end by reflexivity. reflexivity. Qed.

Lemma print_tx str buf data pos od so :
  print str (tx buf data pos od so) = tx buf data pos od (so ++ [str]).
Proof. reflexivity. Qed.

Lemma read_tx n buf data pos od so :
  read n (tx buf data pos od so)
  = (length (take n (drop pos data)),
     tx (memcpy buf (take n (drop pos data)) (length (take n (drop pos data))))
        data (pos + length (take n (drop pos data))) od so).
Proof. reflexivity. Qed.

Lemma numbered_snoc line ws : forall i w, u32 i = i ->
  numbered line i (ws ++ [w])
  = numbered line i ws ++ [line (u32 (i + Z.of_nat (length ws))) w].
Proof.
  induction ws as [|x ws IH]; intros i w Hi.
  - cbn [app numbered length Z.of_nat]. rewrite Z.add_0_r, Hi. reflexivity.
  - cbn [app numbered length]. rewrite IH by (unfold u32; apply Z.mod_mod; lia).
    rewrite u32_add_l.
    replace (i + 1 + Z.of_nat (length ws)) with (i + Z.of_nat (S (length ws))) by lia.
    reflexivity.
Qed.

Lemma text_snoc lines l : text (lines ++ [l]) = text lines ++ list_byte_of_string l.
Proof. unfold text. rewrite map_app, concat_app. cbn [map concat]. by rewrite app_nil_r. Qed.

Lemma words_snoc k P buf : length P = (4 * k)%nat ->
  Reference.words (P ++ window buf) = Reference.words P ++ [buffer_word buf].
Proof.
  intros H. rewrite (words_app k) by exact H. rewrite buffer_word_spec. reflexivity.
Qed.

(** The loop of a raw text format prints one line for every group of four
    bytes the [-app_bin] loop writes. *)
Lemma raw_words_loop_sim (line : Z -> Z -> string) i0 od' so :
  (forall i w, snprintf 1024 (line i w) = line i w) -> u32 i0 = i0 ->
  forall fuel k P buf cks size data pos od, length P = (4 * k)%nat ->
  exists k' P',
    length P' = (4 * k')%nat
    /\ out_data (ab_output (app_bin_loop fuel (ab buf cks size data pos (od ++ P))))
       = od ++ P'
    /\ raw_words_loop line fuel (u32 (i0 + Z.of_nat k))
         (tx buf data pos (od' ++ text (numbered line i0 (Reference.words P))) so)
       = tx (ab_buffer (app_bin_loop fuel (ab buf cks size data pos (od ++ P))))
            data
            (in_pos (ab_input (app_bin_loop fuel (ab buf cks size data pos (od ++ P)))))
            (od' ++ text (numbered line i0 (Reference.words P'))) so.
Proof.
  intros Hshort Hi0. induction fuel as [|fuel IH]; intros k P buf cks size data pos od HP.
  - exists k, P. split; [exact HP|]. split; reflexivity.
  - cbn [raw_words_loop]. rewrite read_tx.
    set (got := take 4 (drop pos data)).
    destruct got as [|g0 got'] eqn:Egot.
    + assert (Hd : drop pos data = []).
      { subst got. destruct (drop pos data); [done|discriminate]. }
      rewrite app_bin_loop_stop by exact Hd.
      exists k, P. split; [exact HP|]. split; [reflexivity|].
      cbn [length Nat.eqb]. unfold memcpy, tx, ab. cbn [take drop app ab_buffer ab_input in_pos].
      rewrite Nat.add_0_r. reflexivity.
    + rewrite <- Egot.
      assert (Hne : got <> []) by (rewrite Egot; discriminate).
      destruct (Nat.eqb_spec (length got) 0) as [E0|_].
      { destruct got; [done|discriminate]. }
      rewrite (app_bin_loop_step fuel buf cks size data pos (od ++ P) got eq_refl Hne).
      rewrite put_tx, Hshort.
      set (buf' := memcpy buf got (length got)).
      change (ImageGen.buffer (tx buf' data (pos + length got) _ so)) with buf'.
      replace (u32 (u32 (i0 + Z.of_nat k) + 1)) with (u32 (i0 + Z.of_nat (S k)))
        by (rewrite u32_add_l; f_equal; lia).
      assert (Hl : length (Reference.words P) = k) by (apply words_length, HP).
      assert (Hod : (od' ++ text (numbered line i0 (Reference.words P)))
                    ++ list_byte_of_string (line (u32 (i0 + Z.of_nat k)) (buffer_word buf'))
                    = od' ++ text (numbered line i0 (Reference.words (P ++ window buf')))).
      { rewrite (words_snoc k) by exact HP. rewrite numbered_snoc by exact Hi0.
        rewrite text_snoc, Hl, app_assoc. reflexivity. }
      rewrite Hod, <- (app_assoc od P).
      apply (IH (S k) (P ++ window buf')).
      rewrite length_app. unfold window. cbn [length]. lia.
Qed.

Lemma text_nil : text [] = [].
Proof. reflexivity. Qed.

Lemma text_app l1 l2 : text (l1 ++ l2) = text l1 ++ text l2.
Proof. unfold text. by rewrite map_app, concat_app. Qed.

Lemma text_cons l ls : text (l :: ls) = list_byte_of_string l ++ text ls.
Proof. reflexivity. Qed.

(** A raw text format prints one line for every word of the payload that
    [-app_bin] writes for the same input. *)
Lemma raw_words_spec (line : Z -> Z -> string) buf b od so :
  (forall i w, snprintf 1024 (line i w) = line i w) ->
  exists buf',
    raw_words line (tx buf b 0 od so)
    = tx buf' b (length b)
         (od ++ text (numbered line 0 (Reference.words (app_bin_payload buf b)))) so.
Proof.
  intros Hshort. unfold raw_words.
  change (in_data (input (tx buf b 0 od so))) with b.
  destruct (raw_words_loop_sim line 0 od so Hshort eq_refl (S (length b)) 0 [] buf 0 0 b 0 [])
    as (k' & P' & HP' & Ho & Hr); [reflexivity|].
  destruct (app_bin_loop_spec buf b []) as (buf' & E & _).
  change ([] ++ []) with (@nil byte) in Ho, Hr.
  rewrite E in Ho, Hr. cbn [ab ab_output out_data ab_buffer ab_input in_pos app] in Ho, Hr.
  subst P'. exists buf'.
  change (u32 (0 + Z.of_nat 0)) with 0 in Hr.
  change (Reference.words []) with (@nil Z) in Hr.
  change (numbered line 0 []) with (@nil string) in Hr.
  rewrite text_nil, app_nil_r in Hr. exact Hr.
Qed.

(** The counter of a loop that prints fewer than [2^32] lines is the
    index of the line. *)
Lemma numbered_imap_from line ws : forall n,
  Z.of_nat n + Z.of_nat (length ws) <= 2 ^ 32 ->
  numbered line (Z.of_nat n) ws = imap (fun j w => line (Z.of_nat (n + j)) w) ws.
Proof.
  induction ws as [|w ws IH]; intros n H; [reflexivity|].
  cbn [numbered imap]. rewrite Nat.add_0_r. f_equal.
  destruct ws as [|w' ws']; [reflexivity|]. cbn [length] in H.
  replace (u32 (Z.of_nat n + 1)) with (Z.of_nat (S n))
    by (unfold u32; rewrite Z.mod_small; lia).
  rewrite IH by (cbn [length]; lia). apply imap_ext. intros j x _. cbn. do 2 f_equal. lia.
Qed.

Lemma numbered_imap line ws :
  Z.of_nat (length ws) <= 2 ^ 32 ->
  numbered line 0 ws = imap (fun j w => line (Z.of_nat j) w) ws.
Proof. intros H. apply (numbered_imap_from line ws 0). lia. Qed.

Lemma numbered_const (f : Z -> string) ws : forall i,
  numbered (fun _ w => f w) i ws = map f ws.
Proof. induction ws as [|w ws IH]; intros i; [reflexivity|]. cbn [numbered map]. by rewrite IH. Qed.

(** [-raw_bin]: the loop copies what is left of the input. *)
Lemma raw_bin_loop_spec : forall n fuel buf data pos od so,
  length (drop pos data) = n -> (n < fuel)%nat ->
  exists buf',
    raw_bin_loop fuel (tx buf data pos od so)
    = tx buf' data (pos + length (drop pos data)) (od ++ drop pos data) so.
Proof.
  induction n as [|n IH]; intros fuel buf data pos od so Hn Hf;
    (destruct fuel as [|fuel]; [lia|]); cbn [raw_bin_loop]; rewrite read_tx.
  - assert (Hd : drop pos data = []) by (destruct (drop pos data); [done|discriminate]).
    rewrite Hd. cbn [take length Nat.eqb]. exists (memcpy buf [] 0).
    cbn [length]. rewrite app_nil_r. reflexivity.
  - destruct (drop pos data) as [|c rest] eqn:Hd; [discriminate|].
    change (take 1 (c :: rest)) with [c]. cbn [length Nat.eqb].
    set (buf1 := memcpy buf [c] 1).
    change (fputc ?x (output (tx ?a ?b ?p ?o ?s)))
      with (fputc x {| out_data := o; out_pos := length o |}).
    rewrite fputc_at_end by reflexivity. cbn [out_data].
    change (ImageGen.buffer (tx buf1 data (pos + 1) od so)) with buf1.
    change (input (tx buf1 data (pos + 1) od so)) with {| in_data := data; in_pos := pos + 1 |}.
    change (stdout (tx buf1 data (pos + 1) od so)) with so.
    replace (S (length od)) with (length (od ++ [nth 0 buf1 x00]))
      by (rewrite length_app; simpl; lia).
    fold (tx buf1 data (pos + 1) (od ++ [nth 0 buf1 x00]) so).
    assert (Hd' : drop (pos + 1) data = rest).
    { rewrite <- drop_drop, Hd. reflexivity. }
    destruct (IH fuel buf1 data (pos + 1)%nat (od ++ [nth 0 buf1 x00]) so) as (buf' & E).
    + rewrite Hd'. cbn [length] in Hn. lia.
    + lia.
    + exists buf'. rewrite E, Hd', <- app_assoc. cbn [length]. f_equal. lia.
Qed.

(** The checks of [main] before it selects a branch, when they pass. *)
Ltac main_prelude Hargc Hop Hin Hw :=
  unfold main;
  match type of Hargc with
  | (length (argv ?e) = 4 \/ _)%nat =>
      assert ((length (argv e) =? 4)%nat || (length (argv e) =? 5)%nat = true) as ->
        by (destruct Hargc as [-> | ->]; reflexivity)
  end;
  cbn [negb]; rewrite Hop; cbv iota; rewrite Hin;
  match goal with
  | |- context [u32 (Z.of_nat (length ?b)) =? 0] =>
      destruct (Z.eqb_spec (u32 (Z.of_nat (length b))) 0) as [?E|_]; [contradiction|]
  end;
  rewrite Hw; cbn [negb].

Lemma main_text_branch (e : env) (b : list byte) (op : operation_enum) (F : io -> io) :
  (length (argv e) = 4 \/ length (argv e) = 5)%nat ->
  select_operation (nth 1 (argv e) "") = Some op ->
  files e !! nth 2 (argv e) "" = Some b ->
  u32 (Z.of_nat (length b)) <> 0 ->
  writable e (nth 3 (argv e) "") = true ->
  match op with
  | OP_APP_VHD =>
      F = app_vhd (if (length (argv e) =? 5)%nat then nth 4 (argv e) "" else "(null)")
                  (nth 2 (argv e) "") (compile_time e)
                  (u64 (Z.of_nat (length b))) (u32 (Z.of_nat (length b)) / 4)
  | OP_RAW_HEX => F = raw_hex
  | OP_RAW_BIN => F = raw_bin
  | OP_RAW_COE => F = raw_coe (u32 (Z.of_nat (length b)) / 4)
  | OP_RAW_MEM => F = raw_mem
  | OP_RAW_MIF => F = raw_mif (u64 (Z.of_nat (length b)))
  | _ => False
  end ->
  main e
  = {| res_outcome := Exit 0;
       res_files := <[nth 3 (argv e) "" :=
                        out_data (output (F (tx (buffer_init e) b 0 [] (warned b))))]>
                      (files e);
       res_stdout := stdout (F (tx (buffer_init e) b 0 [] (warned b))) |}.
Proof.
  intros Hargc Hop Hin Hsize Hw HF. main_prelude Hargc Hop Hin Hw.
  unfold warned. rewrite u32_mod4.
  destruct (Z.eqb_spec (Z.of_nat (length b) mod 4) 0) as [E0|E0]; cbn [negb];
    destruct op; try contradiction; subst F; cbv iota;
    rewrite insert_insert_eq; reflexivity.
Qed.

Lemma small_size (b : list byte) :
  0 < Z.of_nat (length b) < 2 ^ 32 ->
  u32 (Z.of_nat (length b)) = Z.of_nat (length b)
  /\ u64 (Z.of_nat (length b)) = Z.of_nat (length b)
  /\ u32 (Z.of_nat (length b)) <> 0.
Proof.
  intros H. unfold u32, u64. rewrite !Z.mod_small by lia. lia.
Qed.

(** The number of words the loops over groups of four bytes handle. *)
Lemma payload_words_length buf (b : list byte) :
  Z.of_nat (length (Reference.words (app_bin_payload buf b)))
  = (Z.of_nat (length b) + 3) / 4.
Proof.
  pose proof (app_bin_payload_length buf b) as H.
  set (k := Z.to_nat ((Z.of_nat (length b) + 3) / 4)).
  assert (Hk : length (app_bin_payload buf b) = (4 * k)%nat).
  { subst k. pose proof (Z.div_pos (Z.of_nat (length b) + 3) 4 ltac:(lia) ltac:(lia)). lia. }
  rewrite (words_length k) by exact Hk. subst k.
  pose proof (Z.div_pos (Z.of_nat (length b) + 3) 4 ltac:(lia) ltac:(lia)). lia.
Qed.

Lemma snprintf_hex_line w : snprintf 1024 (hex8 w +:+ nl) = hex8 w +:+ nl.
Proof. reflexivity. Qed.

Lemma snprintf_coe_line (c : bool) w :
  snprintf 1024 (if c then hex8 w +:+ ";" +:+ nl else hex8 w +:+ "," +:+ nl)
  = if c then hex8 w +:+ ";" +:+ nl else hex8 w +:+ "," +:+ nl.
Proof. destruct c; reflexivity. Qed.

Lemma snprintf_mem_line i w :
  snprintf 1024 ("@" +:+ hex8 i +:+ " " +:+ hex8 w +:+ nl)
  = "@" +:+ hex8 i +:+ " " +:+ hex8 w +:+ nl.
Proof. reflexivity. Qed.

Lemma snprintf_mif_line i w :
  snprintf 1024 (hex8 i +:+ " : " +:+ hex8 w +:+ ";" +:+ nl)
  = hex8 i +:+ " : " +:+ hex8 w +:+ ";" +:+ nl.
Proof. reflexivity. Qed.

Lemma snprintf_fixed :
  Forall (fun l => snprintf 1024 l = l)
    [ "memory_initialization_radix=16;" +:+ nl; "memory_initialization_vector=" +:+ nl;
      "WIDTH = 32;" +:+ nl; "ADDRESS_RADIX = HEX;" +:+ nl; "DATA_RADIX = HEX;" +:+ nl;
      "CONTENT" +:+ nl; "BEGIN" +:+ nl; "END;" +:+ nl ].
Proof. repeat constructor. Qed.

Lemma vhd_lines_snoc ws w : vhd_lines (ws ++ [w]) = map comma_line ws ++ [last_line w].
Proof.
  induction ws as [|x ws IH]; [reflexivity|].
  cbn [app map]. rewrite <- IH. destruct ws; reflexivity.
Qed.

Lemma snprintf_comma_line w : snprintf 1024 (comma_line w) = comma_line w.
Proof. reflexivity. Qed.

Lemma snprintf_last_line w : snprintf 1024 (last_line w) = last_line w.
Proof. reflexivity. Qed.

(** An iteration that finds nothing to read prints the message and leaves
    the loop. *)
Lemma vhd_image_loop_end fuel W i buf data pos od so :
  i < u32 (W - 1) -> drop pos data = [] ->
  vhd_image_loop (S fuel) W i (tx buf data pos od so)
  = (i, tx buf data pos od (so ++ [unexpected_end])).
Proof.
  intros Hi Hd. cbn [vhd_image_loop].
  destruct (Z.ltb_spec i (u32 (W - 1))) as [_|]; [|lia].
  rewrite read_tx, Hd. cbn [take length Nat.eqb negb].
  unfold memcpy. cbn [take drop app]. rewrite Nat.add_0_r. reflexivity.
Qed.

(** The loop leaves when the counter reaches its bound. *)
Lemma vhd_image_loop_bound fuel W i s :
  u32 (W - 1) <= i -> vhd_image_loop (S fuel) W i s = (i, s).
Proof.
  intros Hi. cbn [vhd_image_loop].
  destruct (Z.ltb_spec i (u32 (W - 1))) as [|_]; [lia|]. reflexivity.
Qed.

(** One iteration that obtains [got]. *)
Lemma vhd_image_loop_step fuel W i buf data pos od so got :
  got = take 4 (drop pos data) -> got <> [] -> i < u32 (W - 1) ->
  vhd_image_loop (S fuel) W i (tx buf data pos od so)
  = vhd_image_loop fuel W (u32 (i + 1))
      (tx (memcpy buf got (length got)) data (pos + length got)
          (od ++ list_byte_of_string
                   (comma_line (buffer_word (memcpy buf got (length got))))) so).
Proof.
  intros Hgot Hne Hi. cbn [vhd_image_loop].
  destruct (Z.ltb_spec i (u32 (W - 1))) as [_|]; [|lia].
  rewrite read_tx, <- Hgot.
  destruct (Nat.eqb_spec (length got) 0) as [E|_].
  { destruct got; [done|discriminate]. }
  cbn [negb]. rewrite put_tx.
  change (ImageGen.buffer (tx ?a _ _ _ _)) with a.
  reflexivity.
Qed.

(** The last word. *)
Lemma vhd_last_word buf data pos od so got :
  got = take 4 (drop pos data) -> got <> [] ->
  (let '(n, s) := read 4 (tx buf data pos od so) in
   if negb (n =? 0)%nat
   then put ("x" +:+ dq +:+ hex8 (buffer_word (ImageGen.buffer s)) +:+ dq +:+ nl) s
   else print ("Unexpected input file end!" +:+ nl) s)
  = tx (memcpy buf got (length got)) data (pos + length got)
       (od ++ list_byte_of_string (last_line (buffer_word (memcpy buf got (length got))))) so.
Proof.
  intros Hgot Hne. rewrite read_tx, <- Hgot.
  destruct (Nat.eqb_spec (length got) 0) as [E|_].
  { destruct got; [done|discriminate]. }
  cbn [negb]. rewrite put_tx.
  change (ImageGen.buffer (tx ?a _ _ _ _)) with a.
  reflexivity.
Qed.

Lemma buffer_word_group b0 b1 b2 b3 buf :
  buffer_word (memcpy buf [b0; b1; b2; b3] 4) = Reference.le_word b0 b1 b2 b3.
Proof. rewrite buffer_word_spec. reflexivity. Qed.

(** The iterations over complete groups, below the bound. *)
Lemma vhd_image_loop_groups W : forall k g rest fuel i buf data pos od so,
  length g = (4 * k)%nat -> drop pos data = g ++ rest ->
  0 <= i -> i + Z.of_nat k <= u32 (W - 1) ->
  exists buf',
    vhd_image_loop (k + fuel) W i (tx buf data pos od so)
    = vhd_image_loop fuel W (i + Z.of_nat k)
        (tx buf' data (pos + length g)
            (od ++ text (map comma_line (Reference.words g))) so).
Proof.
  intros k. induction k as [|k IH]; intros g rest fuel i buf data pos od so Hg Hd Hi Hb.
  - destruct g; [|simpl in Hg; lia]. exists buf.
    cbn [Nat.add length Reference.words map Z.of_nat]. 
    rewrite text_nil, app_nil_r, Z.add_0_r, Nat.add_0_r. reflexivity.
  - destruct g as [|b0 [|b1 [|b2 [|b3 g']]]]; try (simpl in Hg; lia).
    assert (Hg' : length g' = (4 * k)%nat) by (simpl in Hg; lia).
    set (grp := [b0; b1; b2; b3]).
    assert (Hgot : grp = take 4 (drop pos data)) by (rewrite Hd; reflexivity).
    pose proof (Z.mod_pos_bound (W - 1) (2 ^ 32) ltac:(lia)) as Hu. fold (u32 (W - 1)) in Hu.
    cbn [Nat.add]. rewrite (vhd_image_loop_step _ _ _ _ _ _ _ _ grp Hgot) by (done || lia).
    subst grp. cbn [length]. rewrite buffer_word_group.
    replace (u32 (i + 1)) with (i + 1) by (unfold u32; rewrite Z.mod_small; lia).
    destruct (IH g' rest fuel (i + 1) (memcpy buf [b0; b1; b2; b3] 4) data (pos + 4)%nat
                (od ++ list_byte_of_string (comma_line (Reference.le_word b0 b1 b2 b3))) so)
      as (buf' & E); [exact Hg'| |lia|lia|].
    + rewrite <- drop_drop, Hd. reflexivity.
    + exists buf'. rewrite E.
      change (Reference.words (b0 :: b1 :: b2 :: b3 :: g'))
        with (Reference.le_word b0 b1 b2 b3 :: Reference.words g').
      cbn [map]. rewrite text_cons, <- !app_assoc.
      replace (i + 1 + Z.of_nat k) with (i + Z.of_nat (S k)) by lia.
      replace (pos + 4 + length g')%nat with (pos + S (S (S (S (length g')))))%nat by lia.
      reflexivity.
Qed.

(** The image of an input of at least one complete group: the words of
    the complete groups, a partial last group being left unread. *)
Lemma vhd_image_spec buf (b : list byte) od so :
  4 <= Z.of_nat (length b) < 2 ^ 32 ->
  exists buf',
    vhd_image (Z.of_nat (length b) / 4) (tx buf b 0 od so)
    = tx buf' b (4 * (length b / 4))
         (od ++ text (vhd_lines (Reference.words (take (4 * (length b / 4)) b)))) so.
Proof.
  intros Hlen. unfold vhd_image.
  change (in_data (input (tx buf b 0 od so))) with b.
  pose proof (Nat.div_mod_eq (length b) 4) as Hd.
  pose proof (Nat.mod_upper_bound (length b) 4 ltac:(lia)) as Hr.
  set (q := (length b / 4)%nat) in *.
  assert (HW : Z.of_nat (length b) / 4 = Z.of_nat q).
  { subst q. rewrite Nat2Z.inj_div. reflexivity. }
  rewrite HW.
  assert (Hq : (1 <= q)%nat) by lia.
  assert (Hu : u32 (Z.of_nat q - 1) = Z.of_nat q - 1) by (unfold u32; rewrite Z.mod_small; lia).
  set (g := take (4 * (q - 1)) b).
  set (grp := take 4 (drop (4 * (q - 1)) b)).
  assert (Hg : length g = (4 * (q - 1))%nat) by (subst g; rewrite length_take; lia).
  assert (Hgrp : length grp = 4%nat) by (subst grp; rewrite length_take, length_drop; lia).
  destruct (vhd_image_loop_groups (Z.of_nat q) (q - 1) g (drop (4 * (q - 1)) b)
              (S (length b) - (q - 1)) 0 buf b 0 od so) as (buf1 & E).
  { exact Hg. } { subst g. rewrite drop_0, take_drop. reflexivity. } { lia. } { lia. }
  replace (q - 1 + (S (length b) - (q - 1)))%nat with (S (length b)) in E by lia.
  rewrite E. clear E.
  replace (S (length b) - (q - 1))%nat with (S (length b - (q - 1))) by lia.
  rewrite vhd_image_loop_bound by lia.
  rewrite Nat.add_0_l, Hg.
  rewrite (vhd_last_word _ _ _ _ _ grp eq_refl) by (destruct grp; [discriminate|done]).
  exists (memcpy buf1 grp (length grp)).
  assert (Htake : take (4 * q) b = g ++ grp).
  { subst g grp. rewrite take_take_drop. f_equal. lia. }
  assert (Hwords : Reference.words (take (4 * q) b)
                   = Reference.words g ++ [buffer_word (memcpy buf1 grp (length grp))]).
  { rewrite Htake, (words_app (q - 1)) by exact Hg. f_equal.
    destruct grp as [|b0 [|b1 [|b2 [|b3 [|]]]]]; try discriminate.
    cbn [length]. rewrite buffer_word_group. reflexivity. }
  rewrite Hwords, vhd_lines_snoc, text_app, text_cons, text_nil, app_nil_r, Hgrp, app_assoc.
  f_equal. lia.
Qed.

(** The one word of an input of fewer than four bytes. *)
Lemma short_payload_words buf (b : list byte) :
  0 < Z.of_nat (length b) < 4 ->
  Reference.words (app_bin_payload buf b) = [buffer_word (memcpy buf b (length b))].
Proof.
  intros Hlen. unfold app_bin_payload, previous_group.
  rewrite Nat.mod_small, Nat.div_small by lia.
  destruct (Nat.eqb_spec (length b) 0) as [E|_]; [lia|]. cbn [Nat.eqb].
  rewrite buffer_word_spec.
  pose proof (window_partial b buf ltac:(lia)) as Hw.
  assert (Hl : length (window (memcpy buf b (length b))) = 4%nat) by reflexivity.
  rewrite <- Hw. unfold window. reflexivity.
Qed.

(** The image of an input of fewer than four bytes: [input_words - 1]
    wraps around, the loop reads the partial group as a word followed by
    a comma, fails to read more, and so does the statement for the last
    word. *)
Lemma vhd_image_short buf (b : list byte) od so :
  0 < Z.of_nat (length b) < 4 ->
  exists buf',
    vhd_image (Z.of_nat (length b) / 4) (tx buf b 0 od so)
    = tx buf' b (length b)
         (od ++ text (map comma_line (Reference.words (app_bin_payload buf b))))
         (so ++ [unexpected_end; unexpected_end]).
Proof.
  intros Hlen. unfold vhd_image.
  change (in_data (input (tx buf b 0 od so))) with b.
  rewrite Z.div_small by lia.
  change (u32 (0 - 1)) with (2 ^ 32 - 1).
  assert (Hgot : b = take 4 (drop 0 b)) by (rewrite drop_0, take_ge; [done|lia]).
  assert (Hne : b <> []) by (destruct b; [simpl in Hlen; lia|done]).
  rewrite (vhd_image_loop_step _ _ _ _ _ _ _ _ b Hgot Hne) by (change (u32 (0 - 1)) with (2 ^ 32 - 1); lia).
  change (u32 (0 + 1)) with 1. rewrite Nat.add_0_l.
  destruct (length b) as [|n] eqn:El; [lia|].
  rewrite vhd_image_loop_end;
    [|change (u32 (0 - 1)) with (2 ^ 32 - 1); lia|apply drop_ge; lia].
  rewrite read_tx. rewrite (drop_ge b (S n)) by lia.
  cbn [take length Nat.eqb negb]. rewrite print_tx.
  exists (memcpy (memcpy buf b (S n)) [] 0). rewrite Nat.add_0_r, <- app_assoc.
  cbn [app]. f_equal.
  f_equal. rewrite (short_payload_words buf b) by lia.
  rewrite El. cbn [map text concat]. rewrite app_nil_r. reflexivity.
Qed.

Lemma snprintf_bld_vhd_middle : Forall (fun l => snprintf 1024 l = l) bld_vhd_middle.
Proof. repeat constructor. Qed.

Lemma rewind_tx buf data pos od so :
  {| buffer := buffer (tx buf data pos od so);
     input := rewind_in (input (tx buf data pos od so));
     output := output (tx buf data pos od so);
     stdout := stdout (tx buf data pos od so) |}
  = tx buf data 0 od so.
Proof. reflexivity. Qed.

Lemma fread_tx n buf data pos od so :
  fread n (input (tx buf data pos od so))
  = (take n (drop pos data),
     {| in_data := data; in_pos := pos + length (take n (drop pos data)) |}).
Proof. reflexivity. Qed.

(** The branch on an input of at least four bytes, up to the call of
    [sha256]. *)
Lemma bld_vhd_unfold (e : env) fs (b : list byte) buf so :
  4 <= Z.of_nat (length b) < 2 ^ 32 ->
  exists buf',
    bld_vhd e fs (project e) (nth 2 (argv e) "") (Z.of_nat (length b))
            (Z.of_nat (length b)) (Z.of_nat (length b) / 4) (tx buf b 0 [] so)
    = if negb (malloc_ok e)
      then (Return (-5), fs,
            tx buf' b 0 (text (bld_vhd_prefix e b)) (so ++ ["Memory allocation failed!" +:+ nl]))
      else sign_and_emit e fs (sha256 b) (Z.of_nat (length b) / 4)
             (tx buf' b (length b) (text (bld_vhd_prefix e b)) so).
Proof.
  intros Hlen. unfold bld_vhd. rewrite put_tx.
  match goal with |- context [vhd_image _ (tx ?bf _ _ ?od ?so)] =>
    destruct (vhd_image_spec bf b od so Hlen) as (buf' & E)
  end.
  rewrite E, !put_tx, rewind_tx. clear E.
  pose proof snprintf_bld_vhd_middle as Hf.
  rewrite (Forall_lookup_1 _ _ 0%nat _ Hf eq_refl), (Forall_lookup_1 _ _ 1%nat _ Hf eq_refl).
  exists buf'.
  assert (Hod : ((([] ++ list_byte_of_string
                     (snprintf 1024
                        (bld_vhd_header (project e) (nth 2 (argv e) "") (compile_time e)
                                        (Z.of_nat (length b) + 260))))
                 ++ text (vhd_lines (Reference.words (take (4 * (length b / 4)) b))))
                ++ list_byte_of_string (");" +:+ nl))
                ++ list_byte_of_string
                     ("constant bootloader_init_secure_boot_info_c : mem32_t := (" +:+ nl)
                = text (bld_vhd_prefix e b)).
  { unfold bld_vhd_prefix, bld_vhd_middle.
    rewrite !text_app, !text_cons, text_nil, !app_nil_r, <- !app_assoc. reflexivity. }
  assert (H260 : u64 (Z.of_nat (length b) + 260) = Z.of_nat (length b) + 260)
    by (unfold u64; rewrite Z.mod_small; lia).
  rewrite H260.
  change (unlines _) with
    (bld_vhd_header (project e) (nth 2 (argv e) "") (compile_time e)
                    (Z.of_nat (length b) + 260)).
  rewrite Hod.
  destruct (malloc_ok e); cbn [negb]; [|rewrite print_tx; reflexivity].
  rewrite fread_tx, drop_0, Nat2Z.id, take_ge by lia.
  rewrite Z.eqb_refl. cbn [negb]. reflexivity.
Qed.

Lemma bld_vhd_opening_prefix (e : env) (b : list byte) :
  4 <= Z.of_nat (length b) -> bld_vhd_opening e b = bld_vhd_prefix e b.
Proof.
  intros H. unfold bld_vhd_opening, bld_vhd_prefix, bld_vhd_image.
  destruct (Z.ltb_spec (Z.of_nat (length b)) 4); [lia|reflexivity].
Qed.

(** The branch on an input of fewer than four bytes, up to the call of
    [sha256]. *)
Lemma bld_vhd_unfold_short (e : env) fs (b : list byte) so :
  0 < Z.of_nat (length b) < 4 ->
  exists buf',
    bld_vhd e fs (project e) (nth 2 (argv e) "") (Z.of_nat (length b))
            (Z.of_nat (length b)) (Z.of_nat (length b) / 4)
            (tx (buffer_init e) b 0 [] so)
    = if negb (malloc_ok e)
      then (Return (-5), fs,
            tx buf' b 0 (text (bld_vhd_opening e b))
               ((so ++ [unexpected_end; unexpected_end])
                ++ ["Memory allocation failed!" +:+ nl]))
      else sign_and_emit e fs (sha256 b) (Z.of_nat (length b) / 4)
             (tx buf' b (length b) (text (bld_vhd_opening e b))
                 (so ++ [unexpected_end; unexpected_end])).
Proof.
  intros Hlen. unfold bld_vhd. rewrite put_tx.
  match goal with |- context [vhd_image _ (tx ?bf _ _ ?od ?so)] =>
    destruct (vhd_image_short bf b od so Hlen) as (buf' & E)
  end.
  rewrite E, !put_tx, rewind_tx, (short_payload_words (buffer_init e) b Hlen). clear E.
  pose proof snprintf_bld_vhd_middle as Hf.
  rewrite (Forall_lookup_1 _ _ 0%nat _ Hf eq_refl), (Forall_lookup_1 _ _ 1%nat _ Hf eq_refl).
  exists buf'.
  assert (Hod : ((([] ++ list_byte_of_string
                     (snprintf 1024
                        (bld_vhd_header (project e) (nth 2 (argv e) "") (compile_time e)
                                        (Z.of_nat (length b) + 260))))
                 ++ text (map comma_line
                            [buffer_word (memcpy (buffer_init e) b (length b))]))
                ++ list_byte_of_string (");" +:+ nl))
                ++ list_byte_of_string
                     ("constant bootloader_init_secure_boot_info_c : mem32_t := (" +:+ nl)
                = text (bld_vhd_opening e b)).
  { unfold bld_vhd_opening, bld_vhd_image, bld_vhd_middle.
    destruct (Z.ltb_spec (Z.of_nat (length b)) 4); [|lia]. cbn [map].
    rewrite !text_app, !text_cons, text_nil, !app_nil_r, <- !app_assoc. reflexivity. }
  assert (H260 : u64 (Z.of_nat (length b) + 260) = Z.of_nat (length b) + 260)
    by (unfold u64; rewrite Z.mod_small; lia).
  rewrite H260.
  change (unlines _) with
    (bld_vhd_header (project e) (nth 2 (argv e) "") (compile_time e)
                    (Z.of_nat (length b) + 260)).
  rewrite Hod.
  destruct (malloc_ok e); cbn [negb]; [|rewrite print_tx; reflexivity].
  rewrite fread_tx, drop_0, Nat2Z.id, take_ge by lia.
  rewrite Z.eqb_refl. cbn [negb]. reflexivity.
Qed.

(** The branch on any non-empty input, when [malloc] succeeds. *)
Lemma bld_vhd_unfold_any (e : env) fs (b : list byte) so :
  0 < Z.of_nat (length b) < 2 ^ 32 -> malloc_ok e = true ->
  exists buf' so',
    bld_vhd e fs (project e) (nth 2 (argv e) "") (Z.of_nat (length b))
            (Z.of_nat (length b)) (Z.of_nat (length b) / 4)
            (tx (buffer_init e) b 0 [] so)
    = sign_and_emit e fs (sha256 b) (Z.of_nat (length b) / 4)
        (tx buf' b (length b) (text (bld_vhd_opening e b)) so').
Proof.
  intros Hlen Hm. destruct (Z.lt_ge_cases (Z.of_nat (length b)) 4) as [Hs|Hl].
  - destruct (bld_vhd_unfold_short e fs b so ltac:(lia)) as (buf' & E).
    rewrite Hm in E. exists buf', (so ++ [unexpected_end; unexpected_end]). exact E.
  - destruct (bld_vhd_unfold e fs b (buffer_init e) so ltac:(lia)) as (buf' & E).
    rewrite Hm in E. exists buf', so. rewrite bld_vhd_opening_prefix by exact Hl. exact E.
Qed.

Lemma main_bld_branch (e : env) (b : list byte) :
  (length (argv e) = 4 \/ length (argv e) = 5)%nat ->
  nth 1 (argv e) "" = "-bld_vhd" ->
  files e !! nth 2 (argv e) "" = Some b ->
  u32 (Z.of_nat (length b)) <> 0 ->
  writable e (nth 3 (argv e) "") = true ->
  main e
  = (let '(fl, fs, s) :=
       bld_vhd e (<[nth 3 (argv e) "" := []]> (files e)) (project e) (nth 2 (argv e) "")
               (u64 (Z.of_nat (length b))) (u32 (Z.of_nat (length b)))
               (u32 (Z.of_nat (length b)) / 4) (tx (buffer_init e) b 0 [] (warned b)) in
     match fl with
     | Continue =>
         {| res_outcome := Exit 0;
            res_files := <[nth 3 (argv e) "" := out_data (output s)]> fs;
            res_stdout := stdout s |}
     | Return status =>
         {| res_outcome := Exit status;
            res_files := <[nth 3 (argv e) "" := out_data (output s)]> fs;
            res_stdout := stdout s |}
     | Crash => {| res_outcome := Fault; res_files := fs; res_stdout := stdout s |}
     end).
Proof.
  intros Hargc Hop Hin Hsize Hw. main_prelude Hargc Hop Hin Hw.
  unfold warned. rewrite u32_mod4.
  destruct (Z.eqb_spec (Z.of_nat (length b) mod 4) 0) as [E0|E0]; reflexivity.
Qed.

Lemma put_output_ext str s s' :
  output s = output s' -> output (put str s) = output (put str s').
Proof. intros H. unfold put. cbn [output]. rewrite H. reflexivity. Qed.

Lemma emit_output_ext signature n w s s' :
  output s = output s' ->
  output (emit_secure_boot_info signature n w s)
  = output (emit_secure_boot_info signature n w s').
Proof.
  intros H. unfold emit_secure_boot_info. do 2 apply put_output_ext.
  revert s s' H. induction (secure_boot_lines signature n w) as [|l ls IH]; intros s s' H.
  - exact H.
  - cbn [fold_left]. apply IH, put_output_ext, H.
Qed.

(** What the statements after the digest leave, as a function of what the
    signer leaves. *)
Lemma sign_and_emit_cases (e : env) fs digest w s :
  let r := sign_and_emit e fs digest w s in
  let fs1 := <["sha256.bin" :=
                 out_data (fold_left (fun f j => fputc_word (nth j digest 0) f) (seq 0 8)
                                     {| out_data := []; out_pos := 0 |})]>
               (<["sha256.bin" := []]> fs) in
  let cmd := snprintf 256
      ("openssl dgst -sha256 -sign " +:+ PRIVATE_KEY_FILE +:+ " -out "
         +:+ SIGNATURE_FILE +:+ " sha256.bin") in
  let fs2 := (system e cmd fs1).2 in
  (writable e "sha256.bin" = false /\ r.1.1 = Crash /\ r.1.2 = fs)
  \/ (writable e "sha256.bin" = true /\ fs2 !! SIGNATURE_FILE = None
      /\ r.1.1 = Crash /\ r.1.2 = fs2)
  \/ (writable e "sha256.bin" = true
      /\ exists sg, fs2 !! SIGNATURE_FILE = Some sg
         /\ r.1.1 = Continue
         /\ r.1.2 = delete SIGNATURE_FILE (delete "sha256.bin" fs2)
         /\ exists s0, output s0 = output s
            /\ r.2 = emit_secure_boot_info (take 256 sg) (length (take 256 sg)) w s0).
Proof.
  intros r fs1 cmd fs2. subst r. unfold sign_and_emit.
  destruct (writable e "sha256.bin"); cbn [negb]; [|left; done].
  right. fold fs1. fold cmd. subst fs2.
  destruct (system e cmd fs1) as [ret fs2]. cbn [snd].
  destruct (fs2 !! SIGNATURE_FILE) as [sg|] eqn:Esig.
  - right. split; [done|]. exists sg. split; [done|].
    unfold fread. cbn [in_data in_pos fst snd]. rewrite drop_0.
    split; [reflexivity|]. split; [reflexivity|].
    eexists. split; [|reflexivity].
    destruct (negb (ret =? 0)); reflexivity.
  - left. done.
Qed.

Lemma sign_and_emit_status (e : env) status fs digest w s :
  same_effect (sign_and_emit (with_status e status) fs digest w s)
              (sign_and_emit e fs digest w s).
Proof.
  pose proof (sign_and_emit_cases (with_status e status) fs digest w s) as H1.
  pose proof (sign_and_emit_cases e fs digest w s) as H2.
  cbv zeta in H1, H2. cbn [writable system with_status snd] in H1.
  unfold same_effect.
  destruct H1 as [(W1 & F1 & S1)|[(W1 & N1 & F1 & S1)|(W1 & sg1 & N1 & F1 & S1 & s1 & O1 & R1)]],
           H2 as [(W2 & F2 & S2)|[(W2 & N2 & F2 & S2)|(W2 & sg2 & N2 & F2 & S2 & s2 & O2 & R2)]];
    try congruence.
  - rewrite F1, F2, S1, S2. split; [done|]. split; [done|]. intros H. done.
  - rewrite F1, F2, S1, S2. split; [done|]. split; [done|]. intros H. done.
  - rewrite F1, F2, S1, S2, R1, R2. split; [done|]. split; [done|]. intros _.
    assert (sg1 = sg2) as -> by congruence.
    apply emit_output_ext. congruence.
Qed.

(** [bld_vhd] uses the outside world for the time, for [malloc] and in the
    statements after the digest. *)
Lemma bld_vhd_ext (e e' : env) fs a4 a2 r isz w s :
  compile_time e' = compile_time e -> malloc_ok e' = malloc_ok e ->
  (forall d s', same_effect (sign_and_emit e' fs d w s') (sign_and_emit e fs d w s')) ->
  same_effect (bld_vhd e' fs a4 a2 r isz w s) (bld_vhd e fs a4 a2 r isz w s).
Proof.
  intros Hct Hm H. unfold bld_vhd. rewrite Hct, Hm.
  destruct (negb (malloc_ok e)); [split; [|split]; reflexivity|].
  destruct (fread _ _) as [input_buf input'].
  destruct (negb _); [split; [|split]; reflexivity|].
  apply H.
Qed.

(** How [bld_vhd] can end, and the files it leaves beside the two
    temporary ones. *)
Lemma bld_vhd_cases (e : env) fs a4 a2 r isz w s :
  let res := bld_vhd e fs a4 a2 r isz w s in
  (res.1.1 = Return (-5) /\ res.1.2 = fs)
  \/ (res.1.1 = Return (-6) /\ res.1.2 = fs)
  \/ exists d s', res = sign_and_emit e fs d w s'.
Proof.
  intros res. subst res. unfold bld_vhd.
  destruct (negb (malloc_ok e)); [left; done|].
  destruct (fread _ _) as [input_buf input'].
  destruct (negb _); [right; left; done|].
  right. right. eauto.
Qed.

Lemma sign_and_emit_files (e : env) fs digest w s p :
  p <> "sha256.bin" -> p <> SIGNATURE_FILE ->
  (forall cmd fs0, (system e cmd fs0).2 !! p = fs0 !! p) ->
  (sign_and_emit e fs digest w s).1.2 !! p = fs !! p
  /\ ((sign_and_emit e fs digest w s).1.1 = Continue
      \/ (sign_and_emit e fs digest w s).1.1 = Crash).
Proof.
  intros Hb Hs Hsys.
  pose proof (sign_and_emit_cases e fs digest w s) as H. cbv zeta in H.
  destruct H as [(_ & F & S)|[(_ & _ & F & S)|(_ & sg & _ & F & S & _)]]; rewrite F, S.
  - split; [done|by right].
  - split; [|by right]. rewrite Hsys, !lookup_insert_ne by done. done.
  - split; [|by left].
    rewrite !lookup_delete_ne, Hsys, !lookup_insert_ne by done. done.
Qed.

Lemma bld_vhd_files (e : env) fs a4 a2 r isz w s p :
  p <> "sha256.bin" -> p <> SIGNATURE_FILE ->
  (forall cmd fs0, (system e cmd fs0).2 !! p = fs0 !! p) ->
  (bld_vhd e fs a4 a2 r isz w s).1.2 !! p = fs !! p.
Proof.
  intros Hb Hs Hsys.
  destruct (bld_vhd_cases e fs a4 a2 r isz w s) as [(_ & F)|[(_ & F)|(d & s' & E)]].
  - by rewrite F.
  - by rewrite F.
  - rewrite E. apply sign_and_emit_files; done.
Qed.

Lemma bld_vhd_flow (e : env) fs a4 a2 r isz w s :
  let fl := (bld_vhd e fs a4 a2 r isz w s).1.1 in
  fl = Continue \/ fl = Crash \/ fl = Return (-5) \/ fl = Return (-6).
Proof.
  intros fl. subst fl.
  destruct (bld_vhd_cases e fs a4 a2 r isz w s) as [(F & _)|[(F & _)|(d & s' & E)]].
  - rewrite F. tauto.
  - rewrite F. tauto.
  - rewrite E.
    pose proof (sign_and_emit_cases e fs d w s') as H. cbv zeta in H.
    destruct H as [(_ & F & _)|[(_ & _ & F & _)|(_ & sg & _ & F & _)]]; rewrite F; tauto.
Qed.

Lemma select_operation_None s :
  select_operation s = None <-> ~ In s operation_names.
Proof.
  split.
  - intros H Hin. unfold operation_names in Hin. cbn [In] in Hin.
    destruct Hin as [<-|[<-|[<-|[<-|[<-|[<-|[<-|[<-|[]]]]]]]]]; discriminate H.
  - intros H. unfold select_operation.
    repeat match goal with
           | |- context [String.eqb s ?n] =>
               destruct (String.eqb_spec s n) as [E|?];
                 [exfalso; apply H; rewrite E; unfold operation_names; cbn [In]; tauto|]
           end.
    reflexivity.
Qed.

Lemma argc_test (e : env) :
  (length (argv e) = 4 \/ length (argv e) = 5)%nat ->
  (length (argv e) =? 4)%nat || (length (argv e) =? 5)%nat = true.
Proof. intros [-> | ->]; reflexivity. Qed.

(** The runs that end before the output file is opened. *)
Lemma main_early (e : env) :
  (length (argv e) = 4 \/ length (argv e) = 5)%nat ->
  (select_operation (nth 1 (argv e) "") = None ->
   main e = {| res_outcome := Exit (-1); res_files := files e;
               res_stdout := ["Invalid operation '" +:+ nth 1 (argv e) "" +:+ "'!" +:+ nl] |})
  /\ (select_operation (nth 1 (argv e) "") <> None ->
      files e !! nth 2 (argv e) "" = None ->
      main e = {| res_outcome := Exit (-2); res_files := files e;
                  res_stdout := ["Input file error (" +:+ nth 2 (argv e) "" +:+ ")!" +:+ nl] |})
  /\ (forall b,
      select_operation (nth 1 (argv e) "") <> None ->
      files e !! nth 2 (argv e) "" = Some b ->
      u32 (Z.of_nat (length b)) = 0 ->
      main e = {| res_outcome := Exit (-3); res_files := files e;
                  res_stdout := ["Input file is empty (" +:+ nth 2 (argv e) "" +:+ ")!" +:+ nl] |})
  /\ (forall b,
      select_operation (nth 1 (argv e) "") <> None ->
      files e !! nth 2 (argv e) "" = Some b ->
      u32 (Z.of_nat (length b)) <> 0 ->
      writable e (nth 3 (argv e) "") = false ->
      main e = {| res_outcome := Exit (-4); res_files := files e;
                  res_stdout := warned b
                                ++ ["Output file error (" +:+ nth 3 (argv e) "" +:+ ")!" +:+ nl] |}).
Proof.
  intros Hargc. pose proof (argc_test e Hargc) as Ha.
  split; [|split; [|split]].
  - intros Hop. unfold main. rewrite Ha, Hop. reflexivity.
  - intros Hop Hin. unfold main. rewrite Ha. cbn [negb].
    destruct (select_operation _); [|contradiction]. rewrite Hin. reflexivity.
  - intros b Hop Hin Hsize. unfold main. rewrite Ha. cbn [negb].
    destruct (select_operation _); [|contradiction]. rewrite Hin, Hsize. reflexivity.
  - intros b Hop Hin Hsize Hw. unfold main. rewrite Ha. cbn [negb].
    destruct (select_operation _); [|contradiction]. rewrite Hin.
    destruct (Z.eqb_spec (u32 (Z.of_nat (length b))) 0) as [?|_]; [contradiction|].
    rewrite Hw. cbn [negb]. unfold warned. rewrite u32_mod4.
    destruct (Z.eqb_spec (Z.of_nat (length b) mod 4) 0); reflexivity.
Qed.

(** The runs that open both files. *)
Lemma main_late (e : env) (b : list byte) (op : operation_enum) :
  (length (argv e) = 4 \/ length (argv e) = 5)%nat ->
  select_operation (nth 1 (argv e) "") = Some op ->
  files e !! nth 2 (argv e) "" = Some b ->
  u32 (Z.of_nat (length b)) <> 0 ->
  writable e (nth 3 (argv e) "") = true ->
  late_outcome (res_outcome (main e))
  /\ forall p, p <> nth 3 (argv e) "" ->
       (op = OP_BLD_VHD ->
        p <> "sha256.bin" /\ p <> SIGNATURE_FILE
        /\ forall cmd fs, (system e cmd fs).2 !! p = fs !! p) ->
       res_files (main e) !! p = files e !! p.
Proof.
  intros Hargc Hop Hin Hsize Hw. main_prelude Hargc Hop Hin Hw.
  unfold late_outcome.
  destruct op; cbv iota beta;
    try (cbn [res_outcome res_files]; split; [left; reflexivity|];
         intros p Hp _; rewrite !lookup_insert_ne by done; reflexivity).
  match goal with |- context [bld_vhd e ?fs ?a4 ?a2 ?r ?i ?w ?s] =>
    pose proof (bld_vhd_flow e fs a4 a2 r i w s) as Hfl;
    pose proof (fun p => bld_vhd_files e fs a4 a2 r i w s p) as Hfs;
    cbv zeta in Hfl;
    destruct (bld_vhd e fs a4 a2 r i w s) as [[fl fs'] s']
  end.
  cbn [fst snd] in Hfl, Hfs.
  destruct Hfl as [E|[E|[E|E]]]; rewrite E; cbn [res_outcome res_files];
    (split; [tauto|]); intros p Hp H; destruct (H eq_refl) as (Hb & Hs & Hsys);
    rewrite ?lookup_insert_ne by done; rewrite (Hfs p Hb Hs Hsys);
    rewrite lookup_insert_ne by done; reflexivity.
Qed.

Lemma select_operation_Some s :
  select_operation s <> None <-> In s operation_names.
Proof.
  rewrite select_operation_None.
  destruct (in_dec string_dec s operation_names); tauto.
Qed.

Lemma select_operation_bld s : select_operation s = Some OP_BLD_VHD -> s = "-bld_vhd".
Proof.
  unfold select_operation.
  repeat match goal with
         | |- context [String.eqb s ?n] => destruct (String.eqb_spec s n) as [E|?]
         end; congruence.
Qed.

Lemma main_wrong_argc (e : env) :
  length (argv e) <> 4%nat -> length (argv e) <> 5%nat ->
  main e = {| res_outcome := Exit 0; res_files := files e; res_stdout := [usage] |}.
Proof.
  intros H4 H5. unfold main.
  destruct (Nat.eqb_spec (length (argv e)) 4); [contradiction|].
  destruct (Nat.eqb_spec (length (argv e)) 5); [contradiction|]. reflexivity.
Qed.

(** Every run with four or five arguments ends in one of five ways. *)
Lemma main_cases (e : env) :
  (length (argv e) = 4 \/ length (argv e) = 5)%nat ->
  (~ In (nth 1 (argv e) "") operation_names
   /\ res_outcome (main e) = Exit (-1) /\ res_files (main e) = files e)
  \/ (In (nth 1 (argv e) "") operation_names /\ files e !! nth 2 (argv e) "" = None
      /\ res_outcome (main e) = Exit (-2) /\ res_files (main e) = files e)
  \/ (In (nth 1 (argv e) "") operation_names
      /\ (exists b, files e !! nth 2 (argv e) "" = Some b /\ u32 (Z.of_nat (length b)) = 0)
      /\ res_outcome (main e) = Exit (-3) /\ res_files (main e) = files e)
  \/ (In (nth 1 (argv e) "") operation_names
      /\ (exists b, files e !! nth 2 (argv e) "" = Some b /\ u32 (Z.of_nat (length b)) <> 0)
      /\ writable e (nth 3 (argv e) "") = false
      /\ res_outcome (main e) = Exit (-4) /\ res_files (main e) = files e)
  \/ (In (nth 1 (argv e) "") operation_names
      /\ (exists b, files e !! nth 2 (argv e) "" = Some b /\ u32 (Z.of_nat (length b)) <> 0)
      /\ writable e (nth 3 (argv e) "") = true
      /\ late_outcome (res_outcome (main e))
      /\ forall p, p <> nth 3 (argv e) "" ->
           (nth 1 (argv e) "" = "-bld_vhd" ->
            p <> "sha256.bin" /\ p <> SIGNATURE_FILE
            /\ forall cmd fs, (system e cmd fs).2 !! p = fs !! p) ->
           res_files (main e) !! p = files e !! p).
Proof.
  intros Hargc. destruct (main_early e Hargc) as (H1 & H2 & H3 & H4).
  destruct (select_operation (nth 1 (argv e) "")) as [op|] eqn:Hop.
  2: { left. split; [by apply select_operation_None|]. rewrite H1 by done. done. }
  assert (Hne : select_operation (nth 1 (argv e) "") <> None) by congruence.
  assert (Hin : In (nth 1 (argv e) "") operation_names) by by apply select_operation_Some.
  rewrite Hop in *. right.
  destruct (files e !! nth 2 (argv e) "") as [b|] eqn:Hf.
  2: { left. rewrite H2 by done. done. }
  right. destruct (Z.eq_dec (u32 (Z.of_nat (length b))) 0) as [Hs|Hs].
  { left. rewrite (H3 b) by done. split; [done|]. split; [eauto|done]. }
  right. destruct (writable e (nth 3 (argv e) "")) eqn:Hw.
  2: { left. rewrite (H4 b) by done. split; [done|]. split; [eauto|done]. }
  right. split; [done|]. split; [eauto|]. split; [done|].
  destruct (main_late e b op Hargc Hop Hf Hs Hw) as [Hl Hfiles].
  split; [exact Hl|]. intros p Hp H. apply (Hfiles p Hp).
  intros ->. apply H, select_operation_bld, Hop.
Qed.

(** [main] uses the signer only in the statements of [-bld_vhd] after the
    digest. *)
Lemma main_ext (e e' : env) :
  argv e' = argv e -> files e' = files e -> writable e' = writable e ->
  buffer_init e' = buffer_init e -> compile_time e' = compile_time e ->
  malloc_ok e' = malloc_ok e ->
  (forall fs d w s, same_effect (sign_and_emit e' fs d w s) (sign_and_emit e fs d w s)) ->
  res_outcome (main e') = res_outcome (main e) /\ res_files (main e') = res_files (main e).
Proof.
  intros Hargv Hfiles Hwr Hbuf Hct Hm Hsign. unfold main.
  rewrite Hargv, Hfiles, Hwr, Hbuf, Hct.
  destruct (negb _); [split; reflexivity|].
  destruct (select_operation _) as [op|]; [|split; reflexivity].
  destruct (files e !! _) as [content|]; [|split; reflexivity].
  destruct (_ =? 0); [split; reflexivity|].
  destruct (negb (writable e _)); [split; reflexivity|].
  destruct op; try (split; reflexivity).
  match goal with |- context [bld_vhd e ?fs ?a4 ?a2 ?r ?i ?w ?s] =>
    pose proof (bld_vhd_ext e e' fs a4 a2 r i w s Hct Hm (fun d s' => Hsign fs d w s')) as H;
    destruct (bld_vhd e' fs a4 a2 r i w s) as [[fl' fs'] s'];
    destruct (bld_vhd e fs a4 a2 r i w s) as [[fl fs0] s0]
  end.
  destruct H as (Hfl & Hfs & Ho). cbn [fst snd] in Hfl, Hfs, Ho. subst fl' fs'.
  destruct fl; cbn [res_outcome res_files]; rewrite ?Ho by discriminate; split; reflexivity.
Qed.

Lemma main_raw_hex (e : env) (b : list byte) :
  (length (argv e) = 4 \/ length (argv e) = 5)%nat ->
  nth 1 (argv e) "" = "-raw_hex" ->
  files e !! nth 2 (argv e) "" = Some b ->
  writable e (nth 3 (argv e) "") = true ->
  0 < Z.of_nat (length b) < 2 ^ 32 ->
  main e
  = {| res_outcome := Exit 0;
       res_files :=
         <[nth 3 (argv e) "" :=
             text (map (fun w => hex8 w +:+ nl)
                       (Reference.words (app_bin_payload (buffer_init e) b)))]> (files e);
       res_stdout := warned b |}.
Proof.
  intros Hargc Hop Hin Hw Hlen.
  destruct (small_size b Hlen) as (_ & _ & Hsize).
  rewrite (main_text_branch e b OP_RAW_HEX raw_hex Hargc) by (rewrite ?Hop; done).
  unfold raw_hex.
  destruct (raw_words_spec (fun _ tmp => hex8 tmp +:+ nl) (buffer_init e) b [] (warned b))
    as (buf' & E); [intros; apply snprintf_hex_line|].
  rewrite E, numbered_const. reflexivity.
Qed.

Lemma main_raw_coe (e : env) (b : list byte) :
  (length (argv e) = 4 \/ length (argv e) = 5)%nat ->
  nth 1 (argv e) "" = "-raw_coe" ->
  files e !! nth 2 (argv e) "" = Some b ->
  writable e (nth 3 (argv e) "") = true ->
  0 < Z.of_nat (length b) < 2 ^ 32 ->
  main e
  = {| res_outcome := Exit 0;
       res_files :=
         <[nth 3 (argv e) "" :=
             text ([ "memory_initialization_radix=16;" +:+ nl;
                     "memory_initialization_vector=" +:+ nl ]
                   ++ imap (fun j w =>
                              if Z.of_nat j =? Z.of_nat (length b) / 4 - 1
                              then hex8 w +:+ ";" +:+ nl
                              else hex8 w +:+ "," +:+ nl)
                           (Reference.words (app_bin_payload (buffer_init e) b)))]>
           (files e);
       res_stdout := warned b |}.
Proof.
  intros Hargc Hop Hin Hw Hlen.
  destruct (small_size b Hlen) as (Hu & _ & Hsize).
  rewrite (main_text_branch e b OP_RAW_COE (raw_coe (u32 (Z.of_nat (length b)) / 4)) Hargc)
    by (rewrite ?Hop; done).
  unfold raw_coe. rewrite !put_tx.
  pose proof snprintf_fixed as Hf.
  rewrite (Forall_lookup_1 _ _ 0%nat _ Hf eq_refl), (Forall_lookup_1 _ _ 1%nat _ Hf eq_refl).
  match goal with |- context [raw_words ?l _] =>
    destruct (raw_words_spec l (buffer_init e) b
                ([] ++ list_byte_of_string ("memory_initialization_radix=16;" +:+ nl)
                    ++ list_byte_of_string ("memory_initialization_vector=" +:+ nl))
                (warned b)) as (buf' & E); [intros; apply snprintf_coe_line|]
  end.
  rewrite <- app_assoc, E. cbn [output out_data stdout tx].
  pose proof (payload_words_length (buffer_init e) b) as Hn.
  rewrite numbered_imap by (rewrite Hn; Z.div_mod_to_equations; lia).
  rewrite Hu. do 3 f_equal. rewrite text_app. cbn [app]. f_equal. f_equal.
  apply imap_ext. intros j w Hj. apply lookup_lt_Some in Hj.
  replace (Z.of_nat j =? u32 (Z.of_nat (length b) / 4 - 1))
    with (Z.of_nat j =? Z.of_nat (length b) / 4 - 1); [reflexivity|].
  assert (Hjb : 0 <= Z.of_nat j < 2 ^ 30) by (Z.div_mod_to_equations; lia).
  unfold u32.
  destruct (Z.eq_dec (Z.of_nat (length b) / 4) 0) as [H0|H0].
  - rewrite H0. change ((0 - 1) mod 2 ^ 32) with (2 ^ 32 - 1).
    destruct (Z.eqb_spec (Z.of_nat j) (0 - 1)), (Z.eqb_spec (Z.of_nat j) (2 ^ 32 - 1)); lia.
  - rewrite Z.mod_small; [reflexivity|]. Z.div_mod_to_equations. lia.
Qed.

Lemma snprintf_app_vhd_footer : snprintf 1024 app_vhd_footer = app_vhd_footer.
Proof. vm_compute. reflexivity. Qed.

Lemma process_block_length h p o : length (process_block h p o) = 8%nat.
Proof.
  unfold process_block.
  destruct (fold_left _ _ _) as [[[[[[[a b] c] d] e] f] g] h']. reflexivity.
Qed.

Lemma sha256_is_process_block data :
  exists h p, sha256 data = process_block h p 0.
Proof.
  unfold sha256, sha256_with.
  destruct (full_blocks process_block (S (length data)) data 0 h_init) as [h offset].
  destruct (56 <=? length data - offset)%nat; eauto.
Qed.

Lemma sha256_digest_length data : length (sha256 data) = 8%nat.
Proof.
  destruct (sha256_is_process_block data) as (h & p & ->). apply process_block_length.
Qed.

Lemma le_word_le32 x :
  Reference.le_word (nth 0 (Reference.le32 x) x00) (nth 1 (Reference.le32 x) x00)
                    (nth 2 (Reference.le32 x) x00) (nth 3 (Reference.le32 x) x00)
  = u32 x.
Proof.
  unfold Reference.le32, Reference.le_word. cbn [seq map nth].
  rewrite !uchar_to_uchar. unfold u32.
  change (2 ^ (8 * Z.of_nat 0)) with 1. change (2 ^ (8 * Z.of_nat 1)) with (2 ^ 8).
  change (2 ^ (8 * Z.of_nat 2)) with (2 ^ 16). change (2 ^ (8 * Z.of_nat 3)) with (2 ^ 24).
  Z.div_mod_to_equations. lia.
Qed.

Lemma le32_le_word b0 b1 b2 b3 :
  Reference.le32 (Reference.le_word b0 b1 b2 b3) = [b0; b1; b2; b3].
Proof.
  unfold Reference.le32, Reference.le_word. cbn [seq map].
  pose proof (uchar_range b0). pose proof (uchar_range b1).
  pose proof (uchar_range b2). pose proof (uchar_range b3).
  change (2 ^ (8 * Z.of_nat 0)) with 1. change (2 ^ (8 * Z.of_nat 1)) with (2 ^ 8).
  change (2 ^ (8 * Z.of_nat 2)) with (2 ^ 16). change (2 ^ (8 * Z.of_nat 3)) with (2 ^ 24).
  repeat f_equal; apply to_uchar_eq; Z.div_mod_to_equations; lia.
Qed.

Lemma hex_value_digit d : 0 <= d < 16 -> hex_value (hex_digit d) = d.
Proof.
  intros H.
  assert (E : d = 0 \/ d = 1 \/ d = 2 \/ d = 3 \/ d = 4 \/ d = 5 \/ d = 6 \/ d = 7
              \/ d = 8 \/ d = 9 \/ d = 10 \/ d = 11 \/ d = 12 \/ d = 13 \/ d = 14 \/ d = 15)
    by lia.
  repeat (destruct E as [->|E]; [reflexivity|]). subst d. reflexivity.
Qed.

Lemma land_15 x : 0 <= x -> Z.land x 15 = x mod 16.
Proof. intros H. change 15 with (Z.ones 4). rewrite Z.land_ones by lia. reflexivity. Qed.

Lemma unhex_hex8 w : 0 <= w < 2 ^ 32 -> unhex (hex8 w) = w.
Proof.
  intros H. unfold unhex, hex8. cbn [list_ascii_of_string fold_left].
  rewrite !Z.shiftr_div_pow2 by lia.
  assert (Hn : forall k, 0 <= k -> 0 <= w / 2 ^ k).
  { intros k Hk. apply Z.div_pos; [lia|]. apply Z.pow_pos_nonneg; lia. }
  rewrite !land_15 by (try apply Hn; lia).
  rewrite !hex_value_digit by (apply Z.mod_pos_bound; lia).
  Z.div_mod_to_equations. lia.
Qed.

Lemma le_word_range b0 b1 b2 b3 : 0 <= Reference.le_word b0 b1 b2 b3 < 2 ^ 32.
Proof.
  unfold Reference.le_word.
  pose proof (uchar_range b0). pose proof (uchar_range b1).
  pose proof (uchar_range b2). pose proof (uchar_range b3). lia.
Qed.

Lemma words_range : forall k (b : list byte), length b = (4 * k)%nat ->
  Forall (fun w => 0 <= w < 2 ^ 32) (Reference.words b).
Proof.
  intros k. induction k as [|k IH]; intros b Hb.
  - destruct b; [constructor|simpl in Hb; lia].
  - destruct b as [|b0 [|b1 [|b2 [|b3 b']]]]; try (simpl in Hb; lia).
    cbn [Reference.words]. constructor; [apply le_word_range|].
    apply IH. simpl in Hb. lia.
Qed.

Lemma words_bytes : forall k (b : list byte), length b = (4 * k)%nat ->
  concat (map Reference.le32 (Reference.words b)) = b.
Proof.
  intros k. induction k as [|k IH]; intros b Hb.
  - destruct b; [reflexivity|simpl in Hb; lia].
  - destruct b as [|b0 [|b1 [|b2 [|b3 b']]]]; try (simpl in Hb; lia).
    cbn [Reference.words map concat]. rewrite le32_le_word, IH by (simpl in Hb; lia).
    reflexivity.
Qed.

Lemma hex_line_bytes w :
  exists c0 c1 c2 c3 c4 c5 c6 c7 : ascii,
    hex8 w = String c0 (String c1 (String c2 (String c3 (String c4 (String c5
               (String c6 (String c7 EmptyString))))))).
Proof. unfold hex8. do 8 eexists. reflexivity. Qed.

Lemma byte_of_ascii_inj a a' : byte_of_ascii a = byte_of_ascii a' -> a = a'.
Proof.
  intros H. rewrite <- (ascii_of_byte_of_ascii a), <- (ascii_of_byte_of_ascii a'), H.
  reflexivity.
Qed.

(** A file of hexadecimal lines determines the words it was printed
    from. *)
Lemma hex_lines_inj : forall ws ws',
  Forall (fun w => 0 <= w < 2 ^ 32) ws -> Forall (fun w => 0 <= w < 2 ^ 32) ws' ->
  text (map (fun w => hex8 w +:+ nl) ws) = text (map (fun w => hex8 w +:+ nl) ws') ->
  ws = ws'.
Proof.
  induction ws as [|w ws IH]; intros ws' H H' E.
  - destruct ws' as [|w' ws']; [reflexivity|].
    cbn [map] in E. rewrite text_cons in E.
    destruct (hex_line_bytes w') as (c0 & c1 & c2 & c3 & c4 & c5 & c6 & c7 & Ew).
    rewrite Ew in E. discriminate E.
  - destruct ws' as [|w' ws'].
    { cbn [map] in E. rewrite text_cons in E.
      destruct (hex_line_bytes w) as (c0 & c1 & c2 & c3 & c4 & c5 & c6 & c7 & Ew).
      rewrite Ew in E. discriminate E. }
    inversion H as [|? ? Hw Hws]; inversion H' as [|? ? Hw' Hws']; subst.
    cbn [map] in E. rewrite !text_cons in E.
    destruct (hex_line_bytes w) as (c0 & c1 & c2 & c3 & c4 & c5 & c6 & c7 & Ew).
    destruct (hex_line_bytes w') as (d0 & d1 & d2 & d3 & d4 & d5 & d6 & d7 & Ew').
    assert (Ehex : hex8 w = hex8 w' /\ text (map (fun w => hex8 w +:+ nl) ws)
                                        = text (map (fun w => hex8 w +:+ nl) ws')).
    { rewrite Ew, Ew' in *.
      change (list_byte_of_string (String ?a ?s +:+ nl))
        with (byte_of_ascii a :: list_byte_of_string (s +:+ nl)) in E.
      cbn in E.
      injection E as E0 E1 E2 E3 E4 E5 E6 E7 Er.
      apply byte_of_ascii_inj in E0, E1, E2, E3, E4, E5, E6, E7. subst.
      split; [reflexivity|exact Er]. }
    destruct Ehex as [Eh Er]. f_equal.
    + rewrite <- (unhex_hex8 w Hw), <- (unhex_hex8 w' Hw'), Eh. reflexivity.
    + apply IH; assumption.
Qed.

Lemma digest_file_bytes (d : list Z) :
  length d = 8%nat ->
  out_data (fold_left (fun f j => fputc_word (nth j d 0) f) (seq 0 8)
                      {| out_data := []; out_pos := 0 |})
  = concat (map Reference.le32 d).
Proof.
  intros H.
  destruct d as [|d0 [|d1 [|d2 [|d3 [|d4 [|d5 [|d6 [|d7 [|]]]]]]]]]; try discriminate.
  cbn [seq fold_left nth].
  rewrite !fputc_word_fold, <- !fold_left_app, fputc_list_at_end by reflexivity.
  cbn [out_data map concat app]. rewrite app_nil_r. reflexivity.
Qed.

(** * The claims *)

(** C1: the code does not do what the claim says.  The signer exits with
    status 1 and leaves an empty signature file: [main] prints
    [OpenSSL signing failed!], goes on, writes a secure-boot information
    block that holds only the size word, and ends with status 0. *)
Theorem signer_failure_not_fatal :
  let r := main (Scenario.run "-bld_vhd" Scenario.two_words Scenario.signer_empty) in
  res_outcome r = Exit 0
  /\ res_stdout r = ["OpenSSL signing failed!" +:+ nl]
  /\ res_files r !! "main.out"
     = Some (list_byte_of_string (unlines
         [ "-- The NEORV32 RISC-V Processor - github.com/stnolting/neorv32";
           "-- Auto-generated memory initialization image (for internal BOOTROM)";
           "-- Source: demo/main.bin";
           "-- Built: 01.01.2025 12:00:00";
           "";
           "library ieee;";
           "use ieee.std_logic_1164.all;";
           "";
           "library neorv32;";
           "use neorv32.neorv32_package.all;";
           "";
           "package neorv32_bootloader_image is";
           "";
           "constant bootloader_init_size_c  : natural := 268; -- bytes";
           "constant bootloader_init_image_c : mem32_t := (";
           "x" +:+ dq +:+ "00000001" +:+ dq +:+ ",";
           "x" +:+ dq +:+ "00000002" +:+ dq;
           ");";
           "constant bootloader_init_secure_boot_info_c : mem32_t := (";
           "x" +:+ dq +:+ "00000002" +:+ dq +:+ " -- Bootloader code size";
           ");";
           "";
           "end neorv32_bootloader_image;" ])).
Proof. vm_compute. repeat split; reflexivity. Qed.

(** C2. [sha256] computes SHA-256: on every input its digest is the one
    the standard defines ([Fips.SHA256]: the message padded and parsed into
    64-byte blocks, the hash computation of FIPS 180-4 on each block, with
    the constants derived from the primes); on the empty sequence and on
    the three bytes of ["abc"] it returns the published digests. *)
Theorem sha256_standard :
  (forall data : list byte, sha256 data = Fips.SHA256 data)
  /\ sha256 []
     = [ 0xe3b0c442; 0x98fc1c14; 0x9afbf4c8; 0x996fb924;
         0x27ae41e4; 0x649b934c; 0xa495991b; 0x7852b855 ]
  /\ sha256 [x61; x62; x63]
     = [ 0xba7816bf; 0x8f01cfea; 0x414140de; 0x5dae2223;
         0xb00361a3; 0x96177a9c; 0xb410ff61; 0xf20015ad ].
Proof.
  split; [exact sha256_fips|]. split; vm_compute; reflexivity.
Qed.

(** The published two-block vector: the 56-byte message
    [abcdbcdecdefdefgefghfghighijhijkijkljklmklmnlmnomnopnopq]. *)
Lemma sha256_two_block_vector :
  sha256 (list_byte_of_string "abcdbcdecdefdefgefghfghighijhijkijkljklmklmnlmnomnopnopq")
  = [ 0x248d6a61; 0xd20638b8; 0xe5c02693; 0x0c3e6039;
      0xa33ce459; 0x64ff2167; 0xf6ecedd4; 0x19db06c1 ].
Proof. vm_compute. reflexivity. Qed.

(** C3. For every byte sequence [b] whose length is a multiple of 4, the
    checksum the [-app_bin] branch computes is the two's-complement negation
    [(~sum) + 1] of the sum of the little-endian words of [b], and the sum of
    the words plus the checksum is 0 modulo [2^32]. *)
Theorem app_bin_checksum_complement (buffer b : list byte) :
  (length b mod 4 = 0)%nat ->
  let checksum := ab_checksum (app_bin buffer (opened b) created) in
  checksum = u32 (not32 (u32 (Reference.sum (Reference.words b))) + 1)
  /\ (Reference.sum (Reference.words b) + checksum) mod 2 ^ 32 = 0.
Proof.
  intros Hb checksum. subst checksum.
  destruct (app_bin_spec buffer b) as (Hc & _).
  rewrite app_bin_payload_aligned in Hc by exact Hb.
  rewrite Hc. split; [reflexivity|].
  rewrite neg32_spec. rewrite Zplus_mod_idemp_r.
  replace (Reference.sum (Reference.words b) + - Reference.sum (Reference.words b)) with 0 by lia.
  reflexivity.
Qed.

(** The theorem above at a concrete input. *)
Lemma app_bin_checksum_complement_witness :
  (Reference.sum (Reference.words Scenario.two_words)
   + ab_checksum (app_bin [] (opened Scenario.two_words) created)) mod 2 ^ 32 = 0.
Proof.
  apply (app_bin_checksum_complement [] Scenario.two_words). reflexivity.
Defined.

(** C4. For every non-empty input whose length is a multiple of 4 (and
    fits the [unsigned int] the source keeps it in), [main] with [-app_bin]
    and an output file other than the input
    ends with status 0 and leaves in the output file exactly the signature
    0x4788CAFE, the size in bytes and the checksum, each as four
    little-endian bytes, followed by the input bytes.  For the input
    [01 00 00 00 02 00 00 00] the file is
    [FE CA 88 47] [08 00 00 00] [FD FF FF FF] and the two words. *)
Theorem app_bin_frame (e : env) (b : list byte) :
  (length (argv e) = 4 \/ length (argv e) = 5)%nat ->
  nth 1 (argv e) "" = "-app_bin" ->
  files e !! nth 2 (argv e) "" = Some b ->
  nth 3 (argv e) "" <> nth 2 (argv e) "" ->
  writable e (nth 3 (argv e) "") = true ->
  0 < Z.of_nat (length b) < 2 ^ 32 ->
  (length b mod 4 = 0)%nat ->
  res_outcome (main e) = Exit 0
  /\ res_files (main e)
     = <[nth 3 (argv e) "" :=
           Reference.le32 0x4788CAFE ++ Reference.le32 (Z.of_nat (length b))
           ++ Reference.le32 (Reference.checksum b) ++ b]> (files e)
  /\ (b = Scenario.two_words ->
      res_files (main e) !! nth 3 (argv e) ""
      = Some ([xfe; xca; x88; x47] ++ [x08; x00; x00; x00] ++ [xfd; xff; xff; xff]
              ++ [x01; x00; x00; x00; x02; x00; x00; x00])).
Proof.
  intros Hargc Hop Hin _ Hw Hlen Hb.
  assert (Hsize : u32 (Z.of_nat (length b)) <> 0) by (unfold u32; rewrite Z.mod_small; lia).
  rewrite (main_app_bin e b Hargc Hop Hin Hsize Hw). cbn [res_outcome res_files].
  destruct (app_bin_spec (buffer_init e) b) as (Hc & Hs & Ho & _).
  rewrite app_bin_payload_aligned in Hc, Hs, Ho by exact Hb.
  assert (Hfile : out_data (ab_output (app_bin (buffer_init e) (opened b) created))
                  = Reference.le32 0x4788CAFE ++ Reference.le32 (Z.of_nat (length b))
                    ++ Reference.le32 (Reference.checksum b) ++ b).
  { rewrite Ho, Hs, Hc, le32_u32, neg32_spec. reflexivity. }
  rewrite Hfile. split; [reflexivity|]. split; [reflexivity|].
  intros ->. rewrite lookup_insert_eq. reflexivity.
Qed.

(** The theorem above at a concrete input. *)
Lemma app_bin_frame_witness :
  res_files (main (Scenario.run "-app_bin" Scenario.two_words Scenario.signer_absent))
    !! "main.out"
  = Some ([xfe; xca; x88; x47] ++ [x08; x00; x00; x00] ++ [xfd; xff; xff; xff]
          ++ [x01; x00; x00; x00; x02; x00; x00; x00]).
Proof.
  refine (proj2 (proj2 (app_bin_frame
            (Scenario.run "-app_bin" Scenario.two_words Scenario.signer_absent)
            Scenario.two_words _ _ _ _ _ _ _)) eq_refl).
  - right. reflexivity.
  - reflexivity.
  - reflexivity.
  - discriminate.
  - reflexivity.
  - simpl. lia.
  - reflexivity.
Defined.

(** C5, counterexample.  A signature of 256 bytes gives a record of 65
    words, not 9; a signature of 3 bytes gives 2 words, not [3/4 + 1 = 1]. *)
Lemma secure_boot_record_not_9_words :
  length (secure_boot_record (replicate 256 xa5) 256 2) <> 9%nat
  /\ length (secure_boot_record [x01; x02; x03] 3 2) <> (3 / 4 + 1)%nat.
Proof. vm_compute. split; discriminate. Qed.

(** C5, amended.  On a [-bld_vhd] run whose signer ends with status 0 and
    leaves a signature file that is not empty (the output file being
    neither the input nor one of the two temporary files), the code reads
    at most the first 256 bytes of the signature; with [n] the number of
    bytes read, the record is these bytes as 32-bit little-endian words,
    a partial last group filled with zero bytes, followed by exactly one
    word, the length of the input in 32-bit words.  It has
    [ceil(n/4) + 1] words, which is 65 for a signature of 256 bytes.  The
    run ends with status 0 and the output file is, in full: the header,
    the image and the two lines that open the secure-boot information;
    one line for every word of the record, in order, and no other; the
    two lines that close the package. *)
Theorem secure_boot_record_layout (e : env) (b sg : list byte) :
  (length (argv e) = 4 \/ length (argv e) = 5)%nat ->
  nth 1 (argv e) "" = "-bld_vhd" ->
  files e !! nth 2 (argv e) "" = Some b ->
  0 < Z.of_nat (length b) < 2 ^ 32 ->
  nth 3 (argv e) "" <> nth 2 (argv e) "" ->
  nth 3 (argv e) "" <> "sha256.bin" ->
  nth 3 (argv e) "" <> SIGNATURE_FILE ->
  writable e (nth 3 (argv e) "") = true ->
  malloc_ok e = true ->
  writable e "sha256.bin" = true ->
  (forall cmd fs, (system e cmd fs).1 = 0) ->
  (forall cmd fs, (system e cmd fs).2 !! SIGNATURE_FILE = Some sg) ->
  sg <> [] ->
  let signature := take 256 sg in
  let n := length signature in
  let input_words := Z.of_nat (length b) / 4 in
  let record := Reference.words_padded signature ++ [input_words] in
  secure_boot_record signature n input_words = record
  /\ Z.of_nat (length record) = (Z.of_nat n + 3) / 4 + 1
  /\ (length sg = 256%nat -> length record = 65%nat)
  /\ res_outcome (main e) = Exit 0
  /\ res_files (main e) !! nth 3 (argv e) ""
     = Some (text (bld_vhd_opening e b
                   ++ map sig_line (Reference.words_padded signature)
                   ++ [size_line input_words]
                   ++ bld_closing)).
Proof.
  intros Hargc Hop Hin Hlen _ _ _ Hw Hmalloc Hwd _ Hsys _ signature n input_words record.
  destruct (small_size b Hlen) as (Hu & Hu64 & Hsize).
  assert (Hrec : Z.of_nat (length record) = (Z.of_nat n + 3) / 4 + 1).
  { subst record. rewrite length_app, Nat2Z.inj_add, words_padded_length. reflexivity. }
  split; [apply secure_boot_record_spec|]. split; [exact Hrec|]. split.
  { intros Hsg. assert (n = 256%nat) as Hn by (subst n signature; rewrite length_take; lia).
    rewrite Hn in Hrec. change ((Z.of_nat 256 + 3) / 4 + 1) with 65 in Hrec. lia. }
  rewrite (main_bld_branch e b Hargc Hop Hin Hsize Hw), Hu, Hu64.
  destruct (bld_vhd_unfold_any e (<[nth 3 (argv e) "" := []]> (files e)) b (warned b)
              Hlen Hmalloc) as (buf' & so' & E).
  rewrite E. clear E.
  destruct (sign_and_emit_signed e (<[nth 3 (argv e) "" := []]> (files e)) (sha256 b)
              (Z.of_nat (length b) / 4)
              (tx buf' b (length b) (text (bld_vhd_opening e b)) so') sg
              eq_refl Hwd Hsys) as (fs' & s' & E & _ & _ & Hout).
  rewrite E. cbv iota beta. cbn [res_outcome res_files].
  split; [reflexivity|]. rewrite lookup_insert_eq, Hout. cbn [output out_data tx].
  fold signature. fold n. fold input_words.
  rewrite secure_boot_lines_spec, !text_app, <- !app_assoc. reflexivity.
Qed.

(** The theorem above at a concrete input. *)
Lemma secure_boot_record_layout_witness :
  length (Reference.words_padded (take 256 (replicate 256 xa5)) ++ [8 / 4]) = 65%nat.
Proof.
  refine (proj1 (proj2 (proj2 (secure_boot_record_layout
            (Scenario.run "-bld_vhd" Scenario.two_words
                          (Scenario.signer_ok (replicate 256 xa5)))
            Scenario.two_words (replicate 256 xa5) _ _ _ _ _ _ _ _ _ _ _ _ _))) _).
  - right. reflexivity.
  - reflexivity.
  - reflexivity.
  - simpl. lia.
  - discriminate.
  - discriminate.
  - discriminate.
  - reflexivity.
  - reflexivity.
  - reflexivity.
  - intros cmd fs. reflexivity.
  - intros cmd fs. apply lookup_insert_eq.
  - discriminate.
  - reflexivity.
Defined.

(** C6, counterexample.  On the five-byte input [01 00 00 00 02] the
    branch counts two groups: the size is 8, not [4 * floor(5/4) = 4], and
    the checksum is not the one of the complete group alone. *)
Lemma app_bin_partial_group_not_dropped :
  let b := [x01; x00; x00; x00; x02] in
  let s := app_bin [x00; x00; x00; x00] (opened b) created in
  ab_size s <> 4 * (Z.of_nat (length b) / 4)
  /\ ab_checksum s <> Reference.checksum (take 4 b).
Proof. vm_compute. split; discriminate. Qed.

(** C6, amended.  For every input whose length is not a multiple of 4,
    [main] with [-app_bin] and an output file other than the input prints
    the warning and still ends with status 0;
    the loop runs once more for the partial last group: the payload is the
    whole input followed by the bytes that fill the last group, the size
    field is [4 * (floor(length/4) + 1)], that is 4 * ceil(length/4), and the checksum is
    taken over all the words of that payload. *)
Theorem app_bin_unaligned (e : env) (b : list byte) :
  (length (argv e) = 4 \/ length (argv e) = 5)%nat ->
  nth 1 (argv e) "" = "-app_bin" ->
  files e !! nth 2 (argv e) "" = Some b ->
  nth 3 (argv e) "" <> nth 2 (argv e) "" ->
  writable e (nth 3 (argv e) "") = true ->
  (length b mod 4 <> 0)%nat ->
  res_outcome (main e) = Exit 0
  /\ In size_warning (res_stdout (main e))
  /\ exists fill : list byte,
       Z.of_nat (length fill) = 4 - Z.of_nat (length b) mod 4
       /\ res_files (main e)
          = <[nth 3 (argv e) "" :=
                Reference.le32 0x4788CAFE
                ++ Reference.le32 (4 * (Z.of_nat (length b) / 4 + 1))
                ++ Reference.le32 (Reference.checksum (b ++ fill))
                ++ b ++ fill]> (files e).
Proof.
  intros Hargc Hop Hin _ Hw Hb.
  assert (Hr : Z.of_nat (length b) mod 4 <> 0).
  { change 4 with (Z.of_nat 4). rewrite <- Nat2Z.inj_mod. lia. }
  assert (Hsize : u32 (Z.of_nat (length b)) <> 0).
  { intros E. apply Hr. rewrite <- u32_mod4, E. reflexivity. }
  rewrite (main_app_bin e b Hargc Hop Hin Hsize Hw). cbn [res_outcome res_files res_stdout].
  destruct (Z.eqb_spec (Z.of_nat (length b) mod 4) 0) as [E|_]; [contradiction|].
  split; [reflexivity|]. split; [left; reflexivity|].
  destruct (app_bin_spec (buffer_init e) b) as (Hc & Hs & Ho & _).
  pose proof (app_bin_payload_length (buffer_init e) b) as Hl.
  unfold app_bin_payload in *.
  destruct (Nat.eqb_spec (length b mod 4) 0) as [E|_]; [contradiction|].
  set (fill := drop (length b mod 4) (previous_group (buffer_init e) b)) in *.
  exists fill. split.
  - rewrite length_app in Hl. Z.div_mod_to_equations. lia.
  - rewrite Ho, Hs, Hc, le32_u32, neg32_spec. do 3 f_equal.
    rewrite Hl. do 2 f_equal. Z.div_mod_to_equations. lia.
Qed.

(** The theorem above at a concrete input. *)
Lemma app_bin_unaligned_witness :
  In size_warning
     (res_stdout (main (Scenario.run "-app_bin" [x01; x00; x00; x00; x02]
                                     Scenario.signer_absent))).
Proof.
  refine (proj1 (proj2 (app_bin_unaligned
            (Scenario.run "-app_bin" [x01; x00; x00; x00; x02] Scenario.signer_absent)
            [x01; x00; x00; x00; x02] _ _ _ _ _ _))).
  - right. reflexivity.
  - reflexivity.
  - reflexivity.
  - discriminate.
  - reflexivity.
  - simpl. lia.
Defined.

(** C7, counterexample.  A message of 55 bytes leaves 56 bytes of data
    and marker in its last block, which is not fewer than 56; the code
    still processes one block, not two. *)
Lemma sha256_padding_55_bytes :
  let data := replicate 55 x61 in
  ~ (length (sha256_blocks data) - length data / 64
     = if (length data mod 64 + 1 <? 56) then 1 else 2)%nat.
Proof. vm_compute. discriminate. Qed.

(** C7, amended.  For every input, the blocks [sha256] processes are
    64 bytes each and their concatenation is the data, the byte 0x80,
    [z] zero bytes with [z] the least number that makes the length 56
    modulo 64, and the bit length as a 64-bit big-endian integer.  Beyond
    the complete blocks of the data there is exactly one block when the
    rest of the data has fewer than 56 bytes (at most 56 with the marker),
    and exactly two otherwise.  The digest is the block function iterated
    over these blocks. *)
Theorem sha256_padding (data : list byte) :
  let len := length data in
  let z := Reference.zero_count len in
  concat (sha256_blocks data)
  = data ++ [x80] ++ replicate z x00 ++ Reference.be64 (8 * Z.of_nat len)
  /\ (Z.of_nat len + 1 + Z.of_nat z) mod 64 = 56
  /\ (z < 64)%nat
  /\ Forall (fun block => length block = 64%nat) (sha256_blocks data)
  /\ length (sha256_blocks data)
     = (len / 64 + if (len mod 64 <? 56)%nat then 1 else 2)%nat
  /\ sha256 data
     = fold_left (fun h block => process_block h block 0) (sha256_blocks data) h_init.
Proof.
  intros len z.
  split; [exact (sha256_blocks_concat data)|].
  split; [|split; [|split; [exact (sha256_blocks_length64 data)|
                   split; [exact (sha256_blocks_count data)|]]]].
  - subst z. unfold Reference.zero_count.
    rewrite Z2Nat.id by (apply Z.mod_pos_bound; lia).
    Z.div_mod_to_equations. lia.
  - subst z. unfold Reference.zero_count.
    pose proof (Z.mod_pos_bound (55 - Z.of_nat len) 64 ltac:(lia)). lia.
  - apply (sha256_with_sim process_block (fun h b => process_block h b 0)).
    exact process_block_local.
Qed.

(** C8: the code does not do what the claim says.  The signer fails and
    leaves no signature file: [main] prints the two messages and is
    stopped at the access through the null stream, before the two
    [unlink] calls; the digest file is still there, with the eight
    digest words of the image. *)
Theorem signer_failure_leaves_digest_file :
  let r := main (Scenario.run "-bld_vhd" Scenario.two_words Scenario.signer_absent) in
  res_outcome r = Fault
  /\ res_stdout r = [ "OpenSSL signing failed!" +:+ nl;
                      "Failed to open signature file!" +:+ nl ]
  /\ res_files r !! "sha256.bin"
     = Some (concat (map Reference.le32 (sha256 Scenario.two_words))).
Proof. vm_compute. repeat split; reflexivity. Qed.

(** C9. For every input of length [L > 4] with [L mod 4 <> 0], writing
    [q = floor(L/4)] and [r = L mod 4]: the last read of the [-app_bin] loop
    obtains [r] bytes; [buffer] then holds these bytes followed by the
    bytes [r..3] of the previous group; the word of these four bytes is
    added to the sum the checksum negates; the four bytes are written
    after the complete groups; and the size is [4 * (q + 1)], that is
    4 * ceil(L/4), as a 32-bit value. *)
Theorem app_bin_trailing_group (buffer b : list byte) :
  (4 < length b)%nat ->
  (length b mod 4 <> 0)%nat ->
  let q := (length b / 4)%nat in
  let r := (length b mod 4)%nat in
  let previous := take 4 (drop (4 * (q - 1)) b) in
  let last := drop (4 * q) b ++ drop r previous in
  let s := app_bin buffer (opened b) created in
  length (fst (fread 4 {| in_data := b; in_pos := 4 * q |})) = r
  /\ window (ab_buffer s) = last
  /\ length last = 4%nat
  /\ ab_checksum s
     = u32 (not32 (u32 (Reference.sum (Reference.words (take (4 * q) b))
                        + Reference.sum (Reference.words last))) + 1)
  /\ ab_size s = u32 (4 * (Z.of_nat q + 1))
  /\ 4 * (Z.of_nat q + 1) = 4 * ((Z.of_nat (length b) + 3) / 4)
  /\ out_data (ab_output s)
     = Reference.le32 signature ++ Reference.le32 (ab_size s)
       ++ Reference.le32 (ab_checksum s) ++ take (4 * q) b ++ last.
Proof.
  intros Hlen Hr q r previous last s.
  pose proof (Nat.div_mod_eq (length b) 4) as Hd.
  pose proof (Nat.mod_upper_bound (length b) 4 ltac:(lia)) as Hu.
  fold q r in Hd, Hu.
  assert (Hq : (0 < q)%nat) by lia.
  destruct (app_bin_spec buffer b) as (Hc & Hs & Ho & Hw).
  pose proof (app_bin_payload_length buffer b) as Hl.
  fold s in Hc, Hs, Ho, Hw.
  assert (Hprev : previous_group buffer b = previous).
  { unfold previous_group. fold q. destruct (Nat.eqb_spec q 0); [lia|reflexivity]. }
  assert (Hpay : app_bin_payload buffer b = take (4 * q) b ++ last).
  { unfold app_bin_payload. fold r. destruct (Nat.eqb_spec r 0); [contradiction|].
    rewrite Hprev. subst last. rewrite app_assoc, take_drop. reflexivity. }
  assert (Hfull : length (take (4 * q) b) = (4 * q)%nat) by (rewrite length_take; lia).
  assert (Hlast : length last = 4%nat).
  { subst last previous. rewrite length_app, !length_drop, length_take, length_drop. lia. }
  split; [|split; [|split; [|split; [|split; [|split]]]]].
  - unfold fread. cbn [fst in_data in_pos]. rewrite length_take, length_drop. lia.
  - rewrite Hw by exact Hr. fold q r. rewrite Hprev. reflexivity.
  - exact Hlast.
  - rewrite Hc, Hpay, (words_app q) by exact Hfull. rewrite sum_app. reflexivity.
  - rewrite Hs, Hpay, length_app, Hfull, Hlast. f_equal. lia.
  - Z.div_mod_to_equations. lia.
  - rewrite Ho, Hpay. reflexivity.
Qed.

(** The theorem above at a concrete input. *)
Lemma app_bin_trailing_group_witness :
  ab_size (app_bin [] (opened [x01; x00; x00; x00; x02; x03]) created) = 8.
Proof.
  refine (proj1 (proj2 (proj2 (proj2 (proj2
            (app_bin_trailing_group [] [x01; x00; x00; x00; x02; x03] _ _)))))).
  - simpl. lia.
  - simpl. lia.
Defined.

(** C10. For every run that reaches the opening of the input file (the
    argument count is 4 or 5 and the operation is a valid one) and whose
    input file opens and is empty, [main] returns -3 with the file system
    as it found it: the output file is never opened, and the result does
    not depend on the signer, on [malloc] or on what can be written. *)
Theorem main_empty_input (e : env) (operation : operation_enum) :
  (length (argv e) = 4 \/ length (argv e) = 5)%nat ->
  select_operation (nth 1 (argv e) "") = Some operation ->
  files e !! nth 2 (argv e) "" = Some [] ->
  main e
  = {| res_outcome := Exit (-3);
       res_files := files e;
       res_stdout := ["Input file is empty (" +:+ nth 2 (argv e) "" +:+ ")!" +:+ nl] |}.
Proof.
  intros Hargc Hop Hin. unfold main.
  assert ((length (argv e) =? 4)%nat || (length (argv e) =? 5)%nat = true) as ->.
  { destruct Hargc as [-> | ->]; reflexivity. }
  cbn [negb]. rewrite Hop, Hin. reflexivity.
Qed.

(** The theorem above at a concrete input. *)
Lemma main_empty_input_witness :
  res_outcome (main (Scenario.run "-bld_vhd" [] Scenario.signer_absent)) = Exit (-3)
  /\ res_files (main (Scenario.run "-bld_vhd" [] Scenario.signer_absent))
     = files (Scenario.run "-bld_vhd" [] Scenario.signer_absent).
Proof.
  rewrite (main_empty_input (Scenario.run "-bld_vhd" [] Scenario.signer_absent) OP_BLD_VHD).
  - split; reflexivity.
  - right. reflexivity.
  - reflexivity.
  - reflexivity.
Defined.


(** * Further properties *)

(** ** The checks of [main] *)

(** X1. With a number of arguments other than 4 or 5, [main] prints the
    usage text and returns 0, the status of a successful run; it looks at
    no file. *)
Theorem main_usage (e : env) :
  length (argv e) <> 4%nat -> length (argv e) <> 5%nat ->
  main e = {| res_outcome := Exit 0; res_files := files e; res_stdout := [usage] |}.
Proof. exact (main_wrong_argc e). Qed.

(** The theorem above at a concrete input. *)
Lemma main_usage_witness :
  res_outcome
    (main {| argv := ["image_gen"; "-app_bin"; "main.bin"];
             files := {[ "main.bin" := Scenario.two_words ]};
             writable := fun _ => true;
             malloc_ok := true;
             system := fun _ => Scenario.signer_absent;
             compile_time := "01.01.2025 12:00:00";
             buffer_init := [] |})
  = Exit 0.
Proof.
  rewrite main_usage.
  - reflexivity.
  - discriminate.
  - discriminate.
Defined.

(** X2. The statuses -1 to -4 tell the checks of [main] apart, in the
    order of the source: -1 exactly when the operation is none of the
    eight names; -2 exactly when the operation is valid and the input
    file does not open; -3 exactly when it opens with a size that is 0 as
    an [unsigned int]; -4 exactly when the input is not empty and the
    output file does not open. *)
Theorem main_failure_status (e : env) :
  (length (argv e) = 4 \/ length (argv e) = 5)%nat ->
  let op_ok := In (nth 1 (argv e) "") operation_names in
  let infile := files e !! nth 2 (argv e) "" in
  (res_outcome (main e) = Exit (-1) <-> ~ op_ok)
  /\ (res_outcome (main e) = Exit (-2) <-> op_ok /\ infile = None)
  /\ (res_outcome (main e) = Exit (-3)
      <-> op_ok /\ exists b, infile = Some b /\ u32 (Z.of_nat (length b)) = 0)
  /\ (res_outcome (main e) = Exit (-4)
      <-> op_ok /\ (exists b, infile = Some b /\ u32 (Z.of_nat (length b)) <> 0)
          /\ writable e (nth 3 (argv e) "") = false).
Proof.
  intros Hargc op_ok infile. subst op_ok infile.
  destruct (main_cases e Hargc)
    as [(Hop & Ho & _)|[(Hop & Hin & Ho & _)|[(Hop & (b & Hin & Hs) & Ho & _)
        |[(Hop & (b & Hin & Hs) & Hw & Ho & _)|(Hop & (b & Hin & Hs) & Hw & Ho & _)]]]];
    [| | | |destruct Ho as [Ho|[Ho|[Ho|Ho]]]]; rewrite Ho; clear Ho;
    try rewrite Hin; try rewrite Hw;
    (repeat match goal with |- _ /\ _ => split end);
    (split; [intros E; try discriminate E
            |intros E; try reflexivity; exfalso;
             repeat match goal with
                    | H : _ /\ _ |- _ => destruct H
                    | H : exists _, _ |- _ => destruct H
                    end; try discriminate; try congruence; try tauto]);
    try tauto; eauto.
Qed.

(** The theorem above at a concrete input. *)
Lemma main_failure_status_witness :
  res_outcome (main (Scenario.run "-raw_txt" Scenario.two_words Scenario.signer_absent))
  = Exit (-1).
Proof.
  pose proof (main_failure_status
                (Scenario.run "-raw_txt" Scenario.two_words Scenario.signer_absent)
                (or_intror eq_refl)) as H.
  cbv zeta in H. apply (proj1 H).
  unfold operation_names. cbn [In nth argv Scenario.run].
  intros [E|[E|[E|[E|[E|[E|[E|[E|[]]]]]]]]]; discriminate E.
Defined.

(** X3. A run that ends with one of the statuses -1 to -4 has changed
    nothing: no file has been created, truncated or removed. *)
Theorem main_failure_no_effect (e : env) (status : Z) :
  res_outcome (main e) = Exit status -> -4 <= status <= -1 ->
  res_files (main e) = files e.
Proof.
  intros Ho Hs.
  destruct (Nat.eq_dec (length (argv e)) 4%nat) as [H4|H4];
    [|destruct (Nat.eq_dec (length (argv e)) 5%nat) as [H5|H5]].
  3: { rewrite (main_wrong_argc e H4 H5). reflexivity. }
  all: (destruct (main_cases e ltac:(tauto))
         as [(_ & _ & F)|[(_ & _ & _ & F)|[(_ & _ & _ & F)|[(_ & _ & _ & _ & F)|(_ & _ & _ & L & _)]]]];
        try exact F);
       destruct L as [L|[L|[L|L]]]; rewrite L in Ho; inversion Ho; lia.
Qed.

(** The theorem above at a concrete input. *)
Lemma main_failure_no_effect_witness :
  let e := {| argv := ["image_gen"; "-app_bin"; "absent.bin"; "main.out"];
              files := {[ "main.bin" := Scenario.two_words ]};
              writable := fun _ => true;
              malloc_ok := true;
              system := fun _ => Scenario.signer_absent;
              compile_time := "01.01.2025 12:00:00";
              buffer_init := [] |} in
  res_files (main e) = files e.
Proof.
  intros e. apply (main_failure_no_effect e (-2)).
  - reflexivity.
  - lia.
Defined.

(** X4. [main] leaves every file alone but the output file and, with
    [-bld_vhd], the two temporary files and what the signer changes: any
    other path holds after the run what it held before, whatever the
    operation and however the run ends. *)
Theorem main_other_files_untouched (e : env) (p : string) :
  p <> nth 3 (argv e) "" ->
  (nth 1 (argv e) "" = "-bld_vhd" ->
   p <> "sha256.bin" /\ p <> SIGNATURE_FILE
   /\ forall cmd fs, (system e cmd fs).2 !! p = fs !! p) ->
  res_files (main e) !! p = files e !! p.
Proof.
  intros Hp Hbld.
  destruct (Nat.eq_dec (length (argv e)) 4%nat) as [H4|H4];
    [|destruct (Nat.eq_dec (length (argv e)) 5%nat) as [H5|H5]].
  3: { rewrite (main_wrong_argc e H4 H5). reflexivity. }
  all: destruct (main_cases e ltac:(tauto))
         as [(_ & _ & F)|[(_ & _ & _ & F)|[(_ & _ & _ & F)|[(_ & _ & _ & _ & F)
             |(_ & _ & _ & _ & F)]]]];
       try (rewrite F; reflexivity); apply F; assumption.
Qed.

(** The theorem above at a concrete input. *)
Lemma main_other_files_untouched_witness :
  res_files (main (Scenario.run "-app_bin" Scenario.two_words Scenario.signer_absent))
    !! "main.bin"
  = Some Scenario.two_words.
Proof.
  rewrite (main_other_files_untouched
             (Scenario.run "-app_bin" Scenario.two_words Scenario.signer_absent) "main.bin").
  - reflexivity.
  - discriminate.
  - intros H. discriminate H.
Defined.

(** ** The raw formats *)

(** X5. [-raw_bin] copies the input: for every non-empty input (of a size
    that fits [unsigned int]) the run ends with status 0 and the output
    file holds exactly the bytes of the input, aligned or not. *)
Theorem raw_bin_copies_input (e : env) (b : list byte) :
  (length (argv e) = 4 \/ length (argv e) = 5)%nat ->
  nth 1 (argv e) "" = "-raw_bin" ->
  files e !! nth 2 (argv e) "" = Some b ->
  nth 3 (argv e) "" <> nth 2 (argv e) "" ->
  writable e (nth 3 (argv e) "") = true ->
  0 < Z.of_nat (length b) < 2 ^ 32 ->
  main e
  = {| res_outcome := Exit 0;
       res_files := <[nth 3 (argv e) "" := b]> (files e);
       res_stdout := warned b |}.
Proof.
  intros Hargc Hop Hin _ Hw Hlen.
  destruct (small_size b Hlen) as (_ & _ & Hsize).
  rewrite (main_text_branch e b OP_RAW_BIN raw_bin Hargc) by (rewrite ?Hop; done).
  unfold raw_bin. change (in_data (input (tx _ b 0 [] _))) with b.
  destruct (raw_bin_loop_spec (length b) (S (length b)) (buffer_init e) b 0 [] (warned b))
    as (buf' & E); [reflexivity|lia|].
  rewrite E. reflexivity.
Qed.

(** The theorem above at a concrete input. *)
Lemma raw_bin_copies_input_witness :
  res_files (main (Scenario.run "-raw_bin" [x01; x02; x03; x04; x05] Scenario.signer_absent))
    !! "main.out"
  = Some [x01; x02; x03; x04; x05].
Proof.
  rewrite (raw_bin_copies_input
             (Scenario.run "-raw_bin" [x01; x02; x03; x04; x05] Scenario.signer_absent)
             [x01; x02; x03; x04; x05]).
  - reflexivity.
  - right. reflexivity.
  - reflexivity.
  - reflexivity.
  - discriminate.
  - reflexivity.
  - simpl. lia.
Defined.

(** X6. [-raw_hex] writes one line of eight lower-case hexadecimal digits
    for every little-endian word of the input; a partial last group is
    completed with the bytes the previous group left in [buffer], as in
    the payload of [-app_bin]. *)
Theorem raw_hex_lines (e : env) (b : list byte) :
  (length (argv e) = 4 \/ length (argv e) = 5)%nat ->
  nth 1 (argv e) "" = "-raw_hex" ->
  files e !! nth 2 (argv e) "" = Some b ->
  nth 3 (argv e) "" <> nth 2 (argv e) "" ->
  writable e (nth 3 (argv e) "") = true ->
  0 < Z.of_nat (length b) < 2 ^ 32 ->
  main e
  = {| res_outcome := Exit 0;
       res_files :=
         <[nth 3 (argv e) "" :=
             text (map (fun w => hex8 w +:+ nl)
                       (Reference.words (app_bin_payload (buffer_init e) b)))]> (files e);
       res_stdout := warned b |}.
Proof. intros Hargc Hop Hin _ Hw Hlen. exact (main_raw_hex e b Hargc Hop Hin Hw Hlen). Qed.

(** The theorem above at a concrete input. *)
Lemma raw_hex_lines_witness :
  res_files (main (Scenario.run "-raw_hex" Scenario.two_words Scenario.signer_absent))
    !! "main.out"
  = Some (list_byte_of_string ("00000001" +:+ nl +:+ "00000002" +:+ nl)).
Proof.
  rewrite (raw_hex_lines
             (Scenario.run "-raw_hex" Scenario.two_words Scenario.signer_absent)
             Scenario.two_words).
  - reflexivity.
  - right. reflexivity.
  - reflexivity.
  - reflexivity.
  - discriminate.
  - reflexivity.
  - simpl. lia.
Defined.

(** X7. [-raw_hex] loses nothing of an input whose size is a multiple
    of 4: two runs that leave the same text in their output files had
    the same input. *)
Theorem raw_hex_injective (e e' : env) (b b' : list byte) :
  (length (argv e) = 4 \/ length (argv e) = 5)%nat ->
  (length (argv e') = 4 \/ length (argv e') = 5)%nat ->
  nth 1 (argv e) "" = "-raw_hex" -> nth 1 (argv e') "" = "-raw_hex" ->
  files e !! nth 2 (argv e) "" = Some b -> files e' !! nth 2 (argv e') "" = Some b' ->
  nth 3 (argv e) "" <> nth 2 (argv e) "" -> nth 3 (argv e') "" <> nth 2 (argv e') "" ->
  writable e (nth 3 (argv e) "") = true -> writable e' (nth 3 (argv e') "") = true ->
  0 < Z.of_nat (length b) < 2 ^ 32 -> 0 < Z.of_nat (length b') < 2 ^ 32 ->
  (length b mod 4 = 0)%nat -> (length b' mod 4 = 0)%nat ->
  res_files (main e) !! nth 3 (argv e) "" = res_files (main e') !! nth 3 (argv e') "" ->
  b = b'.
Proof.
  intros Hargc Hargc' Hop Hop' Hin Hin' _ _ Hw Hw' Hlen Hlen' Hb Hb' E.
  rewrite (main_raw_hex e b Hargc Hop Hin Hw Hlen),
          (main_raw_hex e' b' Hargc' Hop' Hin' Hw' Hlen') in E.
  cbn [res_files] in E. rewrite !lookup_insert_eq in E.
  rewrite !app_bin_payload_aligned in E by assumption.
  injection E as E.
  pose proof (Nat.div_mod_eq (length b) 4) as Hd.
  pose proof (Nat.div_mod_eq (length b') 4) as Hd'.
  assert (Hk : length b = (4 * (length b / 4))%nat) by lia.
  assert (Hk' : length b' = (4 * (length b' / 4))%nat) by lia.
  apply hex_lines_inj in E; [|apply (words_range _ _ Hk)|apply (words_range _ _ Hk')].
  rewrite <- (words_bytes _ b Hk), <- (words_bytes _ b' Hk'), E. reflexivity.
Qed.

(** The theorem above at a concrete input. *)
Lemma raw_hex_injective_witness : Scenario.two_words = Scenario.two_words.
Proof.
  apply (raw_hex_injective
           (Scenario.run "-raw_hex" Scenario.two_words Scenario.signer_absent)
           (Scenario.run "-raw_hex" Scenario.two_words Scenario.signer_absent)).
  - right. reflexivity.
  - right. reflexivity.
  - reflexivity.
  - reflexivity.
  - reflexivity.
  - reflexivity.
  - discriminate.
  - discriminate.
  - reflexivity.
  - reflexivity.
  - simpl. lia.
  - simpl. lia.
  - reflexivity.
  - reflexivity.
  - reflexivity.
Defined.

(** X8. [-raw_coe] writes the two header lines and one line for every
    word; the line of index [input_words - 1] ends with the semicolon
    that closes the vector, every other line with a comma. *)
Theorem raw_coe_lines (e : env) (b : list byte) :
  (length (argv e) = 4 \/ length (argv e) = 5)%nat ->
  nth 1 (argv e) "" = "-raw_coe" ->
  files e !! nth 2 (argv e) "" = Some b ->
  nth 3 (argv e) "" <> nth 2 (argv e) "" ->
  writable e (nth 3 (argv e) "") = true ->
  0 < Z.of_nat (length b) < 2 ^ 32 ->
  main e
  = {| res_outcome := Exit 0;
       res_files :=
         <[nth 3 (argv e) "" :=
             text ([ "memory_initialization_radix=16;" +:+ nl;
                     "memory_initialization_vector=" +:+ nl ]
                   ++ imap (fun j w =>
                              if Z.of_nat j =? Z.of_nat (length b) / 4 - 1
                              then hex8 w +:+ ";" +:+ nl
                              else hex8 w +:+ "," +:+ nl)
                           (Reference.words (app_bin_payload (buffer_init e) b)))]>
           (files e);
       res_stdout := warned b |}.
Proof. intros Hargc Hop Hin _ Hw Hlen. exact (main_raw_coe e b Hargc Hop Hin Hw Hlen). Qed.

(** The theorem above at a concrete input. *)
Lemma raw_coe_lines_witness :
  res_files (main (Scenario.run "-raw_coe" Scenario.two_words Scenario.signer_absent))
    !! "main.out"
  = Some (list_byte_of_string
            ("memory_initialization_radix=16;" +:+ nl
             +:+ "memory_initialization_vector=" +:+ nl
             +:+ "00000001," +:+ nl +:+ "00000002;" +:+ nl)).
Proof.
  rewrite (raw_coe_lines
             (Scenario.run "-raw_coe" Scenario.two_words Scenario.signer_absent)
             Scenario.two_words).
  - reflexivity.
  - right. reflexivity.
  - reflexivity.
  - reflexivity.
  - discriminate.
  - reflexivity.
  - simpl. lia.
Defined.

(** X9. The vector of a [-raw_coe] file is closed on its last line only
    when the size of the input is a multiple of 4: otherwise the last
    line, the one of the partial group, ends with a comma. *)
Theorem raw_coe_terminator (e : env) (b : list byte) :
  (length (argv e) = 4 \/ length (argv e) = 5)%nat ->
  nth 1 (argv e) "" = "-raw_coe" ->
  files e !! nth 2 (argv e) "" = Some b ->
  nth 3 (argv e) "" <> nth 2 (argv e) "" ->
  writable e (nth 3 (argv e) "") = true ->
  0 < Z.of_nat (length b) < 2 ^ 32 ->
  exists (lines : list string) (w : Z),
    res_files (main e) !! nth 3 (argv e) ""
    = Some (text (lines
                  ++ [hex8 w +:+ (if Z.of_nat (length b) mod 4 =? 0 then ";" else ",")
                      +:+ nl])).
Proof.
  intros Hargc Hop Hin _ Hw Hlen.
  rewrite (main_raw_coe e b Hargc Hop Hin Hw Hlen). cbn [res_files].
  rewrite lookup_insert_eq.
  pose proof (payload_words_length (buffer_init e) b) as Hn.
  set (ws := Reference.words (app_bin_payload (buffer_init e) b)) in *.
  assert (Hne : ws <> []).
  { intros E. rewrite E in Hn. cbn [length] in Hn. Z.div_mod_to_equations. lia. }
  destruct (exists_last Hne) as (l & w0 & El). rewrite El in *. clear El Hne.
  rewrite length_app in Hn. cbn [length] in Hn.
  rewrite imap_app. cbn [imap]. rewrite Nat.add_0_r.
  set (pre := imap _ l).
  exists ([ "memory_initialization_radix=16;" +:+ nl;
            "memory_initialization_vector=" +:+ nl ] ++ pre), w0.
  rewrite <- app_assoc. do 4 f_equal.
  destruct (Z.eqb_spec (Z.of_nat (length b) mod 4) 0) as [E|E],
           (Z.eqb_spec (Z.of_nat (length l)) (Z.of_nat (length b) / 4 - 1)) as [E'|E'];
    try reflexivity; exfalso; Z.div_mod_to_equations; lia.
Qed.

(** The theorem above at a concrete input. *)
Lemma raw_coe_terminator_witness :
  exists (lines : list string) (w : Z),
    res_files (main (Scenario.run "-raw_coe" [x01; x00; x00; x00; x02] Scenario.signer_absent))
      !! "main.out"
    = Some (text (lines ++ [hex8 w +:+ "," +:+ nl])).
Proof.
  refine (raw_coe_terminator
            (Scenario.run "-raw_coe" [x01; x00; x00; x00; x02] Scenario.signer_absent)
            [x01; x00; x00; x00; x02] _ _ _ _ _ _).
  - right. reflexivity.
  - reflexivity.
  - reflexivity.
  - discriminate.
  - reflexivity.
  - simpl. lia.
Defined.

(** X10. [-raw_mem] writes one line [@address word] for every word, the
    address being the index of the word, both as eight hexadecimal
    digits. *)
Theorem raw_mem_lines (e : env) (b : list byte) :
  (length (argv e) = 4 \/ length (argv e) = 5)%nat ->
  nth 1 (argv e) "" = "-raw_mem" ->
  files e !! nth 2 (argv e) "" = Some b ->
  nth 3 (argv e) "" <> nth 2 (argv e) "" ->
  writable e (nth 3 (argv e) "") = true ->
  0 < Z.of_nat (length b) < 2 ^ 32 ->
  main e
  = {| res_outcome := Exit 0;
       res_files :=
         <[nth 3 (argv e) "" :=
             text (imap (fun j w => "@" +:+ hex8 (Z.of_nat j) +:+ " " +:+ hex8 w +:+ nl)
                        (Reference.words (app_bin_payload (buffer_init e) b)))]>
           (files e);
       res_stdout := warned b |}.
Proof.
  intros Hargc Hop Hin _ Hw Hlen.
  destruct (small_size b Hlen) as (_ & _ & Hsize).
  rewrite (main_text_branch e b OP_RAW_MEM raw_mem Hargc) by (rewrite ?Hop; done).
  unfold raw_mem.
  match goal with |- context [raw_words ?l _] =>
    destruct (raw_words_spec l (buffer_init e) b [] (warned b)) as (buf' & E);
      [intros; apply snprintf_mem_line|]
  end.
  rewrite E. cbn [output out_data stdout tx app].
  pose proof (payload_words_length (buffer_init e) b) as Hn.
  rewrite numbered_imap by (rewrite Hn; Z.div_mod_to_equations; lia).
  reflexivity.
Qed.

(** The theorem above at a concrete input. *)
Lemma raw_mem_lines_witness :
  res_files (main (Scenario.run "-raw_mem" Scenario.two_words Scenario.signer_absent))
    !! "main.out"
  = Some (list_byte_of_string
            ("@00000000 00000001" +:+ nl +:+ "@00000001 00000002" +:+ nl)).
Proof.
  rewrite (raw_mem_lines
             (Scenario.run "-raw_mem" Scenario.two_words Scenario.signer_absent)
             Scenario.two_words).
  - reflexivity.
  - right. reflexivity.
  - reflexivity.
  - reflexivity.
  - discriminate.
  - reflexivity.
  - simpl. lia.
Defined.

(** X11. [-raw_mif] writes the six header lines, one line
    [address : word;] for every word, and [END;].  [DEPTH] is the size of
    the input divided by 4 and rounded down, while a partial last group
    has a content line of its own. *)
Theorem raw_mif_lines (e : env) (b : list byte) :
  (length (argv e) = 4 \/ length (argv e) = 5)%nat ->
  nth 1 (argv e) "" = "-raw_mif" ->
  files e !! nth 2 (argv e) "" = Some b ->
  nth 3 (argv e) "" <> nth 2 (argv e) "" ->
  writable e (nth 3 (argv e) "") = true ->
  0 < Z.of_nat (length b) < 2 ^ 32 ->
  main e
  = {| res_outcome := Exit 0;
       res_files :=
         <[nth 3 (argv e) "" :=
             text ([ snprintf 1024 ("DEPTH = " +:+ dec (Z.of_nat (length b) / 4) +:+ ";" +:+ nl);
                     "WIDTH = 32;" +:+ nl;
                     "ADDRESS_RADIX = HEX;" +:+ nl;
                     "DATA_RADIX = HEX;" +:+ nl;
                     "CONTENT" +:+ nl;
                     "BEGIN" +:+ nl ]
                   ++ imap (fun j w => hex8 (Z.of_nat j) +:+ " : " +:+ hex8 w +:+ ";" +:+ nl)
                           (Reference.words (app_bin_payload (buffer_init e) b))
                   ++ [ "END;" +:+ nl ])]>
           (files e);
       res_stdout := warned b |}.
Proof.
  intros Hargc Hop Hin _ Hw Hlen.
  destruct (small_size b Hlen) as (_ & Hu & Hsize).
  rewrite (main_text_branch e b OP_RAW_MIF (raw_mif (u64 (Z.of_nat (length b)))) Hargc)
    by (rewrite ?Hop; done).
  unfold raw_mif. rewrite !put_tx.
  pose proof snprintf_fixed as Hf.
  rewrite (Forall_lookup_1 _ _ 2%nat _ Hf eq_refl), (Forall_lookup_1 _ _ 3%nat _ Hf eq_refl),
    (Forall_lookup_1 _ _ 4%nat _ Hf eq_refl), (Forall_lookup_1 _ _ 5%nat _ Hf eq_refl),
    (Forall_lookup_1 _ _ 6%nat _ Hf eq_refl).
  match goal with |- context [raw_words ?l (tx ?bf _ _ ?od ?so)] =>
    destruct (raw_words_spec l bf b od so) as (buf' & E); [intros; apply snprintf_mif_line|]
  end.
  rewrite E, put_tx, (Forall_lookup_1 _ _ 7%nat _ Hf eq_refl).
  cbn [output out_data stdout tx].
  pose proof (payload_words_length (buffer_init e) b) as Hn.
  rewrite numbered_imap by (rewrite Hn; Z.div_mod_to_equations; lia).
  rewrite Hu. do 3 f_equal.
  rewrite !text_app, !text_cons, text_nil, <- !app_assoc, app_nil_r. reflexivity.
Qed.

(** The theorem above at a concrete input. *)
Lemma raw_mif_lines_witness :
  res_files (main (Scenario.run "-raw_mif" [x01; x00; x00; x00; x02] Scenario.signer_absent))
    !! "main.out"
  = Some (list_byte_of_string
            ("DEPTH = 1;" +:+ nl +:+ "WIDTH = 32;" +:+ nl +:+ "ADDRESS_RADIX = HEX;" +:+ nl
             +:+ "DATA_RADIX = HEX;" +:+ nl +:+ "CONTENT" +:+ nl +:+ "BEGIN" +:+ nl
             +:+ "00000000 : 00000001;" +:+ nl +:+ "00000001 : 00000002;" +:+ nl
             +:+ "END;" +:+ nl)).
Proof.
  rewrite (raw_mif_lines
             (Scenario.run "-raw_mif" [x01; x00; x00; x00; x02] Scenario.signer_absent)
             [x01; x00; x00; x00; x02]).
  - reflexivity.
  - right. reflexivity.
  - reflexivity.
  - reflexivity.
  - discriminate.
  - reflexivity.
  - simpl. lia.
Defined.

(** ** The VHDL packages *)

(** X12. [-app_vhd] on an input of at least four bytes writes the header
    (cut to the 1023 characters [tmp_string] can hold), one line for
    every complete group of four bytes, each but the last followed by a
    comma, and the end of the package.  The bytes of a partial last
    group are not read, although the header announces the whole size. *)
Theorem app_vhd_package (e : env) (b : list byte) :
  (length (argv e) = 4 \/ length (argv e) = 5)%nat ->
  nth 1 (argv e) "" = "-app_vhd" ->
  files e !! nth 2 (argv e) "" = Some b ->
  nth 3 (argv e) "" <> nth 2 (argv e) "" ->
  writable e (nth 3 (argv e) "") = true ->
  4 <= Z.of_nat (length b) < 2 ^ 32 ->
  main e
  = {| res_outcome := Exit 0;
       res_files :=
         <[nth 3 (argv e) "" :=
             text ([ snprintf 1024
                       (app_vhd_header (project e) (nth 2 (argv e) "") (compile_time e)
                                       (Z.of_nat (length b))) ]
                   ++ vhd_lines (Reference.words (take (4 * (length b / 4)) b))
                   ++ [ app_vhd_footer ])]>
           (files e);
       res_stdout := warned b |}.
Proof.
  intros Hargc Hop Hin _ Hw Hlen.
  destruct (small_size b ltac:(lia)) as (Hu & Hu64 & Hsize).
  rewrite (main_text_branch e b OP_APP_VHD _ Hargc ltac:(rewrite Hop; reflexivity)
             Hin Hsize Hw eq_refl).
  unfold app_vhd. rewrite Hu, Hu64, put_tx.
  match goal with |- context [vhd_image _ (tx ?bf _ _ ?od ?so)] =>
    destruct (vhd_image_spec bf b od so Hlen) as (buf' & E)
  end.
  rewrite E, put_tx.
  change (unlines [");"; ""; "end neorv32_application_image;"]) with app_vhd_footer.
  rewrite snprintf_app_vhd_footer. cbn [output out_data stdout tx].
  rewrite !text_app, !text_cons, text_nil, !app_nil_r, <- !app_assoc. reflexivity.
Qed.

(** The theorem above at a concrete input. *)
Lemma app_vhd_package_witness :
  res_outcome (main (Scenario.run "-app_vhd" Scenario.two_words Scenario.signer_absent))
  = Exit 0.
Proof.
  rewrite (app_vhd_package
             (Scenario.run "-app_vhd" Scenario.two_words Scenario.signer_absent)
             Scenario.two_words).
  - reflexivity.
  - right. reflexivity.
  - reflexivity.
  - reflexivity.
  - discriminate.
  - reflexivity.
  - simpl. lia.
Defined.

(** X13. [-app_vhd] on an input of one to three bytes: [input_words] is 0
    and the bound [input_words - 1] of the loop wraps around, so the
    loop prints the only word followed by a comma and fails to read a
    second one, and so does the statement for the last word.  The run
    still ends with status 0; the image in the file ends with a comma. *)
Theorem app_vhd_short_input (e : env) (b : list byte) :
  (length (argv e) = 4 \/ length (argv e) = 5)%nat ->
  nth 1 (argv e) "" = "-app_vhd" ->
  files e !! nth 2 (argv e) "" = Some b ->
  nth 3 (argv e) "" <> nth 2 (argv e) "" ->
  writable e (nth 3 (argv e) "") = true ->
  0 < Z.of_nat (length b) < 4 ->
  main e
  = {| res_outcome := Exit 0;
       res_files :=
         <[nth 3 (argv e) "" :=
             text [ snprintf 1024
                      (app_vhd_header (project e) (nth 2 (argv e) "") (compile_time e)
                                      (Z.of_nat (length b)));
                    comma_line (buffer_word (memcpy (buffer_init e) b (length b)));
                    app_vhd_footer ]]>
           (files e);
       res_stdout := [size_warning; unexpected_end; unexpected_end] |}.
Proof.
  intros Hargc Hop Hin _ Hw Hlen.
  destruct (small_size b ltac:(lia)) as (Hu & Hu64 & Hsize).
  rewrite (main_text_branch e b OP_APP_VHD _ Hargc ltac:(rewrite Hop; reflexivity)
             Hin Hsize Hw eq_refl).
  unfold app_vhd. rewrite Hu, Hu64, put_tx.
  match goal with |- context [vhd_image _ (tx ?bf _ _ ?od ?so)] =>
    destruct (vhd_image_short bf b od so Hlen) as (buf' & E)
  end.
  rewrite E, put_tx, (short_payload_words (buffer_init e) b Hlen).
  change (unlines [");"; ""; "end neorv32_application_image;"]) with app_vhd_footer.
  rewrite snprintf_app_vhd_footer. cbn [output out_data stdout tx map].
  assert (Hwarn : warned b = [size_warning]).
  { unfold warned. rewrite Z.mod_small by lia.
    destruct (Z.eqb_spec (Z.of_nat (length b)) 0); [lia|reflexivity]. }
  rewrite Hwarn, !text_cons, text_nil, !app_nil_r, <- !app_assoc. reflexivity.
Qed.

(** The theorem above at a concrete input. *)
Lemma app_vhd_short_input_witness :
  res_stdout (main (Scenario.run "-app_vhd" [x01; x02] Scenario.signer_absent))
  = [size_warning; unexpected_end; unexpected_end].
Proof.
  rewrite (app_vhd_short_input
             (Scenario.run "-app_vhd" [x01; x02] Scenario.signer_absent) [x01; x02]).
  - reflexivity.
  - right. reflexivity.
  - reflexivity.
  - reflexivity.
  - discriminate.
  - reflexivity.
  - simpl. lia.
Defined.

(** X14. When the signer leaves a signature file, [-bld_vhd] (on an input
    of at least four bytes, with an output file that is neither the input
    nor one of the two temporary files) ends with status 0 and the output
    file is,
    in this order: the header, which announces the size of the input
    plus 260 bytes whatever the length of the signature; the words of the
    complete groups of the input; the two lines between the constants;
    the lines of the secure-boot information; the end of the package. *)
Theorem bld_vhd_package (e : env) (b sg : list byte) :
  (length (argv e) = 4 \/ length (argv e) = 5)%nat ->
  nth 1 (argv e) "" = "-bld_vhd" ->
  files e !! nth 2 (argv e) "" = Some b ->
  nth 3 (argv e) "" <> nth 2 (argv e) "" ->
  writable e (nth 3 (argv e) "") = true ->
  4 <= Z.of_nat (length b) < 2 ^ 32 ->
  malloc_ok e = true ->
  writable e "sha256.bin" = true ->
  (forall cmd fs, (system e cmd fs).2 !! SIGNATURE_FILE = Some sg) ->
  nth 3 (argv e) "" <> "sha256.bin" ->
  nth 3 (argv e) "" <> SIGNATURE_FILE ->
  res_outcome (main e) = Exit 0
  /\ res_files (main e) !! nth 3 (argv e) ""
     = Some (text (bld_vhd_prefix e b
                   ++ secure_boot_lines (take 256 sg) (length (take 256 sg))
                        (Z.of_nat (length b) / 4)
                   ++ bld_closing)).
Proof.
  intros Hargc Hop Hin _ Hw Hlen Hmalloc Hwd Hsys _ _.
  destruct (small_size b ltac:(lia)) as (Hu & Hu64 & Hsize).
  rewrite (main_bld_branch e b Hargc Hop Hin Hsize Hw), Hu, Hu64.
  destruct (bld_vhd_unfold e (<[nth 3 (argv e) "" := []]> (files e)) b (buffer_init e)
              (warned b) Hlen) as (buf' & E).
  rewrite E, Hmalloc. cbn [negb]. clear E.
  destruct (sign_and_emit_signed e (<[nth 3 (argv e) "" := []]> (files e)) (sha256 b)
              (Z.of_nat (length b) / 4)
              (tx buf' b (length b) (text (bld_vhd_prefix e b)) (warned b)) sg
              eq_refl Hwd Hsys) as (fs' & s' & E & _ & _ & Hout).
  rewrite E. cbv iota beta. cbn [res_outcome res_files].
  split; [reflexivity|]. rewrite lookup_insert_eq, Hout. cbn [output out_data tx].
  rewrite !text_app. reflexivity.
Qed.

(** The theorem above at a concrete input. *)
Lemma bld_vhd_package_witness :
  res_outcome
    (main (Scenario.run "-bld_vhd" Scenario.two_words (Scenario.signer_ok [x01; x02; x03])))
  = Exit 0.
Proof.
  refine (proj1 (bld_vhd_package
            (Scenario.run "-bld_vhd" Scenario.two_words (Scenario.signer_ok [x01; x02; x03]))
            Scenario.two_words [x01; x02; x03] _ _ _ _ _ _ _ _ _ _ _)).
  - right. reflexivity.
  - reflexivity.
  - reflexivity.
  - discriminate.
  - reflexivity.
  - simpl. lia.
  - reflexivity.
  - reflexivity.
  - intros cmd fs. apply lookup_insert_eq.
  - discriminate.
  - discriminate.
Defined.

(** X15. When [malloc] fails, [-bld_vhd] (on an input of at least four
    bytes) returns -5 after the image has been written: the output file
    is left with the header, the image and the opening of the
    secure-boot information, without a record and without the end of the
    package; no temporary file has been created and the signer has not
    been run. *)
Theorem bld_vhd_malloc_failure (e : env) (b : list byte) :
  (length (argv e) = 4 \/ length (argv e) = 5)%nat ->
  nth 1 (argv e) "" = "-bld_vhd" ->
  files e !! nth 2 (argv e) "" = Some b ->
  nth 3 (argv e) "" <> nth 2 (argv e) "" ->
  writable e (nth 3 (argv e) "") = true ->
  4 <= Z.of_nat (length b) < 2 ^ 32 ->
  malloc_ok e = false ->
  main e
  = {| res_outcome := Exit (-5);
       res_files := <[nth 3 (argv e) "" := text (bld_vhd_prefix e b)]> (files e);
       res_stdout := warned b ++ ["Memory allocation failed!" +:+ nl] |}.
Proof.
  intros Hargc Hop Hin _ Hw Hlen Hmalloc.
  destruct (small_size b ltac:(lia)) as (Hu & Hu64 & Hsize).
  rewrite (main_bld_branch e b Hargc Hop Hin Hsize Hw), Hu, Hu64.
  destruct (bld_vhd_unfold e (<[nth 3 (argv e) "" := []]> (files e)) b (buffer_init e)
              (warned b) Hlen) as (buf' & E).
  rewrite E, Hmalloc. cbn [negb]. cbv iota beta.
  cbn [output out_data stdout tx]. rewrite insert_insert_eq. reflexivity.
Qed.

(** The theorem above at a concrete input. *)
Lemma bld_vhd_malloc_failure_witness :
  res_outcome
    (main {| argv := ["image_gen"; "-bld_vhd"; "main.bin"; "main.out"];
             files := {[ "main.bin" := Scenario.two_words ]};
             writable := fun _ => true;
             malloc_ok := false;
             system := fun _ => Scenario.signer_ok [];
             compile_time := "01.01.2025 12:00:00";
             buffer_init := [] |})
  = Exit (-5).
Proof.
  rewrite (bld_vhd_malloc_failure _ Scenario.two_words).
  - reflexivity.
  - left. reflexivity.
  - reflexivity.
  - reflexivity.
  - discriminate.
  - reflexivity.
  - simpl. lia.
  - reflexivity.
Defined.

(** X16. When the signer changes no file and no signature file exists,
    [-bld_vhd] prints
    [Failed to open signature file!] and goes on to read through the null
    stream, which stops the process; the temporary file [sha256.bin] is
    left behind, holding the eight words of the SHA-256 digest of the
    whole input, each as four little-endian bytes. *)
Theorem bld_vhd_signature_missing (e : env) (b : list byte) :
  (length (argv e) = 4 \/ length (argv e) = 5)%nat ->
  nth 1 (argv e) "" = "-bld_vhd" ->
  files e !! nth 2 (argv e) "" = Some b ->
  nth 3 (argv e) "" <> nth 2 (argv e) "" ->
  writable e (nth 3 (argv e) "") = true ->
  4 <= Z.of_nat (length b) < 2 ^ 32 ->
  malloc_ok e = true ->
  writable e "sha256.bin" = true ->
  (forall cmd fs, (system e cmd fs).2 = fs) ->
  files e !! SIGNATURE_FILE = None ->
  nth 3 (argv e) "" <> SIGNATURE_FILE ->
  res_outcome (main e) = Fault
  /\ res_files (main e) !! "sha256.bin" = Some (concat (map Reference.le32 (sha256 b)))
  /\ last (res_stdout (main e)) = Some ("Failed to open signature file!" +:+ nl).
Proof.
  intros Hargc Hop Hin _ Hw Hlen Hmalloc Hwd Hsys Hnosig Hout.
  destruct (small_size b ltac:(lia)) as (Hu & Hu64 & Hsize).
  rewrite (main_bld_branch e b Hargc Hop Hin Hsize Hw), Hu, Hu64.
  destruct (bld_vhd_unfold e (<[nth 3 (argv e) "" := []]> (files e)) b (buffer_init e)
              (warned b) Hlen) as (buf' & E).
  rewrite E, Hmalloc. cbn [negb]. clear E.
  unfold sign_and_emit. rewrite Hwd. cbn [negb].
  match goal with |- context [system e ?cmd ?fs] =>
    pose proof (Hsys cmd fs) as Hk; destruct (system e cmd fs) as [ret fs2]
  end.
  cbn [snd] in Hk. subst fs2.
  assert (Hsb : "sha256.bin" <> SIGNATURE_FILE) by (unfold SIGNATURE_FILE; discriminate).
  rewrite !lookup_insert_ne by (first [exact Hsb | exact Hout]). rewrite Hnosig.
  cbv iota beta. cbn [res_outcome res_files res_stdout].
  split; [reflexivity|]. split.
  - rewrite lookup_insert_eq, digest_file_bytes; [reflexivity|].
    apply sha256_digest_length.
  - destruct (negb (ret =? 0)); unfold print; cbn [stdout tx]; apply last_snoc.
Qed.

(** The theorem above at a concrete input. *)
Lemma bld_vhd_signature_missing_witness :
  res_outcome (main (Scenario.run "-bld_vhd" Scenario.two_words Scenario.signer_absent))
  = Fault.
Proof.
  refine (proj1 (bld_vhd_signature_missing
            (Scenario.run "-bld_vhd" Scenario.two_words Scenario.signer_absent)
            Scenario.two_words _ _ _ _ _ _ _ _ _ _ _)).
  - right. reflexivity.
  - reflexivity.
  - reflexivity.
  - discriminate.
  - reflexivity.
  - simpl. lia.
  - reflexivity.
  - reflexivity.
  - intros cmd fs. reflexivity.
  - reflexivity.
  - discriminate.
Defined.

(** X17. When [sha256.bin] cannot be opened for writing, [-bld_vhd] prints
    [Failed to open temp digest file!] and goes on to write through the
    null stream, which stops the process before the signer is run: no
    file but the output file has been touched. *)
Theorem bld_vhd_digest_file_unwritable (e : env) (b : list byte) :
  (length (argv e) = 4 \/ length (argv e) = 5)%nat ->
  nth 1 (argv e) "" = "-bld_vhd" ->
  files e !! nth 2 (argv e) "" = Some b ->
  nth 3 (argv e) "" <> nth 2 (argv e) "" ->
  writable e (nth 3 (argv e) "") = true ->
  4 <= Z.of_nat (length b) < 2 ^ 32 ->
  malloc_ok e = true ->
  writable e "sha256.bin" = false ->
  res_outcome (main e) = Fault
  /\ res_stdout (main e) = warned b ++ ["Failed to open temp digest file!" +:+ nl]
  /\ forall p, p <> nth 3 (argv e) "" -> res_files (main e) !! p = files e !! p.
Proof.
  intros Hargc Hop Hin _ Hw Hlen Hmalloc Hwd.
  destruct (small_size b ltac:(lia)) as (Hu & Hu64 & Hsize).
  rewrite (main_bld_branch e b Hargc Hop Hin Hsize Hw), Hu, Hu64.
  destruct (bld_vhd_unfold e (<[nth 3 (argv e) "" := []]> (files e)) b (buffer_init e)
              (warned b) Hlen) as (buf' & E).
  rewrite E, Hmalloc. cbn [negb]. clear E.
  unfold sign_and_emit. rewrite Hwd. cbn [negb]. cbv iota beta.
  cbn [res_outcome res_files res_stdout]. rewrite print_tx.
  split; [reflexivity|]. split; [reflexivity|].
  intros p Hp. rewrite lookup_insert_ne by done. reflexivity.
Qed.

(** The theorem above at a concrete input. *)
Lemma bld_vhd_digest_file_unwritable_witness :
  res_outcome
    (main {| argv := ["image_gen"; "-bld_vhd"; "main.bin"; "main.out"];
             files := {[ "main.bin" := Scenario.two_words ]};
             writable := fun p => String.eqb p "main.out";
             malloc_ok := true;
             system := fun _ => Scenario.signer_ok [];
             compile_time := "01.01.2025 12:00:00";
             buffer_init := [] |})
  = Fault.
Proof.
  refine (proj1 (bld_vhd_digest_file_unwritable _ Scenario.two_words _ _ _ _ _ _ _ _)).
  - left. reflexivity.
  - reflexivity.
  - reflexivity.
  - discriminate.
  - reflexivity.
  - simpl. lia.
  - reflexivity.
  - reflexivity.
Defined.

(** X18. After a run of [-bld_vhd] in which the signer leaves a signature
    file, no file named [sha256.bin] or [sha256.sig] exists, also when
    files of these names existed before the run (the output file apart,
    should it have one of these names). *)
Theorem bld_vhd_removes_temporary_files (e : env) (b sg : list byte) :
  (length (argv e) = 4 \/ length (argv e) = 5)%nat ->
  nth 1 (argv e) "" = "-bld_vhd" ->
  files e !! nth 2 (argv e) "" = Some b ->
  0 < Z.of_nat (length b) < 2 ^ 32 ->
  writable e (nth 3 (argv e) "") = true ->
  malloc_ok e = true ->
  writable e "sha256.bin" = true ->
  (forall cmd fs, (system e cmd fs).2 !! SIGNATURE_FILE = Some sg) ->
  nth 3 (argv e) "" <> nth 2 (argv e) "" ->
  nth 3 (argv e) "" <> "sha256.bin" ->
  nth 3 (argv e) "" <> SIGNATURE_FILE ->
  res_files (main e) !! "sha256.bin" = None
  /\ res_files (main e) !! SIGNATURE_FILE = None.
Proof.
  intros Hargc Hop Hin Hlen Hw Hmalloc Hwd Hsys _ Hb Hs.
  destruct (small_size b Hlen) as (_ & _ & Hsize).
  destruct (main_bld_vhd_signed e b sg Hargc Hop Hin Hsize Hw Hmalloc Hwd Hsys)
    as (_ & H1 & H2 & _).
  split; [apply H1, Hb|apply H2, Hs].
Qed.

(** The theorem above at a concrete input. *)
Lemma bld_vhd_removes_temporary_files_witness :
  res_files
    (main {| argv := ["image_gen"; "-bld_vhd"; "main.bin"; "main.out"];
             files := {[ "main.bin" := Scenario.two_words; "sha256.bin" := [x2a] ]};
             writable := fun _ => true;
             malloc_ok := true;
             system := fun _ => Scenario.signer_ok [x01; x02; x03; x04];
             compile_time := "01.01.2025 12:00:00";
             buffer_init := [] |})
    !! "sha256.bin"
  = None.
Proof.
  refine (proj1 (bld_vhd_removes_temporary_files _ Scenario.two_words [x01; x02; x03; x04]
                   _ _ _ _ _ _ _ _ _ _ _)).
  - left. reflexivity.
  - reflexivity.
  - reflexivity.
  - simpl. lia.
  - reflexivity.
  - reflexivity.
  - reflexivity.
  - intros cmd fs. apply lookup_insert_eq.
  - discriminate.
  - discriminate.
  - discriminate.
Defined.

(** X19. The exit status of the signer is not used beyond the message
    [OpenSSL signing failed!]: a signer that leaves the same files with
    another status gives the same exit status of [main] and the same
    files, for every operation and every input. *)
Theorem signer_status_ignored (e : env) (status : Z) :
  res_outcome (main (with_status e status)) = res_outcome (main e)
  /\ res_files (main (with_status e status)) = res_files (main e).
Proof.
  apply main_ext; try reflexivity.
  intros fs d w s. apply sign_and_emit_status.
Qed.

(** ** [sha256] *)

(** X21. When the first loop of [sha256] ends, [offset] is the length of
    the data rounded down to a multiple of 64: fewer than 64 bytes are
    left, so the copy of the rest and the byte [buf[rem] = 0x80] stay
    inside the first 64 bytes of [buf]. *)
Theorem sha256_rest_fits (data : list byte) :
  let offset := (full_blocks process_block (S (length data)) data 0 h_init).2 in
  offset = (64 * (length data / 64))%nat
  /\ (offset <= length data)%nat
  /\ (length data - offset < 64)%nat.
Proof.
  intros offset. subst offset.
  pose proof (full_blocks_sim process_block (fun h b => process_block h b 0)
                process_block_local data h_init (S (length data)) 0%nat []) as H.
  change (fold_left (fun h b => process_block h b 0) [] h_init) with h_init in H.
  rewrite H. cbn [snd]. rewrite full_blocks_trace by lia. cbn [snd].
  rewrite Nat.sub_0_r, Nat.add_0_l.
  pose proof (Nat.div_mod_eq (length data) 64) as Hd.
  pose proof (Nat.mod_upper_bound (length data) 64 ltac:(lia)). lia.
Qed.

(** X22. The loop of the [rem >= 56] branch that reads every group of
    four bytes of [buf] as a big-endian word and stores the word back
    byte by byte leaves the 64 bytes of [buf] as they were. *)
Theorem sha256_restore_words_noop (buf : list byte) :
  length buf = 64%nat -> restore_words buf = buf.
Proof. intros _. apply restore_words_id. Qed.

(** The theorem above at a concrete input. *)
Lemma sha256_restore_words_noop_witness :
  restore_words (<[60%nat := x80]> (replicate 64 x00)) = <[60%nat := x80]> (replicate 64 x00).
Proof. apply sha256_restore_words_noop. reflexivity. Defined.

(** ** Words and bytes *)

(** X23. The two conversions of [main] between a 32-bit word and four
    bytes are inverse to each other: the word assembled from the four
    bytes written for [x] is [x] as a 32-bit value, and the four bytes
    written for the word assembled from [buffer] are the bytes of
    [buffer]. *)
Theorem word_bytes_round_trip :
  (forall x : Z, buffer_word (out_data (fputc_word x created)) = u32 x)
  /\ (forall b0 b1 b2 b3 : byte,
        out_data (fputc_word (buffer_word [b0; b1; b2; b3]) created) = [b0; b1; b2; b3]).
Proof.
  split.
  - intros x. rewrite fputc_word_spec by reflexivity. cbn [created out_data app].
    rewrite buffer_word_spec. apply le_word_le32.
  - intros b0 b1 b2 b3. rewrite fputc_word_spec by reflexivity. cbn [created out_data app].
    rewrite buffer_word_spec. cbn [nth]. apply le32_le_word.
Qed.
